(** * Address book assistant: a shallow embedding of [address_book_v2.py]
    (and of the handlers of the split entry point, [handlers.py]) with the
    properties of its specification.

    Conventions of the embedding.
    - The program is embedded on the strings of code points below 256: a
      Python [str] is a Rocq [string].  In that range the characters matched
      by the regular expression class [\d] are exactly ['0'] .. ['9'].
    - The validators [Phone] and [Birthday] are embedded on all strings as
      well: there a [str] is a [text], the list of its code points, and
      [\d] matches the decimal digits of every script, which the Unicode
      database of the interpreter lists.  The two embeddings agree on the
      strings of code points below 256.
    - A Python exception is a value of [exn]; a computation that may raise
      returns a [result].
    - [datetime.today()] is an explicit argument [today : datetime] of every
      function that reads the clock; the text that [strftime] gives for
      [%Y] below the year 1000 depends on the platform, which is the
      parameter [pad_year].
    - The address book is an insertion-ordered dictionary: an association
      list with unique keys.  A record is reached through its key, so a
      method call on a record found in the book updates the book, also when
      the method or the handler raises afterwards.
    - The functions of [handlers.py] have the text of those of
      [address_book_v2.py], except [show_all_contacts], which is embedded
      twice. *)

From Stdlib Require Import ZArith List String Ascii Bool Lia.
Import ListNotations.

Local Open Scope string_scope.
Local Open Scope Z_scope.

(* ================================================================= *)
(** ** Python runtime: exceptions and results *)

Inductive exn : Type :=
| ValueError (msg : string)
| IndexError (msg : string)
| KeyError (msg : string)
| TypeError (msg : string)
| OverflowError (msg : string).

Inductive result (A : Type) : Type :=
| Ok (a : A)
| Raise (e : exn).

Arguments Ok {A} a.
Arguments Raise {A} e.

Definition rbind {A B : Type} (r : result A) (k : A -> result B) : result B :=
  match r with
  | Ok a => k a
  | Raise e => Raise e
  end.

Notation "'let?' x ':=' r 'in' k" := (rbind r (fun x => k))
  (at level 10, x pattern, r at level 100, k at level 200).

Definition is_ok {A : Type} (r : result A) : bool :=
  match r with Ok _ => true | Raise _ => false end.

(* ================================================================= *)
(** ** Python runtime: characters and strings *)

Definition code (c : ascii) : Z := Z.of_N (N_of_ascii c).

(** The class [\d] on the code points below 256. *)
Definition is_digit (c : ascii) : bool := (48 <=? code c) && (code c <=? 57).

(** The class [[a-b]] for two digit characters. *)
Definition in_range (lo hi : Z) (c : ascii) : bool :=
  (48 + lo <=? code c) && (code c <=? 48 + hi).

Definition digit_val (c : ascii) : Z := code c - 48.

Definition digit_char (d : Z) : ascii := ascii_of_N (Z.to_N (48 + d)).

(** [str.isspace] on code points below 256. *)
Definition is_space (c : ascii) : bool :=
  let n := code c in
  ((9 <=? n) && (n <=? 13)) || ((28 <=? n) && (n <=? 32))
  || (n =? 133) || (n =? 160).

(** [str.lower] on code points below 256. *)
Definition lower_char (c : ascii) : ascii :=
  let n := code c in
  if ((65 <=? n) && (n <=? 90))
     || ((192 <=? n) && (n <=? 222) && negb (n =? 215))
  then ascii_of_N (Z.to_N (n + 32))
  else c.

Fixpoint lower (s : string) : string :=
  match s with
  | EmptyString => EmptyString
  | String c r => String (lower_char c) (lower r)
  end.

Fixpoint all_chars (p : ascii -> bool) (s : string) : bool :=
  match s with
  | EmptyString => true
  | String c r => p c && all_chars p r
  end.

(** [sep.join(xs)]. *)
Fixpoint join (sep : string) (xs : list string) : string :=
  match xs with
  | [] => ""
  | [x] => x
  | x :: rest => x ++ sep ++ join sep rest
  end.

(** [str(n)] for a natural number. *)
Fixpoint str_of_pos_fuel (fuel : nat) (n : Z) (acc : string) : string :=
  match fuel with
  | O => acc
  | S f =>
      let acc' := String (digit_char (n mod 10)) acc in
      if n / 10 =? 0 then acc' else str_of_pos_fuel f (n / 10) acc'
  end.

Definition str_of_nat (n : nat) : string :=
  str_of_pos_fuel (S n) (Z.of_nat n) "".

(** [str.split()] with no argument: the maximal runs of characters that are
    not white space. *)
Fixpoint split_ws_aux (s : string) (cur : option string) : list string :=
  match s with
  | EmptyString =>
      match cur with
      | None => []
      | Some w => [w]
      end
  | String c r =>
      if is_space c then
        match cur with
        | None => split_ws_aux r None
        | Some w => w :: split_ws_aux r None
        end
      else
        match cur with
        | None => split_ws_aux r (Some (String c ""))
        | Some w => split_ws_aux r (Some (w ++ String c ""))
        end
  end.

Definition split_ws (s : string) : list string := split_ws_aux s None.

(** [str.strip()] with no argument. *)
Fixpoint lstrip (s : string) : string :=
  match s with
  | EmptyString => EmptyString
  | String c r => if is_space c then lstrip r else s
  end.

Fixpoint rstrip (s : string) : string :=
  match s with
  | EmptyString => EmptyString
  | String c r =>
      match rstrip r with
      | EmptyString => if is_space c then EmptyString else String c EmptyString
      | r' => String c r'
      end
  end.

Definition strip (s : string) : string := rstrip (lstrip s).

(** [re.fullmatch(r"\d{n}", s)]: [n] characters of class [\d], then the end
    of the string. *)
Fixpoint fullmatch_digits (n : nat) (s : string) : bool :=
  match n, s with
  | O, EmptyString => true
  | S n', String c r => is_digit c && fullmatch_digits n' r
  | _, _ => false
  end.

(* ================================================================= *)
(** ** Python runtime: [datetime] and [timedelta]

    The calendar functions follow the [datetime] module: [_is_leap],
    [_days_in_month], [_days_before_year], [_days_before_month], [_ymd2ord]
    and [_ord2ymd].  Python's [//] and [%] are [Z.div] and [Z.modulo]. *)

Definition MINYEAR : Z := 1.
Definition MAXYEAR : Z := 9999.
Definition MAXORDINAL : Z := 3652059.

Definition is_leap (y : Z) : bool :=
  (y mod 4 =? 0) && (negb (y mod 100 =? 0) || (y mod 400 =? 0)).

Definition DAYS_IN_MONTH (m : Z) : Z :=
  match m with
  | 1 => 31 | 2 => 28 | 3 => 31 | 4 => 30 | 5 => 31 | 6 => 30
  | 7 => 31 | 8 => 31 | 9 => 30 | 10 => 31 | 11 => 30 | 12 => 31
  | _ => -1
  end.

Definition DAYS_BEFORE_MONTH (m : Z) : Z :=
  match m with
  | 1 => 0 | 2 => 31 | 3 => 59 | 4 => 90 | 5 => 120 | 6 => 151
  | 7 => 181 | 8 => 212 | 9 => 243 | 10 => 273 | 11 => 304 | 12 => 334
  | _ => -1
  end.

Definition days_in_month (y m : Z) : Z :=
  if (m =? 2) && is_leap y then 29 else DAYS_IN_MONTH m.

Definition days_before_year (y : Z) : Z :=
  let y' := y - 1 in y' * 365 + y' / 4 - y' / 100 + y' / 400.

Definition days_before_month (y m : Z) : Z :=
  DAYS_BEFORE_MONTH m + (if (2 <? m) && is_leap y then 1 else 0).

Definition ymd2ord (y m d : Z) : Z :=
  days_before_year y + days_before_month y m + d.

Definition DI400Y : Z := 146097.
Definition DI100Y : Z := 36524.
Definition DI4Y : Z := 1461.

Definition ord2ymd (n0 : Z) : Z * Z * Z :=
  let n := n0 - 1 in
  let n400 := n / DI400Y in
  let n := n mod DI400Y in
  let year := n400 * 400 + 1 in
  let n100 := n / DI100Y in
  let n := n mod DI100Y in
  let n4 := n / DI4Y in
  let n := n mod DI4Y in
  let n1 := n / 365 in
  let n := n mod 365 in
  let year := year + n100 * 100 + n4 * 4 + n1 in
  if (n1 =? 4) || (n100 =? 4) then (year - 1, 12, 31)
  else
    let leapyear := (n1 =? 3) && (negb (n4 =? 24) || (n100 =? 3)) in
    let month := Z.shiftr (n + 50) 5 in
    let preceding :=
      DAYS_BEFORE_MONTH month + (if (2 <? month) && leapyear then 1 else 0) in
    if n <? preceding then
      let month' := month - 1 in
      let preceding' :=
        preceding
        - (DAYS_IN_MONTH month' + (if (month' =? 2) && leapyear then 1 else 0)) in
      (year, month', n - preceding' + 1)
    else (year, month, n - preceding + 1).

Record datetime : Type := mkDatetime {
  year : Z; month : Z; day : Z;
  hour : Z; minute : Z; second : Z; microsecond : Z
}.

(** [str(n)] for an integer. *)
Definition str_of_Z (n : Z) : string :=
  if n <? 0 then "-" ++ str_of_nat (Z.to_nat (- n)) else str_of_nat (Z.to_nat n).

(** The checks of the [datetime] constructor. *)
Definition check_date_fields (y m d : Z) : result unit :=
  if negb ((MINYEAR <=? y) && (y <=? MAXYEAR)) then
    Raise (ValueError ("year " ++ str_of_Z y ++ " is out of range"))
  else if negb ((1 <=? m) && (m <=? 12)) then
    Raise (ValueError "month must be in 1..12")
  else if negb ((1 <=? d) && (d <=? days_in_month y m)) then
    Raise (ValueError "day is out of range for month")
  else Ok tt.

(** [t.replace(year=y)]: a new [datetime] is built, so the date is checked. *)
Definition replace_year (t : datetime) (y : Z) : result datetime :=
  let? _ := check_date_fields y (month t) (day t) in
  Ok (mkDatetime y (month t) (day t)
        (hour t) (minute t) (second t) (microsecond t)).

Definition toordinal (t : datetime) : Z := ymd2ord (year t) (month t) (day t).

(** Comparison of two [datetime]s: the tuples of their fields, in
    lexicographic order. *)
Fixpoint cmp_lex (xs ys : list Z) : comparison :=
  match xs, ys with
  | x :: xs', y :: ys' =>
      match x ?= y with
      | Eq => cmp_lex xs' ys'
      | c => c
      end
  | [], [] => Eq
  | [], _ :: _ => Lt
  | _ :: _, [] => Gt
  end.

Definition fields (t : datetime) : list Z :=
  [year t; month t; day t; hour t; minute t; second t; microsecond t].

Definition dt_cmp (a b : datetime) : comparison := cmp_lex (fields a) (fields b).

Definition dt_lt (a b : datetime) : bool :=
  match dt_cmp a b with Lt => true | _ => false end.

Definition dt_le (a b : datetime) : bool :=
  match dt_cmp a b with Gt => false | _ => true end.

Record timedelta : Type := mkTimedelta {
  days : Z; seconds : Z; microseconds : Z
}.

(** The [timedelta] constructor carries microseconds into seconds and
    seconds into days. *)
Definition new_timedelta (d s us : Z) : timedelta :=
  let s := s + us / 1000000 in
  let us := us mod 1000000 in
  let d := d + s / 86400 in
  let s := s mod 86400 in
  mkTimedelta d s us.

Definition day_seconds (t : datetime) : Z :=
  second t + minute t * 60 + hour t * 3600.

(** [a - b] for two [datetime]s. *)
Definition dt_sub (a b : datetime) : timedelta :=
  new_timedelta (toordinal a - toordinal b)
                (day_seconds a - day_seconds b)
                (microsecond a - microsecond b).

(** [t + timedelta(days=n)]. *)
Definition dt_add_days (t : datetime) (n : Z) : result datetime :=
  let delta := new_timedelta (toordinal t + n) (day_seconds t) (microsecond t) in
  let h := seconds delta / 3600 in
  let rem := seconds delta mod 3600 in
  let mi := rem / 60 in
  let s := rem mod 60 in
  if (0 <? days delta) && (days delta <=? MAXORDINAL) then
    let '(y, m, d) := ord2ymd (days delta) in
    Ok (mkDatetime y m d h mi s (microseconds delta))
  else Raise (OverflowError "date value out of range").

(* ================================================================= *)
(** ** Python runtime: [datetime.strptime] and [strftime] for ["%d.%m.%Y"]

    [strptime] turns the format into the regular expression
    [(?P<d>3[0-1]|[1-2]\d|0[1-9]|[1-9]| [1-9])\.(?P<m>1[0-2]|0[1-9]|[1-9])\.(?P<Y>\d\d\d\d)],
    matches it at the start of the input and refuses input that goes on after
    the match.  A fragment of the expression maps the input to the list of its
    matches in the order in which the backtracking matcher tries them: the
    matched text and the rest of the input. *)

Definition is_char (c : ascii) (a : ascii) : bool := code a =? code c.

Definition alt1 (p : ascii -> bool) (s : string) : list (string * string) :=
  match s with
  | String a r => if p a then [(String a "", r)] else []
  | _ => []
  end.

Definition alt2 (p q : ascii -> bool) (s : string) : list (string * string) :=
  match s with
  | String a (String b r) =>
      if p a && q b then [(String a (String b ""), r)] else []
  | _ => []
  end.

Definition re_d (s : string) : list (string * string) :=
  alt2 (is_char "3") (in_range 0 1) s
  ++ alt2 (in_range 1 2) is_digit s
  ++ alt2 (is_char "0") (in_range 1 9) s
  ++ alt1 (in_range 1 9) s
  ++ alt2 (is_char " ") (in_range 1 9) s.

Definition re_m (s : string) : list (string * string) :=
  alt2 (is_char "1") (in_range 0 2) s
  ++ alt2 (is_char "0") (in_range 1 9) s
  ++ alt1 (in_range 1 9) s.

Definition re_Y (s : string) : list (string * string) :=
  match s with
  | String a (String b (String c (String d r))) =>
      if is_digit a && is_digit b && is_digit c && is_digit d
      then [(String a (String b (String c (String d ""))), r)] else []
  | _ => []
  end.

Definition re_dot (s : string) : list string :=
  match s with
  | String a r => if is_char "." a then [r] else []
  | _ => []
  end.

(** All matches of the whole expression: the three groups and the input left
    after the match. *)
Definition re_birthday (s : string) : list (string * string * string * string) :=
  flat_map (fun '(d, r1) =>
    flat_map (fun r2 =>
      flat_map (fun '(m, r3) =>
        flat_map (fun r4 =>
          map (fun '(y, r5) => (d, m, y, r5)) (re_Y r4))
          (re_dot r3))
        (re_m r2))
      (re_dot r1))
    (re_d s).

(** [int(s)] for a string of decimal digits with white space around it. *)
Fixpoint int_digits (s : string) (acc : Z) : Z :=
  match s with
  | EmptyString => acc
  | String c r => int_digits r (acc * 10 + digit_val c)
  end.

Definition py_int (s : string) : Z := int_digits (strip s) 0.

(** [datetime.strptime(s, "%d.%m.%Y")].  The texts of the two [ValueError]s
    of a failed match are shortened: the only caller replaces them. *)
Definition strptime (s : string) : result datetime :=
  match re_birthday s with
  | [] => Raise (ValueError "time data does not match format")
  | (d, m, y, rest) :: _ =>
      match rest with
      | String _ _ => Raise (ValueError "unconverted data remains")
      | EmptyString =>
          let? _ := check_date_fields (py_int y) (py_int m) (py_int d) in
          Ok (mkDatetime (py_int y) (py_int m) (py_int d) 0 0 0 0)
      end
  end.

Definition pad2 (n : Z) : string :=
  String (digit_char (n / 10 mod 10)) (String (digit_char (n mod 10)) "").

Definition pad4 (n : Z) : string :=
  String (digit_char (n / 1000 mod 10))
    (String (digit_char (n / 100 mod 10)) (pad2 n)).

(** The text of [%Y] is the C library's, or the interpreter's from the
    version on that pads it: from the year 1000 on it is the four digits of
    the year; below, it is padded with zeros to four digits on some
    platforms and versions, and not padded on others (glibc before Python
    3.13).  [pad_year] tells which. *)
Definition year_text (pad_year : bool) (y : Z) : string :=
  if (1000 <=? y) || pad_year then pad4 y
  else if 100 <=? y then String (digit_char (y / 100 mod 10)) (pad2 y)
  else if 10 <=? y then pad2 y
  else String (digit_char (y mod 10)) "".

Section Platform.

Variable pad_year : bool.

(** [t.strftime("%d.%m.%Y")]: two digits, two digits and the text of [%Y]. *)
Definition strftime (t : datetime) : string :=
  pad2 (day t) ++ "." ++ pad2 (month t) ++ "." ++ year_text pad_year (year t).

(* ================================================================= *)
(** ** The data model: [Field], [Name], [Phone], [Birthday], [Record] *)

Record Field (A : Type) : Type := mkField { value : A }.

#[global] Arguments mkField {A} value.
#[global] Arguments value {A} f.

(** [Field.__str__] on a field that holds a string. *)
Definition Field_str (f : Field string) : string := value f.

Definition Name : Type := Field string.
Definition Phone : Type := Field string.
Definition Birthday : Type := Field datetime.

Definition Name_init (v : string) : result Name :=
  match v with
  | EmptyString => Raise (ValueError "Name cannot be empty.")
  | _ => Ok (mkField v)
  end.

Definition Phone_init (v : string) : result Phone :=
  if negb (fullmatch_digits 10 v) then
    Raise (ValueError "Phone number must consist of exactly 10 digits.")
  else Ok (mkField v).

Definition Birthday_init (v : string) : result Birthday :=
  match strptime v with
  | Ok t => Ok (mkField t)
  | Raise (ValueError _) =>
      Raise (ValueError "Invalid date format. Use DD.MM.YYYY.")
  | Raise e => Raise e
  end.

(** The class [Record].  A method runs on the object [self] and may raise
    after it has assigned to an attribute: it maps [self] to its outcome and
    to the object it leaves behind. *)
Record Record_ : Type := mkRecord {
  name : Name;
  phones : list Phone;
  birthday : option Birthday
}.

Definition set_phones (self : Record_) (ps : list Phone) : Record_ :=
  mkRecord (name self) ps (birthday self).

Definition set_birthday (self : Record_) (b : option Birthday) : Record_ :=
  mkRecord (name self) (phones self) b.

Definition Record_init (n : string) : result Record_ :=
  let? nm := Name_init n in
  Ok (mkRecord nm [] None).

Definition Record_add_phone (self : Record_) (phone : string)
  : result unit * Record_ :=
  match Phone_init phone with
  | Ok p => (Ok tt, set_phones self (phones self ++ [p]))
  | Raise e => (Raise e, self)
  end.

Definition Record_remove_phone (self : Record_) (phone : string)
  : result unit * Record_ :=
  (Ok tt,
   set_phones self
     (filter (fun p => negb (String.eqb (value p) phone)) (phones self))).

(** [l[i] = x]. *)
Fixpoint list_setitem {A : Type} (l : list A) (i : nat) (x : A)
  : result (list A) :=
  match l, i with
  | [], _ => Raise (IndexError "list assignment index out of range")
  | _ :: rest, O => Ok (x :: rest)
  | y :: rest, S i' =>
      let? rest' := list_setitem rest i' x in
      Ok (y :: rest')
  end.

(** The loop of [edit_phone] over [enumerate(self.phones)], from index [i]
    on: at the first phone equal to [old_phone] the new phone is built, then
    assigned at that index, and the method returns; when the loop ends the
    method raises. *)
Fixpoint edit_phone_loop (self : Record_) (i : nat) (todo : list Phone)
  (old_phone new_phone : string) : result unit * Record_ :=
  match todo with
  | [] =>
      (Raise (ValueError ("Phone number " ++ old_phone ++ " not found.")), self)
  | p :: rest =>
      if String.eqb (value p) old_phone then
        match Phone_init new_phone with
        | Raise e => (Raise e, self)
        | Ok q =>
            match list_setitem (phones self) i q with
            | Ok ps => (Ok tt, set_phones self ps)
            | Raise e => (Raise e, self)
            end
        end
      else edit_phone_loop self (S i) rest old_phone new_phone
  end.

Definition Record_edit_phone (self : Record_) (old_phone new_phone : string)
  : result unit * Record_ :=
  edit_phone_loop self 0 (phones self) old_phone new_phone.

Definition Record_add_birthday (self : Record_) (b : string)
  : result unit * Record_ :=
  match Birthday_init b with
  | Ok bd => (Ok tt, set_birthday self (Some bd))
  | Raise e => (Raise e, self)
  end.

Definition Record_days_to_birthday (today : datetime) (self : Record_)
  : result (option Z) :=
  match birthday self with
  | None => Ok None
  | Some b =>
      let? next_birthday := replace_year (value b) (year today) in
      let? next_birthday :=
        if dt_lt next_birthday today
        then replace_year next_birthday (year today + 1)
        else Ok next_birthday in
      Ok (Some (days (dt_sub next_birthday today)))
  end.

Definition Record_str (self : Record_) : string :=
  let phones_s := join "; " (map value (phones self)) in
  let birthday_s :=
    match birthday self with
    | Some b => strftime (value b)
    | None => "N/A"
    end in
  "Contact name: " ++ value (name self) ++ ", phones: " ++ phones_s
  ++ ", birthday: " ++ birthday_s.

(* ================================================================= *)
(** ** The directory: [AddressBook]

    [self.data] is a dictionary: keys are unique and keep the order in which
    they were first inserted; assigning to a key that is present replaces its
    value and keeps its place. *)

Definition AddressBook : Type := list (string * Record_).

Fixpoint dict_get (k : string) (d : AddressBook) : option Record_ :=
  match d with
  | [] => None
  | (k', v) :: rest => if String.eqb k' k then Some v else dict_get k rest
  end.

Fixpoint dict_set (k : string) (v : Record_) (d : AddressBook) : AddressBook :=
  match d with
  | [] => [(k, v)]
  | (k', v') :: rest =>
      if String.eqb k' k then (k', v) :: rest else (k', v') :: dict_set k v rest
  end.

Definition dict_values (d : AddressBook) : list Record_ := map snd d.

Definition dict_keys (d : AddressBook) : list string := map fst d.

Definition AddressBook_add_record (record : Record_) (self : AddressBook)
  : AddressBook :=
  dict_set (value (name record)) record self.

Definition AddressBook_find (nm : string) (self : AddressBook) : option Record_ :=
  dict_get nm self.

(** The condition of the comprehension in [upcoming_birthdays] for one
    record. *)
Definition birthday_in_window (today next_week : datetime) (record : Record_)
  : result bool :=
  match birthday record with
  | None => Ok false
  | Some b =>
      let? c := replace_year (value b) (year today) in
      Ok (dt_le today c && dt_le c next_week)
  end.

Fixpoint comprehension (today next_week : datetime) (rs : list Record_)
  : result (list Record_) :=
  match rs with
  | [] => Ok []
  | record :: rest =>
      let? keep := birthday_in_window today next_week record in
      let? rest' := comprehension today next_week rest in
      Ok (if keep then record :: rest' else rest')
  end.

Definition AddressBook_upcoming_birthdays (today : datetime) (self : AddressBook)
  : result (list Record_) :=
  let? next_week := dt_add_days today 7 in
  comprehension today next_week (dict_values self).

Definition nl : string := String (ascii_of_nat 10) "".

Definition AddressBook_str (self : AddressBook) : string :=
  join nl (map Record_str (dict_values self)).

(* ================================================================= *)
(** ** Handlers

    A handler runs on the one address book of the process and may raise
    after it has changed the book: a computation maps the book to its
    outcome and to the book it leaves behind. *)

Definition M (A : Type) : Type := AddressBook -> result A * AddressBook.

Definition ret {A : Type} (a : A) : M A := fun book => (Ok a, book).

Definition bind {A B : Type} (m : M A) (k : A -> M B) : M B :=
  fun book =>
    match m book with
    | (Ok a, book') => k a book'
    | (Raise e, book') => (Raise e, book')
    end.

Definition lift {A : Type} (r : result A) : M A := fun book => (r, book).

Definition gets {A : Type} (f : AddressBook -> A) : M A :=
  fun book => (Ok (f book), book).

Definition modify (f : AddressBook -> AddressBook) : M unit :=
  fun book => (Ok tt, f book).

Notation "x <- m ;; k" := (bind m (fun x => k))
  (at level 61, m at next level, right associativity).
Notation "' pat <- m ;; k" := (bind m (fun x => match x with pat => k end))
  (at level 61, pat pattern, m at next level, right associativity).
Notation "m ;;; k" := (bind m (fun _ => k))
  (at level 61, right associativity).

(** A method call [record.method(...)] on the record object that the book
    holds under [key]: what the method does to the object, it does to the
    object in the book, also when it raises. *)
Definition call_method (key : string)
  (method : Record_ -> result unit * Record_) : M unit :=
  fun book =>
    match dict_get key book with
    | None => (Ok tt, book)
    | Some record =>
        let '(r, record') := method record in
        (r, dict_set key record' book)
    end.

(** Sequence unpacking.  [a, b, *rest = args], [a, b, c = args] and
    [a, *rest = args] raise [ValueError] on a sequence that is too short
    (or, without a starred target, too long). *)
Definition not_enough (at_least : bool) (expected : nat) (got : nat) : exn :=
  ValueError ("not enough values to unpack (expected "
              ++ (if at_least then "at least " else "")
              ++ str_of_nat expected ++ ", got " ++ str_of_nat got ++ ")").

Definition too_many (expected : nat) : exn :=
  ValueError ("too many values to unpack (expected " ++ str_of_nat expected ++ ")").

Definition unpack_1_star (args : list string) : result (string * list string) :=
  match args with
  | a :: rest => Ok (a, rest)
  | _ => Raise (not_enough true 1 (List.length args))
  end.

Definition unpack_2_star (args : list string)
  : result (string * string * list string) :=
  match args with
  | a :: b :: rest => Ok (a, b, rest)
  | _ => Raise (not_enough true 2 (List.length args))
  end.

Definition unpack_3 (args : list string) : result (string * string * string) :=
  match args with
  | [a; b; c] => Ok (a, b, c)
  | _ :: _ :: _ :: _ :: _ => Raise (too_many 3)
  | _ => Raise (not_enough false 3 (List.length args))
  end.

(** Truth value of a string. *)
Definition truthy (s : string) : bool :=
  match s with EmptyString => false | _ => true end.

Definition greet (args : list string) : M string := ret "How can I help you?".

Definition add_contact (args : list string) : M string :=
  '(nm, phone, other) <- lift (unpack_2_star args) ;;
  let birthday_arg := match other with b :: _ => Some b | [] => None end in
  record <- gets (AddressBook_find nm) ;;
  message <- match record with
             | None =>
                 r <- lift (Record_init nm) ;;
                 modify (AddressBook_add_record r) ;;;
                 ret "Contact added."
             | Some _ => ret "Contact updated."
             end ;;
  (if truthy phone
   then call_method nm (fun r => Record_add_phone r phone)
   else ret tt) ;;;
  match birthday_arg with
  | Some b =>
      if truthy b then call_method nm (fun r => Record_add_birthday r b)
      else ret tt
  | None => ret tt
  end ;;;
  ret message.

Definition change_contact (args : list string) : M string :=
  '(nm, old_phone, new_phone) <- lift (unpack_3 args) ;;
  record <- gets (AddressBook_find nm) ;;
  match record with
  | Some _ =>
      call_method nm (fun r => Record_edit_phone r old_phone new_phone) ;;;
      ret "Phone number updated."
  | None => ret "Contact not found."
  end.

Definition show_phone (args : list string) : M string :=
  '(nm, _) <- lift (unpack_1_star args) ;;
  record <- gets (AddressBook_find nm) ;;
  match record with
  | Some r => ret (nm ++ ": " ++ join ", " (map value (phones r)))
  | None => ret "Contact not found."
  end.

Definition add_birthday (args : list string) : M string :=
  '(nm, b, _) <- lift (unpack_2_star args) ;;
  record <- gets (AddressBook_find nm) ;;
  match record with
  | Some _ =>
      call_method nm (fun r => Record_add_birthday r b) ;;;
      ret "Birthday added."
  | None => ret "Contact not found."
  end.

Definition show_birthday (args : list string) : M string :=
  '(nm, _) <- lift (unpack_1_star args) ;;
  record <- gets (AddressBook_find nm) ;;
  match record with
  | Some (mkRecord _ _ (Some b)) => ret (nm ++ ": " ++ strftime (value b))
  | _ => ret "No birthday found for this contact."
  end.

(** [show_all_contacts(book)] of [address_book_v2.py]: one parameter. *)
Definition show_all_contacts : M string :=
  book <- gets (fun b => b) ;;
  match book with
  | [] => ret "No contacts found."
  | _ => ret (AddressBook_str book)
  end.

(** [show_all_contacts(_, book)] of [handlers.py]: two parameters. *)
Definition show_all_contacts_2 (args : list string) : M string :=
  show_all_contacts.

Definition show_upcoming_birthdays (today : datetime) (args : list string)
  : M string :=
  upcoming <- (fun book => (AddressBook_upcoming_birthdays today book, book)) ;;
  match upcoming with
  | [] => ret "No birthdays in the next 7 days."
  | _ =>
      ret (join nl
             (map (fun record =>
                     value (name record) ++ ": "
                     ++ match birthday record with
                        | Some b => strftime (value b)
                        | None => ""
                        end)
                upcoming))
  end.

(** A function object: its name and its body, by number of positional
    parameters.  The dispatcher always calls with two arguments. *)
Inductive pyfunc : Type :=
| Fun1 (fname : string) (body : M string)
| Fun2 (fname : string) (body : list string -> M string).

Definition call2 (f : pyfunc) (args : list string) : M string :=
  match f with
  | Fun2 _ body => body args
  | Fun1 fname _ =>
      lift (Raise (TypeError
        (fname ++ "() takes 1 positional argument but 2 were given")))
  end.

(** The decorator [input_error]: the wrapper takes any arguments, passes
    them on, and turns three kinds of exception into a message. *)
Definition input_error (func : pyfunc) : pyfunc :=
  Fun2 "wrapper" (fun args book =>
    match call2 func args book with
    | (Raise (ValueError msg), book') => (Ok msg, book')
    | (Raise (IndexError _), book') => (Ok "Error: Missing arguments.", book')
    | (Raise (KeyError _), book') => (Ok "Error: Contact not found.", book')
    | r => r
    end).

(** The names that the module binds, after decoration. *)
Definition h_greet : pyfunc := Fun2 "greet" greet.
Definition h_add_contact : pyfunc := input_error (Fun2 "add_contact" add_contact).
Definition h_change_contact : pyfunc :=
  input_error (Fun2 "change_contact" change_contact).
Definition h_show_phone : pyfunc := input_error (Fun2 "show_phone" show_phone).
Definition h_add_birthday : pyfunc := input_error (Fun2 "add_birthday" add_birthday).
Definition h_show_birthday : pyfunc :=
  input_error (Fun2 "show_birthday" show_birthday).
Definition h_show_all_contacts : pyfunc :=
  input_error (Fun1 "show_all_contacts" show_all_contacts).
Definition h_show_all_contacts_2 : pyfunc :=
  input_error (Fun2 "show_all_contacts" show_all_contacts_2).
Definition h_show_upcoming_birthdays (today : datetime) : pyfunc :=
  input_error (Fun2 "show_upcoming_birthdays" (show_upcoming_birthdays today)).

(* ================================================================= *)
(** ** The command loop *)

Definition parse_input (user_input : string) : result (string * list string) :=
  let? ca := unpack_1_star (split_ws user_input) in
  Ok (lower (strip (fst ca)), snd ca).

(** The dictionary [handlers] of [main]; [all_handler] is the function bound
    to the name [show_all_contacts] in the module that runs. *)
Definition handlers (all_handler : pyfunc) (today : datetime) (command : string)
  : option pyfunc :=
  if String.eqb command "hello" then Some h_greet
  else if String.eqb command "add" then Some h_add_contact
  else if String.eqb command "change" then Some h_change_contact
  else if String.eqb command "phone" then Some h_show_phone
  else if String.eqb command "all" then Some all_handler
  else if String.eqb command "add-birthday" then Some h_add_birthday
  else if String.eqb command "show-birthday" then Some h_show_birthday
  else if String.eqb command "birthdays" then Some (h_show_upcoming_birthdays today)
  else None.

(** How a run of [main] on a finite list of input lines ends: the loop was
    left by [break]; an exception left [main]; or the lines were all read
    and the loop is back at [input]. *)
Inductive run : Type :=
| Exited (out : list string)
| Uncaught (e : exn) (out : list string)
| AtPrompt (book : AddressBook) (out : list string).

Definition print (out : list string) (s : string) : list string :=
  List.app out [s].

(** One input line comes with the reading of the clock while its command
    runs.  [out] is what has been written to the standard output. *)
Fixpoint main_loop (all_handler : pyfunc) (inputs : list (datetime * string))
  (book : AddressBook) (out : list string) : run :=
  let out := print out "Enter a command: " in
  match inputs with
  | [] => AtPrompt book out
  | (today, user_input) :: rest =>
      match parse_input user_input with
      | Raise e => Uncaught e out
      | Ok (command, args) =>
          if String.eqb command "close" || String.eqb command "exit" then
            Exited (print out "Good bye!")
          else
            match handlers all_handler today command with
            | Some h =>
                match call2 h args book with
                | (Ok s, book') => main_loop all_handler rest book' (print out s)
                | (Raise e, _) => Uncaught e out
                end
            | None => main_loop all_handler rest book (print out "Invalid command.")
            end
      end
  end.

(** [main] of [address_book_v2.py]. *)
Definition main (inputs : list (datetime * string)) : run :=
  main_loop h_show_all_contacts inputs [] ["Welcome to the assistant bot!"].

(** The loop of [main.py], which has the same text, over the handlers of
    [handlers.py]. *)
Definition main_handlers (inputs : list (datetime * string)) : run :=
  main_loop h_show_all_contacts_2 inputs [] ["Welcome to the assistant bot!"].

Definition noon (y m d : Z) : datetime := mkDatetime y m d 12 0 0 0.

(* ================================================================= *)
(** ** Notions of the specification *)

(** A string of exactly 10 of the digits 0 to 9. *)
Definition ten_digits (p : string) : Prop :=
  String.length p = 10%nat /\ all_chars is_digit p = true.

(** The message of the [InvalidInput] failure of the phone validator. *)
Definition phone_invalid : exn :=
  ValueError "Phone number must consist of exactly 10 digits.".

(** [ps] holds [old] first at the end of [pre]: [pre] has no phone equal to
    [old], the next phone is. *)
Definition first_match (ps pre : list Phone) (p : Phone) (post : list Phone)
  (old : string) : Prop :=
  ps = (pre ++ p :: post)%list /\ value p = old
  /\ Forall (fun x => value x <> old) pre.

(** The message of the [InvalidInput] failure of the birthday validator. *)
Definition birthday_invalid : exn :=
  ValueError "Invalid date format. Use DD.MM.YYYY.".

(** A real calendar date. *)
Definition real_date (y m d : Z) : Prop :=
  1 <= y <= 9999 /\ 1 <= m <= 12 /\ 1 <= d <= days_in_month y m.

(** [s] is day.month.year with a 2-digit day, a 2-digit month and a 4-digit
    year, which denote [d], [m] and [y]. *)
Definition strict_format (s : string) (y m d : Z) : Prop :=
  exists d1 d2 m1 m2 y1 y2 y3 y4 : ascii,
    s = String d1 (String d2 (String "."
          (String m1 (String m2 (String "."
            (String y1 (String y2 (String y3 (String y4 "")))))))))
    /\ forallb is_digit [d1; d2; m1; m2; y1; y2; y3; y4] = true
    /\ d = 10 * digit_val d1 + digit_val d2
    /\ m = 10 * digit_val m1 + digit_val m2
    /\ y = 1000 * digit_val y1 + 100 * digit_val y2
           + 10 * digit_val y3 + digit_val y4.

(** One or two digits, or for a day also a space and a digit, with the
    number they denote. *)
Inductive short_number (with_space : bool) : string -> Z -> Prop :=
| sn_two (a b : ascii) :
    is_digit a = true -> is_digit b = true ->
    short_number with_space (String a (String b ""))
      (10 * digit_val a + digit_val b)
| sn_one (a : ascii) :
    is_digit a = true ->
    short_number with_space (String a "") (digit_val a)
| sn_space (a : ascii) :
    with_space = true -> is_digit a = true ->
    short_number with_space (String " " (String a "")) (digit_val a).

Inductive four_digits : string -> Z -> Prop :=
| fd (a b c d : ascii) :
    forallb is_digit [a; b; c; d] = true ->
    four_digits (String a (String b (String c (String d ""))))
      (1000 * digit_val a + 100 * digit_val b + 10 * digit_val c + digit_val d).

(** What [strptime] reads as day.month.year. *)
Definition lenient_format (s : string) (y m d : Z) : Prop :=
  exists ds ms ys : string,
    s = ds ++ "." ++ ms ++ "." ++ ys
    /\ short_number true ds d /\ short_number false ms m /\ four_digits ys y.

(** A contact with no phone, born on the given day. *)
Definition born (nm : string) (y m d : Z) : Record_ :=
  mkRecord (mkField nm) [] (Some (mkField (mkDatetime y m d 0 0 0 0))).

(** Every key of the book is the name of the record stored under it. *)
Definition key_consistent (book : AddressBook) : Prop :=
  Forall (fun kr => fst kr = value (name (snd kr))) book.

(** One handler operation: a command of the dispatch table of [main] with
    its argument list, and the reading of the clock when it runs. *)
Record handler_call : Type := mkCall {
  call_command : string;
  call_args : list string;
  call_today : datetime
}.

(** The book after a handler call; the outcome (a message or an exception
    that the decorator lets through) is dropped. *)
Definition run_call (book : AddressBook) (c : handler_call) : AddressBook :=
  match handlers h_show_all_contacts (call_today c) (call_command c) with
  | Some h => snd (call2 h (call_args c) book)
  | None => book
  end.

Definition run_calls (cs : list handler_call) : AddressBook :=
  fold_left run_call cs [].

End Platform.

(* ================================================================= *)
(** ** The validators on all strings

    [input] returns a [str] of any code points, and in a pattern that is a
    [str] the class [\d] matches the decimal digits of every script.  The
    validators [Phone] and [Birthday] are therefore embedded once more on
    [text], the list of the code points of a string.  On the strings of
    code points below 256 they are the validators above
    ([Phone_init_latin1], [Birthday_init_latin1]). *)

Definition text : Type := list Z.

(** The code points of a string of code points below 256. *)
Fixpoint codes (s : string) : text :=
  match s with
  | EmptyString => []
  | String c r => code c :: codes r
  end.

(** [[lo-hi]] for two characters, by their code points. *)
Definition between (lo hi c : Z) : bool := (lo <=? c) && (c <=? hi).

(** The white space that [int] skips around a number: the ASCII white space
    of C, and the white space beyond ASCII. *)
Definition INT_SPACE : list Z :=
  [9; 10; 11; 12; 13; 32; 133; 160; 5760; 8192; 8193; 8194; 8195; 8196; 8197;
   8198; 8199; 8200; 8201; 8202; 8232; 8233; 8239; 8287; 12288].

Definition is_int_space (c : Z) : bool := existsb (Z.eqb c) INT_SPACE.

Section Unicode.

(** The decimal digits (category Nd) above the code point 255 are those of
    the Unicode database of the interpreter: [zeros] lists the code point of
    the digit zero of each script; the digits one to nine of the script
    follow it. *)
Variable zeros : list Z.

(** [unicodedata.decimal]: the value of a decimal digit. *)
Definition decimal (c : Z) : option Z :=
  if c <? 256 then
    if between 48 57 c then Some (c - 48) else None
  else
    match find (fun z => between z (z + 9) c) zeros with
    | Some z => Some (c - z)
    | None => None
    end.

(** The class [\d]. *)
Definition is_decimal (c : Z) : bool :=
  match decimal c with
  | Some _ => true
  | None => false
  end.

(** [re.fullmatch(r"\d{n}", s)]. *)
Fixpoint fullmatch_digits_unicode (n : nat) (s : text) : bool :=
  match n, s with
  | O, [] => true
  | S n', c :: r => is_decimal c && fullmatch_digits_unicode n' r
  | _, _ => false
  end.

(** [Phone.__init__]. *)
Definition Phone_init_unicode (v : text) : result (Field text) :=
  if negb (fullmatch_digits_unicode 10 v) then
    Raise (ValueError "Phone number must consist of exactly 10 digits.")
  else Ok (mkField v).

(** [Field.__str__] on a field that holds a string. *)
Definition Field_str_unicode (f : Field text) : text := value f.

(** The fragments of the expression of [strptime], as above. *)
Definition alt1_unicode (p : Z -> bool) (s : text) : list (text * text) :=
  match s with
  | a :: r => if p a then [([a], r)] else []
  | _ => []
  end.

Definition alt2_unicode (p q : Z -> bool) (s : text) : list (text * text) :=
  match s with
  | a :: b :: r => if p a && q b then [([a; b], r)] else []
  | _ => []
  end.

Definition re_d_unicode (s : text) : list (text * text) :=
  alt2_unicode (Z.eqb 51) (between 48 49) s
  ++ alt2_unicode (between 49 50) is_decimal s
  ++ alt2_unicode (Z.eqb 48) (between 49 57) s
  ++ alt1_unicode (between 49 57) s
  ++ alt2_unicode (Z.eqb 32) (between 49 57) s.

Definition re_m_unicode (s : text) : list (text * text) :=
  alt2_unicode (Z.eqb 49) (between 48 50) s
  ++ alt2_unicode (Z.eqb 48) (between 49 57) s
  ++ alt1_unicode (between 49 57) s.

Definition re_Y_unicode (s : text) : list (text * text) :=
  match s with
  | a :: b :: c :: d :: r =>
      if is_decimal a && is_decimal b && is_decimal c && is_decimal d
      then [([a; b; c; d], r)] else []
  | _ => []
  end.

Definition re_dot_unicode (s : text) : list text :=
  match s with
  | a :: r => if a =? 46 then [r] else []
  | _ => []
  end.

Definition re_birthday_unicode (s : text) : list (text * text * text * text) :=
  flat_map (fun '(d, r1) =>
    flat_map (fun r2 =>
      flat_map (fun '(m, r3) =>
        flat_map (fun r4 =>
          map (fun '(y, r5) => (d, m, y, r5)) (re_Y_unicode r4))
          (re_dot_unicode r3))
        (re_m_unicode r2))
      (re_dot_unicode r1))
    (re_d_unicode s).

(** [int(s)] for decimal digits of any script with white space around
    them; a sign and underscores are not embedded. *)
Fixpoint lstrip_int (s : text) : text :=
  match s with
  | [] => []
  | c :: r => if is_int_space c then lstrip_int r else s
  end.

Fixpoint rstrip_int (s : text) : text :=
  match s with
  | [] => []
  | c :: r =>
      match rstrip_int r with
      | [] => if is_int_space c then [] else [c]
      | r' => c :: r'
      end
  end.

Fixpoint int_digits_unicode (s : text) (acc : Z) : result Z :=
  match s with
  | [] => Ok acc
  | c :: r =>
      match decimal c with
      | Some v => int_digits_unicode r (acc * 10 + v)
      | None => Raise (ValueError "invalid literal for int() with base 10")
      end
  end.

Definition int_unicode (s : text) : result Z :=
  match rstrip_int (lstrip_int s) with
  | [] => Raise (ValueError "invalid literal for int() with base 10")
  | digits => int_digits_unicode digits 0
  end.

(** [datetime.strptime(s, "%d.%m.%Y")]. *)
Definition strptime_unicode (s : text) : result datetime :=
  match re_birthday_unicode s with
  | [] => Raise (ValueError "time data does not match format")
  | (d, m, y, rest) :: _ =>
      match rest with
      | _ :: _ => Raise (ValueError "unconverted data remains")
      | [] =>
          let? dv := int_unicode d in
          let? mv := int_unicode m in
          let? yv := int_unicode y in
          let? _ := check_date_fields yv mv dv in
          Ok (mkDatetime yv mv dv 0 0 0 0)
      end
  end.

(** [Birthday.__init__]. *)
Definition Birthday_init_unicode (v : text) : result Birthday :=
  match strptime_unicode v with
  | Ok t => Ok (mkField t)
  | Raise (ValueError _) =>
      Raise (ValueError "Invalid date format. Use DD.MM.YYYY.")
  | Raise e => Raise e
  end.

(** No digit of the table is a code point below 256 or white space. *)
Definition table_ok : bool :=
  forallb (fun z =>
             (256 <=? z)
             && forallb (fun w => negb (between z (z + 9) w)) INT_SPACE)
          zeros.

End Unicode.

(** The table of the Unicode database 14.0.0, which CPython 3.11 has: the
    digits zero above the code point 255, from ARABIC-INDIC DIGIT ZERO to
    SEGMENTED DIGIT ZERO. *)
Definition UNICODE_14 : list Z :=
  [1632; 1776; 1984; 2406; 2534; 2662; 2790; 2918; 3046; 3174; 3302; 3430;
   3558; 3664; 3792; 3872; 4160; 4240; 6112; 6160; 6470; 6608; 6784; 6800;
   6992; 7088; 7232; 7248; 42528; 43216; 43264; 43472; 43504; 43600; 44016;
   65296; 66720; 68912; 69734; 69872; 69942; 70096; 70384; 70736; 70864;
   71248; 71360; 71472; 71904; 72016; 72784; 73040; 73120; 92768; 92864;
   93008; 120782; 120792; 120802; 120812; 120822; 123200; 123632; 125264;
   130032].

(* ================================================================= *)
(** ** Notions of the proofs *)

(** What every handler keeps: key consistency, and for each key of the book
    a record of the same name. *)
Definition keeps (book book' : AddressBook) : Prop :=
  key_consistent book ->
  key_consistent book'
  /\ forall k r, dict_get k book = Some r ->
                 exists r', dict_get k book' = Some r' /\ name r' = name r.

(** A computation, or a function object, that takes every book to a book
    related to it by [R]. *)
Definition tame (R : AddressBook -> AddressBook -> Prop) {A : Type} (m : M A)
  : Prop :=
  forall book, R book (snd (m book)).

Definition tame_func (R : AddressBook -> AddressBook -> Prop) (f : pyfunc)
  : Prop :=
  forall args, tame R (call2 f args).

Definition no_birthday_found : string := "No birthday found for this contact.".

Definition year_days (y : Z) : Z := if is_leap y then 366 else 365.

Definition valid_date (y m d : Z) : Prop :=
  1 <= m <= 12 /\ 1 <= d <= days_in_month y m.

(** The end of [_ord2ymd]: month and day from the day of the year, counted
    from 0. *)
Definition month_day (leapyear : bool) (n : Z) : Z * Z :=
  let month := Z.shiftr (n + 50) 5 in
  let preceding :=
    DAYS_BEFORE_MONTH month + (if (2 <? month) && leapyear then 1 else 0) in
  if n <? preceding then
    let month' := month - 1 in
    let preceding' :=
      preceding
      - (DAYS_IN_MONTH month' + (if (month' =? 2) && leapyear then 1 else 0)) in
    (month', n - preceding' + 1)
  else (month, n - preceding + 1).

Definition month_day_ok (leapyear : bool) (n : Z) : bool :=
  let '(m, d) := month_day leapyear n in
  (1 <=? m) && (m <=? 12) && (1 <=? d)
  && (d <=? (if (m =? 2) && leapyear then 29 else DAYS_IN_MONTH m))
  && (DAYS_BEFORE_MONTH m + (if (2 <? m) && leapyear then 1 else 0) + d =? n + 1).

Definition time_ok (t : datetime) : Prop :=
  0 <= hour t < 24 /\ 0 <= minute t < 60 /\ 0 <= second t < 60
  /\ 0 <= microsecond t < 1000000.

Definition datetime_ok (t : datetime) : Prop :=
  1 <= year t <= 9999 /\ valid_date (year t) (month t) (day t) /\ time_ok t.

(** The time of day in microseconds. *)
Definition day_micros (t : datetime) : Z :=
  day_seconds t * 1000000 + microsecond t.

(** A stored birthday is a date at midnight, as [Birthday] builds it. *)
Definition birthday_ok (b : Birthday) : Prop :=
  datetime_ok (value b) /\ day_micros (value b) = 0.

Definition record_ok (r : Record_) : Prop :=
  forall b, birthday r = Some b -> birthday_ok b.

Definition birthdays_ok (book : AddressBook) : Prop :=
  Forall record_ok (dict_values book).

Definition keeps_birthdays (book book' : AddressBook) : Prop :=
  birthdays_ok book -> birthdays_ok book'.

(** A method that changes neither the name of the record nor the fact that
    its birthday, if any, is a date at midnight. *)
Definition gentle (method : Record_ -> result unit * Record_) : Prop :=
  forall r, name (snd (method r)) = name r
            /\ (record_ok r -> record_ok (snd (method r))).

(** The ordinal of the comparison date: the month and day of the birthday
    in the year of [today]. *)
Definition comparison_ordinal (today : datetime) (b : Birthday) : Z :=
  ymd2ord (year today) (month (value b)) (day (value b)).

(** The month and day of the birthday exist in the year of [today]. *)
Definition comparable (today : datetime) (b : Birthday) : Prop :=
  valid_date (year today) (month (value b)) (day (value b)).

(** 0 at midnight, 1 later in the day. *)
Definition past_midnight (t : datetime) : Z :=
  if day_micros t =? 0 then 0 else 1.

(** The window in days: from today, or from tomorrow when the clock is past
    midnight, to the seventh day after today. *)
Definition in_window (today : datetime) (ord : Z) : bool :=
  (toordinal today + past_midnight today <=? ord)
  && (ord <=? toordinal today + 7).

Definition upcoming (today : datetime) (r : Record_) : bool :=
  match birthday r with
  | Some b => in_window today (comparison_ordinal today b)
  | None => false
  end.

(* ================================================================= *)
(** ** Notions of the validators on all strings *)

(** Exactly [n] decimal digit characters, of any script. *)
Definition decimal_digits (zeros : list Z) (n : nat) (p : text) : Prop :=
  List.length p = n /\ forallb (is_decimal zeros) p = true.

(** The days that [strptime] reads, with the number they denote: two of the
    digits 0 to 9, where after a first digit 1 or 2 the second digit may be
    a decimal digit of any script; one digit; a space and one digit. *)
Inductive day_text (zeros : list Z) : text -> Z -> Prop :=
| day_two (a b v : Z) :
    between 48 57 a = true -> decimal zeros b = Some v ->
    between 49 50 a = true \/ between 48 57 b = true ->
    day_text zeros [a; b] (10 * (a - 48) + v)
| day_one (a : Z) :
    between 48 57 a = true -> day_text zeros [a] (a - 48)
| day_space (a : Z) :
    between 48 57 a = true -> day_text zeros [32; a] (a - 48).

(** The months: one or two of the digits 0 to 9. *)
Inductive month_text : text -> Z -> Prop :=
| month_two (a b : Z) :
    between 48 57 a = true -> between 48 57 b = true ->
    month_text [a; b] (10 * (a - 48) + (b - 48))
| month_one (a : Z) :
    between 48 57 a = true -> month_text [a] (a - 48).

(** The years: four decimal digits of any script. *)
Inductive year_digits (zeros : list Z) : text -> Z -> Prop :=
| year_four (a b c d va vb vc vd : Z) :
    decimal zeros a = Some va -> decimal zeros b = Some vb ->
    decimal zeros c = Some vc -> decimal zeros d = Some vd ->
    year_digits zeros [a; b; c; d] (1000 * va + 100 * vb + 10 * vc + vd).

(** What [strptime] reads as day.month.year, on all strings. *)
Definition lenient_format_unicode (zeros : list Z) (s : text) (y m d : Z)
  : Prop :=
  exists ds ms ys : text,
    s = (ds ++ [46] ++ ms ++ [46] ++ ys)%list
    /\ day_text zeros ds d /\ month_text ms m /\ year_digits zeros ys y.

(* ================================================================= *)
(** ** Notions of the further properties *)

(** [l'] is [l] with more entries after it. *)
Definition extends (l l' : list string) : Prop :=
  exists more, l' = (l ++ more)%list.

(** The book keeps its names in their places, and keeps them distinct. *)
Definition grows (book book' : AddressBook) : Prop :=
  extends (dict_keys book) (dict_keys book')
  /\ (NoDup (dict_keys book) -> NoDup (dict_keys book')).

(** A phone as the validator builds it: ten decimal digit characters. *)
Definition phone_valid (zeros : list Z) (p : Phone) : Prop :=
  decimal_digits zeros 10 (codes (value p)).

(** A record as the validators build it: a name that is not empty, phones
    of ten decimal digits, and a birthday, if any, that is a date at
    midnight. *)
Definition record_valid (zeros : list Z) (r : Record_) : Prop :=
  value (name r) <> ""
  /\ Forall (phone_valid zeros) (phones r)
  /\ record_ok r.

Definition book_valid (zeros : list Z) (book : AddressBook) : Prop :=
  Forall (record_valid zeros) (dict_values book).

Definition keeps_valid (zeros : list Z) (book book' : AddressBook) : Prop :=
  book_valid zeros book -> book_valid zeros book'.

(** A line of white space only, the empty line included. *)
Definition blank (s : string) : Prop := all_chars is_space s = true.

Definition not_space (c : ascii) : bool := negb (is_space c).

(** A word: not empty, no white space in it. *)
Definition word (t : string) : Prop :=
  t <> "" /\ all_chars not_space t = true.

Definition value_error (e : exn) : bool :=
  match e with
  | ValueError _ => true
  | _ => false
  end.

(** A computation, or a method, that raises nothing but [ValueError]. *)
Definition mild {A : Type} (m : M A) : Prop :=
  forall book e, fst (m book) = Raise e -> value_error e = true.

Definition mild_method (method : Record_ -> result unit * Record_) : Prop :=
  forall r e, fst (method r) = Raise e -> value_error e = true.

(** The line of the command [birthdays] for one record. *)
Definition birthday_line (pad_year : bool) (r : Record_) : string :=
  value (name r) ++ ": "
  ++ match birthday r with
     | Some b => strftime pad_year (value b)
     | None => ""
     end.

(** What the loop needs of one input line to go on: a clock inside the
    calendar with seven days to spare, a line that is not blank, and a
    command that is not [all]. *)
Definition line_ok (input : datetime * string) : Prop :=
  datetime_ok (fst input)
  /\ toordinal (fst input) + 7 <= MAXORDINAL
  /\ ~ blank (snd input)
  /\ forall cmd args, parse_input (snd input) = Ok (cmd, args) -> cmd <> "all".

(** A line whose command is neither [close] nor [exit]. *)
Definition stays (input : datetime * string) : Prop :=
  forall cmd args,
    parse_input (snd input) = Ok (cmd, args) -> cmd <> "close" /\ cmd <> "exit".

(* ================================================================= *)
(** * Properties *)

(** ** Examples of the embedding *)

Example split_ws_ex : split_ws "  add  Bob 123 " = ["add"; "Bob"; "123"].
Proof. reflexivity. Qed.

Example str_of_nat_ex : str_of_nat 120 = "120".
Proof. reflexivity. Qed.

Example ord2ymd_ex1 : ord2ymd 1 = (1, 1, 1).
Proof. reflexivity. Qed.

Example ord2ymd_ex2 : ord2ymd (ymd2ord 2024 2 29) = (2024, 2, 29).
Proof. reflexivity. Qed.

Example ord2ymd_ex3 : ord2ymd MAXORDINAL = (9999, 12, 31).
Proof. reflexivity. Qed.

Example ymd2ord_ex : ymd2ord 2025 11 3 = 739558.
Proof. reflexivity. Qed.

Example strptime_ex1 :
  strptime "03.11.2025" = Ok (mkDatetime 2025 11 3 0 0 0 0).
Proof. reflexivity. Qed.

Example strptime_ex2 : is_ok (strptime "31.02.2025") = false.
Proof. reflexivity. Qed.

Example strptime_ex3 : is_ok (strptime "03.11.2025 ") = false.
Proof. reflexivity. Qed.

Example strftime_ex (pad_year : bool) :
  strftime pad_year (mkDatetime 2025 11 3 0 0 0 0) = "03.11.2025".
Proof. reflexivity. Qed.

Example main_ex1 (pad_year : bool) :
  main pad_year
       [(noon 2025 11 3, "add Alice 1234567890");
        (noon 2025 11 3, "phone Alice");
        (noon 2025 11 3, "add Alice 1234567890");
        (noon 2025 11 3, "change Bob 0000000000 1111111111");
        (noon 2025 11 3, "EXIT")]
  = Exited ["Welcome to the assistant bot!";
            "Enter a command: "; "Contact added.";
            "Enter a command: "; "Alice: 1234567890";
            "Enter a command: "; "Contact updated.";
            "Enter a command: "; "Contact not found.";
            "Enter a command: "; "Good bye!"].
Proof. reflexivity. Qed.

(** ** Strings and the phone pattern *)

Lemma fullmatch_digits_spec (n : nat) (s : string) :
  fullmatch_digits n s = true
  <-> String.length s = n /\ all_chars is_digit s = true.
Proof.
  revert s; induction n as [|n IH]; intros [|c r]; simpl.
  - tauto.
  - split; [discriminate | intros [H _]; discriminate].
  - split; [discriminate | intros [H _]; discriminate].
  - rewrite andb_true_iff, IH. split.
    + intros [Hc [Hl Hr]]. now rewrite Hl, Hc, Hr.
    + intros [Hl Hr]. apply andb_true_iff in Hr. injection Hl as Hl. tauto.
Qed.

Lemma Phone_init_valid (p : string) :
  ten_digits p -> Phone_init p = Ok (mkField p).
Proof.
  intros H. unfold Phone_init.
  apply fullmatch_digits_spec in H. now rewrite H.
Qed.

Lemma Phone_init_invalid (p : string) :
  ~ ten_digits p -> Phone_init p = Raise phone_invalid.
Proof.
  intros H. unfold Phone_init.
  destruct (fullmatch_digits 10 p) eqn:E; [|reflexivity].
  apply fullmatch_digits_spec in E. contradiction.
Qed.

Lemma ten_digits_dec (p : string) : ten_digits p \/ ~ ten_digits p.
Proof.
  destruct (fullmatch_digits 10 p) eqn:E.
  - left. now apply fullmatch_digits_spec.
  - right. intros H. apply fullmatch_digits_spec in H. congruence.
Qed.

(** ** The birthday format: [strptime] and [strftime] *)

Lemma code_digit_char (c : ascii) : digit_char (digit_val c) = c.
Proof.
  unfold digit_char, digit_val, code.
  replace (48 + (Z.of_N (N_of_ascii c) - 48)) with (Z.of_N (N_of_ascii c)) by lia.
  now rewrite N2Z.id, ascii_N_embedding.
Qed.

Ltac norm_codes :=
  change (code "3") with 51 in *; change (code "0") with 48 in *;
  change (code "1") with 49 in *; change (code " ") with 32 in *;
  change (code ".") with 46 in *.

Ltac bool_arith :=
  unfold is_digit, in_range, is_char, is_space, digit_val in *; norm_codes;
  repeat match goal with
         | H : _ && _ = true |- _ => apply andb_true_iff in H; destruct H
         | H : _ && _ = false |- _ => apply andb_false_iff in H; destruct H
         | H : _ || _ = true |- _ => apply orb_true_iff in H; destruct H
         | H : _ || _ = false |- _ => apply orb_false_iff in H; destruct H
         | H : (_ <=? _) = true |- _ => apply Z.leb_le in H
         | H : (_ <=? _) = false |- _ => apply Z.leb_gt in H
         | H : (_ <? _) = true |- _ => apply Z.ltb_lt in H
         | H : (_ <? _) = false |- _ => apply Z.ltb_ge in H
         | H : (_ =? _) = true |- _ => apply Z.eqb_eq in H
         | H : (_ =? _) = false |- _ => apply Z.eqb_neq in H
         | H : negb _ = true |- _ => apply negb_true_iff in H
         | H : negb _ = false |- _ => apply negb_false_iff in H
         end;
  try lia.

Lemma is_digit_not_space (c : ascii) : is_digit c = true -> is_space c = false.
Proof.
  intros H. destruct (is_space c) eqn:E; [|reflexivity]. exfalso. bool_arith.
Qed.

Lemma is_digit_not_dot (c : ascii) : is_digit c = true -> is_char "." c = false.
Proof.
  intros H. destruct (is_char "." c) eqn:E; [|reflexivity]. exfalso. bool_arith.
Qed.

Lemma in_range_digit (lo hi : Z) (c : ascii) :
  0 <= lo -> hi <= 9 -> in_range lo hi c = true ->
  is_digit c = true /\ lo <= digit_val c <= hi.
Proof.
  intros Hlo Hhi H. split.
  - destruct (is_digit c) eqn:E; [reflexivity|]. exfalso. bool_arith.
  - bool_arith.
Qed.

Lemma is_char_digit (n : ascii) (c : ascii) :
  48 <= code n <= 57 -> is_char n c = true ->
  is_digit c = true /\ digit_val c = code n - 48.
Proof.
  intros Hn H. unfold is_char in H. apply Z.eqb_eq in H.
  unfold is_digit, digit_val. rewrite H. split; [|reflexivity].
  apply andb_true_iff. split; apply Z.leb_le; lia.
Qed.

Lemma alt1_In (p : ascii -> bool) (s g r : string) :
  In (g, r) (alt1 p s) ->
  exists a, s = String a r /\ g = String a "" /\ p a = true.
Proof.
  unfold alt1. destruct s as [|a s]; [intros []|].
  destruct (p a) eqn:E; [|intros []].
  intros [[= <- <-] | []]. now exists a.
Qed.

Lemma alt2_In (p q : ascii -> bool) (s g r : string) :
  In (g, r) (alt2 p q s) ->
  exists a b, s = String a (String b r) /\ g = String a (String b "")
              /\ p a = true /\ q b = true.
Proof.
  unfold alt2. destruct s as [|a [|b s]]; try (intros []).
  destruct (p a && q b) eqn:E; [|intros []].
  apply andb_true_iff in E. destruct E.
  intros [[= <- <-] | []]. now exists a, b.
Qed.

Lemma rstrip_digits (s : string) :
  all_chars is_digit s = true -> rstrip s = s.
Proof.
  induction s as [|c r IH]; simpl; [reflexivity|].
  intros H. apply andb_true_iff in H. destruct H as [Hc Hr].
  rewrite (IH Hr). destruct r; [|reflexivity].
  now rewrite (is_digit_not_space c Hc).
Qed.

Lemma strip_digits (s : string) :
  all_chars is_digit s = true -> strip s = s.
Proof.
  intros H. unfold strip. destruct s as [|c r]; [reflexivity|].
  pose proof H as H'. simpl in H'. apply andb_true_iff in H'.
  destruct H' as [Hc _]. cbn [lstrip]. rewrite (is_digit_not_space c Hc).
  now apply rstrip_digits.
Qed.

Lemma strip_space (s : string) : strip (String " " s) = strip s.
Proof. reflexivity. Qed.

Lemma py_int_one (a : ascii) :
  is_digit a = true -> py_int (String a "") = digit_val a.
Proof.
  intros Ha. unfold py_int. rewrite strip_digits.
  - cbn [int_digits]. lia.
  - cbn [all_chars]. now rewrite Ha.
Qed.

Lemma py_int_two (a b : ascii) :
  is_digit a = true -> is_digit b = true ->
  py_int (String a (String b "")) = 10 * digit_val a + digit_val b.
Proof.
  intros Ha Hb. unfold py_int. rewrite strip_digits.
  - cbn [int_digits]. lia.
  - cbn [all_chars]. now rewrite Ha, Hb.
Qed.

Lemma py_int_space (a : ascii) :
  is_digit a = true -> py_int (String " " (String a "")) = digit_val a.
Proof.
  intros Ha. unfold py_int. rewrite strip_space. now apply py_int_one.
Qed.

Lemma py_int_four (a b c d : ascii) :
  forallb is_digit [a; b; c; d] = true ->
  py_int (String a (String b (String c (String d ""))))
  = 1000 * digit_val a + 100 * digit_val b + 10 * digit_val c + digit_val d.
Proof.
  cbn [forallb]. rewrite !andb_true_iff. intros (Ha & Hb & Hc & Hd & _).
  unfold py_int. rewrite strip_digits.
  - cbn [int_digits]. lia.
  - cbn [all_chars]. now rewrite Ha, Hb, Hc, Hd.
Qed.

Lemma code_inj (a b : ascii) : code a = code b -> a = b.
Proof.
  unfold code. intros H. apply N2Z.inj in H.
  rewrite <- (ascii_N_embedding a), <- (ascii_N_embedding b). now rewrite H.
Qed.

Lemma re_dot_In (s r : string) : In r (re_dot s) -> s = String "." r.
Proof.
  unfold re_dot. destruct s as [|a s]; [intros []|].
  destruct (is_char "." a) eqn:E; [|intros []].
  intros [<- | []]. unfold is_char in E. apply Z.eqb_eq in E.
  now rewrite (code_inj _ _ E).
Qed.

Lemma re_d_In (s g r : string) :
  In (g, r) (re_d s) ->
  s = g ++ r /\ short_number true g (py_int g).
Proof.
  unfold re_d. rewrite !in_app_iff.
  intros [H | [H | [H | [H | H]]]].
  - apply alt2_In in H. destruct H as (a & b & -> & -> & Ha & Hb).
    apply is_char_digit in Ha; [|norm_codes; lia]. destruct Ha as [Ha _].
    apply in_range_digit in Hb; [|lia|lia]. destruct Hb as [Hb _].
    split; [reflexivity|]. rewrite py_int_two by assumption. now constructor.
  - apply alt2_In in H. destruct H as (a & b & -> & -> & Ha & Hb).
    apply in_range_digit in Ha; [|lia|lia]. destruct Ha as [Ha _].
    split; [reflexivity|]. rewrite py_int_two by assumption. now constructor.
  - apply alt2_In in H. destruct H as (a & b & -> & -> & Ha & Hb).
    apply is_char_digit in Ha; [|norm_codes; lia]. destruct Ha as [Ha _].
    apply in_range_digit in Hb; [|lia|lia]. destruct Hb as [Hb _].
    split; [reflexivity|]. rewrite py_int_two by assumption. now constructor.
  - apply alt1_In in H. destruct H as (a & -> & -> & Ha).
    apply in_range_digit in Ha; [|lia|lia]. destruct Ha as [Ha _].
    split; [reflexivity|]. rewrite py_int_one by assumption. now constructor.
  - apply alt2_In in H. destruct H as (a & b & -> & -> & Ha & Hb).
    unfold is_char in Ha. apply Z.eqb_eq, code_inj in Ha. subst a.
    apply in_range_digit in Hb; [|lia|lia]. destruct Hb as [Hb _].
    split; [reflexivity|]. rewrite py_int_space by assumption.
    now apply sn_space.
Qed.

Lemma re_m_In (s g r : string) :
  In (g, r) (re_m s) ->
  s = g ++ r /\ short_number false g (py_int g).
Proof.
  unfold re_m. rewrite !in_app_iff.
  intros [H | [H | H]].
  - apply alt2_In in H. destruct H as (a & b & -> & -> & Ha & Hb).
    apply is_char_digit in Ha; [|norm_codes; lia]. destruct Ha as [Ha _].
    apply in_range_digit in Hb; [|lia|lia]. destruct Hb as [Hb _].
    split; [reflexivity|]. rewrite py_int_two by assumption. now constructor.
  - apply alt2_In in H. destruct H as (a & b & -> & -> & Ha & Hb).
    apply is_char_digit in Ha; [|norm_codes; lia]. destruct Ha as [Ha _].
    apply in_range_digit in Hb; [|lia|lia]. destruct Hb as [Hb _].
    split; [reflexivity|]. rewrite py_int_two by assumption. now constructor.
  - apply alt1_In in H. destruct H as (a & -> & -> & Ha).
    apply in_range_digit in Ha; [|lia|lia]. destruct Ha as [Ha _].
    split; [reflexivity|]. rewrite py_int_one by assumption. now constructor.
Qed.

Lemma re_Y_In (s g r : string) :
  In (g, r) (re_Y s) ->
  s = g ++ r /\ four_digits g (py_int g).
Proof.
  unfold re_Y. destruct s as [|a [|b [|c [|d s]]]]; try (intros []).
  destruct (is_digit a && is_digit b && is_digit c && is_digit d) eqn:E;
    [|intros []].
  intros [[= <- <-] | []]. split; [reflexivity|].
  assert (H : forallb is_digit [a; b; c; d] = true).
  { cbn [forallb]. rewrite !andb_true_iff in *. tauto. }
  rewrite py_int_four by exact H. now constructor.
Qed.

Lemma re_birthday_In (s d m y rest : string) :
  In (d, m, y, rest) (re_birthday s) ->
  s = d ++ "." ++ m ++ "." ++ y ++ rest
  /\ short_number true d (py_int d)
  /\ short_number false m (py_int m)
  /\ four_digits y (py_int y).
Proof.
  unfold re_birthday. intros H.
  apply in_flat_map in H. destruct H as ([d' r1] & Hd & H).
  apply in_flat_map in H. destruct H as (r2 & H1 & H).
  apply in_flat_map in H. destruct H as ([m' r3] & Hm & H).
  apply in_flat_map in H. destruct H as (r4 & H2 & H).
  apply in_map_iff in H. destruct H as ([y' r5] & [= <- <- <- <-] & Hy).
  apply re_d_In in Hd. destruct Hd as [-> Hd].
  apply re_dot_In in H1. subst r1.
  apply re_m_In in Hm. destruct Hm as [-> Hm].
  apply re_dot_In in H2. subst r3.
  apply re_Y_In in Hy. destruct Hy as [-> Hy].
  repeat split; assumption.
Qed.

Lemma check_date_fields_real (y m d : Z) :
  check_date_fields y m d = Ok tt <-> real_date y m d.
Proof.
  unfold check_date_fields, real_date, MINYEAR, MAXYEAR.
  destruct ((1 <=? y) && (y <=? 9999)) eqn:Ey; simpl.
  - destruct ((1 <=? m) && (m <=? 12)) eqn:Em; simpl.
    + destruct ((1 <=? d) && (d <=? days_in_month y m)) eqn:Ed; simpl.
      * split; [intros _ | reflexivity]. bool_arith.
      * split; [discriminate|]. intros H. exfalso. bool_arith.
    + split; [discriminate|]. intros H. exfalso. bool_arith.
  - split; [discriminate|]. intros H. exfalso. bool_arith.
Qed.

Lemma check_date_fields_raises (y m d : Z) (e : exn) :
  check_date_fields y m d = Raise e -> exists msg, e = ValueError msg.
Proof.
  unfold check_date_fields.
  repeat match goal with
         | |- context [if ?c then _ else _] => destruct c
         end; intros [= <-]; eauto.
Qed.

(** [strptime] succeeds only on day.month.year as it reads it, for a real
    date, and gives that date at midnight. *)
Lemma strptime_sound (s : string) (t : datetime) :
  strptime s = Ok t ->
  exists y m d, lenient_format s y m d /\ real_date y m d
                /\ t = mkDatetime y m d 0 0 0 0.
Proof.
  unfold strptime.
  destruct (re_birthday s) as [|[[[ds ms] ys] rest] l] eqn:E; [discriminate|].
  assert (Hin : In (ds, ms, ys, rest) (re_birthday s))
    by (rewrite E; now left).
  apply re_birthday_In in Hin. destruct Hin as (Hs & Hd & Hm & Hy).
  destruct rest; [|discriminate].
  destruct (check_date_fields _ _ _) as [[]|e] eqn:Ec; simpl; [|discriminate].
  intros [= <-]. apply check_date_fields_real in Ec.
  exists (py_int ys), (py_int ms), (py_int ds).
  split; [|split; [exact Ec | reflexivity]].
  exists ds, ms, ys. rewrite Hs.
  split; [|repeat split; assumption].
  replace (ys ++ "") with ys; [reflexivity|].
  clear. induction ys as [|c ys IH]; simpl; [reflexivity | now rewrite <- IH].
Qed.

Lemma strptime_raises (s : string) (e : exn) :
  strptime s = Raise e -> exists msg, e = ValueError msg.
Proof.
  unfold strptime.
  destruct (re_birthday s) as [|[[[ds ms] ys] rest] l];
    [intros [= <-]; eauto|].
  destruct rest; [|intros [= <-]; eauto].
  destruct (check_date_fields _ _ _) as [[]|e'] eqn:Ec; simpl; [discriminate|].
  intros [= <-]. now apply check_date_fields_raises in Ec.
Qed.

Lemma Birthday_init_cases (s : string) :
  (exists t, strptime s = Ok t /\ Birthday_init s = Ok (mkField t))
  \/ Birthday_init s = Raise birthday_invalid.
Proof.
  unfold Birthday_init. destruct (strptime s) as [t|e] eqn:E.
  - left. now exists t.
  - right. apply strptime_raises in E. destruct E as [msg ->]. reflexivity.
Qed.

Lemma digit_val_range (c : ascii) : is_digit c = true -> 0 <= digit_val c <= 9.
Proof. intros H. bool_arith. Qed.

Lemma short_number_py_int (b : bool) (g : string) (v : Z) :
  short_number b g v -> py_int g = v.
Proof.
  intros [a c Ha Hc | a Ha | a _ Ha].
  - now apply py_int_two.
  - now apply py_int_one.
  - now apply py_int_space.
Qed.

Lemma four_digits_py_int (g : string) (v : Z) : four_digits g v -> py_int g = v.
Proof. intros [a b c d H]. now apply py_int_four. Qed.

Lemma re_dot_dot (r : string) : re_dot (String "." r) = [r].
Proof. reflexivity. Qed.

(** The first match of the day group when a dot follows. *)
Lemma re_d_head (ds : string) (d : Z) (r : string) :
  short_number true ds d -> 1 <= d <= 31 ->
  exists l, re_d (ds ++ String "." r) = (ds, String "." r) :: l.
Proof.
  intros [a b Ha Hb | a Ha | a _ Ha] Hd; unfold re_d, alt2, alt1; cbn [append].
  - destruct (is_char "3" a && in_range 0 1 b) eqn:E1;
      [eexists; reflexivity|].
    destruct (in_range 1 2 a && is_digit b) eqn:E2; [eexists; reflexivity|].
    destruct (is_char "0" a && in_range 1 9 b) eqn:E3; [eexists; reflexivity|].
    exfalso. bool_arith.
  - assert (Hq : forall p, p a && in_range 0 1 "." = false)
      by (intros p; apply andb_false_r).
    rewrite !Hq.
    replace (in_range 1 2 a && is_digit ".") with false
      by (symmetry; apply andb_false_r).
    replace (is_char "0" a && in_range 1 9 ".") with false
      by (symmetry; apply andb_false_r).
    destruct (in_range 1 9 a) eqn:E; [eexists; reflexivity|].
    exfalso. bool_arith.
  - change (is_char "3" " ") with false. change (in_range 1 2 " ") with false.
    change (is_char "0" " ") with false. change (in_range 1 9 " ") with false.
    change (is_char " " " ") with true. cbn [andb app].
    destruct (in_range 1 9 a) eqn:E; [eexists; reflexivity|].
    exfalso. bool_arith.
Qed.

(** The first match of the month group when a dot follows. *)
Lemma re_m_head (ms : string) (m : Z) (r : string) :
  short_number false ms m -> 1 <= m <= 12 ->
  exists l, re_m (ms ++ String "." r) = (ms, String "." r) :: l.
Proof.
  intros [a b Ha Hb | a Ha | a Hf _] Hm; [| |discriminate];
    unfold re_m, alt2, alt1; cbn [append].
  - destruct (is_char "1" a && in_range 0 2 b) eqn:E1;
      [eexists; reflexivity|].
    destruct (is_char "0" a && in_range 1 9 b) eqn:E2; [eexists; reflexivity|].
    exfalso. bool_arith.
  - replace (is_char "1" a && in_range 0 2 ".") with false
      by (symmetry; apply andb_false_r).
    replace (is_char "0" a && in_range 1 9 ".") with false
      by (symmetry; apply andb_false_r).
    destruct (in_range 1 9 a) eqn:E; [eexists; reflexivity|].
    exfalso. bool_arith.
Qed.

Lemma re_Y_all (ys : string) (y : Z) :
  four_digits ys y -> re_Y ys = [(ys, "")].
Proof.
  intros [a b c d H]. unfold re_Y.
  cbn [forallb] in H. rewrite !andb_true_iff in H.
  destruct H as (-> & -> & -> & -> & _). reflexivity.
Qed.

Lemma re_birthday_head (s : string) (y m d : Z) :
  lenient_format s y m d -> 1 <= d <= 31 -> 1 <= m <= 12 ->
  exists ds ms ys l,
    re_birthday s = (ds, ms, ys, "") :: l
    /\ py_int ds = d /\ py_int ms = m /\ py_int ys = y.
Proof.
  intros (ds & ms & ys & -> & Hds & Hms & Hys) Hd Hm.
  exists ds, ms, ys.
  change ("." ++ ms ++ "." ++ ys) with (String "." (ms ++ String "." ys)).
  destruct (re_d_head ds d (ms ++ String "." ys) Hds Hd) as [l1 E1].
  destruct (re_m_head ms m ys Hms Hm) as [l2 E2].
  unfold re_birthday. rewrite E1. cbn [flat_map].
  rewrite re_dot_dot. cbn [flat_map]. rewrite E2. cbn [flat_map].
  rewrite re_dot_dot. cbn [flat_map]. rewrite (re_Y_all ys y Hys).
  cbn [map app]. eexists. split; [reflexivity|].
  repeat split;
    [ now apply short_number_py_int with true
    | now apply short_number_py_int with false
    | now apply four_digits_py_int ].
Qed.

Lemma days_in_month_le (y m : Z) : days_in_month y m <= 31.
Proof.
  unfold days_in_month, DAYS_IN_MONTH.
  destruct ((m =? 2) && is_leap y); [lia|].
  destruct m as [|p|p]; try lia.
  do 4 (destruct p as [p|p|]; try lia).
Qed.

(** [strptime] succeeds on every day.month.year, as it reads it, of a real
    date. *)
Lemma strptime_complete (s : string) (y m d : Z) :
  lenient_format s y m d -> real_date y m d ->
  strptime s = Ok (mkDatetime y m d 0 0 0 0).
Proof.
  intros Hs Hr. pose proof Hr as (Hy & Hm & Hd).
  pose proof (days_in_month_le y m) as Hle.
  destruct (re_birthday_head s y m d Hs ltac:(lia) Hm)
    as (ds & ms & ys & l & E & Ed & Em & Ey).
  unfold strptime. rewrite E, Ed, Em, Ey.
  apply check_date_fields_real in Hr. now rewrite Hr.
Qed.

Lemma strict_lenient (s : string) (y m d : Z) :
  strict_format s y m d -> lenient_format s y m d.
Proof.
  intros (d1 & d2 & m1 & m2 & y1 & y2 & y3 & y4 & -> & Hdig & -> & -> & ->).
  cbn [forallb] in Hdig. rewrite !andb_true_iff in Hdig.
  destruct Hdig as (H1 & H2 & H3 & H4 & H5 & H6 & H7 & H8 & _).
  exists (String d1 (String d2 "")), (String m1 (String m2 "")),
    (String y1 (String y2 (String y3 (String y4 "")))).
  split; [reflexivity|]. split; [|split].
  - now apply sn_two.
  - now apply sn_two.
  - apply fd. cbn [forallb]. now rewrite H5, H6, H7, H8.
Qed.

Lemma pad2_digits (a b : ascii) :
  is_digit a = true -> is_digit b = true ->
  pad2 (10 * digit_val a + digit_val b) = String a (String b "").
Proof.
  intros Ha Hb. apply digit_val_range in Ha, Hb. unfold pad2.
  replace ((10 * digit_val a + digit_val b) / 10 mod 10) with (digit_val a)
    by (Z.div_mod_to_equations; lia).
  replace ((10 * digit_val a + digit_val b) mod 10) with (digit_val b)
    by (Z.div_mod_to_equations; lia).
  now rewrite !code_digit_char.
Qed.

Lemma pad4_digits (a b c d : ascii) :
  forallb is_digit [a; b; c; d] = true ->
  pad4 (1000 * digit_val a + 100 * digit_val b + 10 * digit_val c + digit_val d)
  = String a (String b (String c (String d ""))).
Proof.
  cbn [forallb]. rewrite !andb_true_iff. intros (Ha & Hb & Hc & Hd & _).
  apply digit_val_range in Ha, Hb, Hc, Hd. unfold pad4, pad2.
  set (n := 1000 * digit_val a + 100 * digit_val b + 10 * digit_val c
            + digit_val d).
  replace (n / 1000 mod 10) with (digit_val a)
    by (subst n; Z.div_mod_to_equations; lia).
  replace (n / 100 mod 10) with (digit_val b)
    by (subst n; Z.div_mod_to_equations; lia).
  replace (n / 10 mod 10) with (digit_val c)
    by (subst n; Z.div_mod_to_equations; lia).
  replace (n mod 10) with (digit_val d)
    by (subst n; Z.div_mod_to_equations; lia).
  now rewrite !code_digit_char.
Qed.

Lemma year_text_four (pad_year : bool) (y : Z) :
  1000 <= y \/ pad_year = true -> year_text pad_year y = pad4 y.
Proof.
  intros H. unfold year_text.
  destruct (1000 <=? y) eqn:E; [reflexivity|].
  destruct H as [H | ->]; [|reflexivity].
  apply Z.leb_gt in E. lia.
Qed.

Lemma strftime_strict (pad_year : bool) (s : string) (y m d : Z) :
  strict_format s y m d -> 1000 <= y \/ pad_year = true ->
  strftime pad_year (mkDatetime y m d 0 0 0 0) = s.
Proof.
  intros (d1 & d2 & m1 & m2 & y1 & y2 & y3 & y4 & -> & Hdig & -> & -> & ->) Hy.
  cbn [forallb] in Hdig. rewrite !andb_true_iff in Hdig.
  destruct Hdig as (H1 & H2 & H3 & H4 & H5 & H6 & H7 & H8 & _).
  unfold strftime. cbn [day month year].
  rewrite (year_text_four _ _ Hy).
  rewrite !pad2_digits by assumption.
  rewrite pad4_digits by (cbn [forallb]; now rewrite H5, H6, H7, H8).
  reflexivity.
Qed.

(** ** The validators on all strings *)

Ltac code_arith := unfold between in *; bool_arith.

Lemma code_range (c : ascii) : 0 <= code c < 256.
Proof.
  unfold code. pose proof (N_ascii_bounded c) as H. lia.
Qed.

Lemma codes_app (s t : string) : codes (s ++ t) = (codes s ++ codes t)%list.
Proof.
  induction s as [|c s IH]; [reflexivity|].
  cbn [append codes app]. now rewrite IH.
Qed.

Lemma codes_inj (s t : string) : codes s = codes t -> s = t.
Proof.
  revert t. induction s as [|c s IH]; intros [|c' t]; cbn [codes];
    try discriminate; [reflexivity|].
  intros [= Hc Hs]. now rewrite (code_inj _ _ Hc), (IH _ Hs).
Qed.

Lemma codes_length (s : string) : List.length (codes s) = String.length s.
Proof.
  induction s as [|c s IH]; [reflexivity|]. cbn [codes List.length String.length].
  now rewrite IH.
Qed.

Lemma codes_app_inv (s : string) (a b : text) :
  codes s = (a ++ b)%list ->
  exists s1 s2, s = s1 ++ s2 /\ codes s1 = a /\ codes s2 = b.
Proof.
  revert s. induction a as [|x a IH]; intros s H.
  - now exists "", s.
  - destruct s as [|c s]; [discriminate|]. cbn [codes app] in H.
    injection H as Hc Hs. destruct (IH s Hs) as (s1 & s2 & -> & <- & <-).
    exists (String c s1), s2. cbn [codes append]. now rewrite Hc.
Qed.

Lemma codes_one (s : string) (x : Z) :
  codes s = [x] -> exists c, s = String c "" /\ code c = x.
Proof.
  destruct s as [|c [|c' s]]; try discriminate. intros [= H]. now exists c.
Qed.

Lemma codes_two (s : string) (x y : Z) :
  codes s = [x; y] ->
  exists c e, s = String c (String e "") /\ code c = x /\ code e = y.
Proof.
  destruct s as [|c [|e [|e' s]]]; try discriminate. intros [= H1 H2].
  now exists c, e.
Qed.

Section Unicode_facts.

Variable zeros : list Z.

Lemma decimal_ascii (c : Z) :
  between 48 57 c = true -> decimal zeros c = Some (c - 48).
Proof.
  intros H. unfold decimal. rewrite H.
  replace (c <? 256) with true; [reflexivity|].
  symmetry. apply Z.ltb_lt. code_arith.
Qed.

Lemma decimal_range (c v : Z) : decimal zeros c = Some v -> 0 <= v <= 9.
Proof.
  unfold decimal. destruct (c <? 256).
  - destruct (between 48 57 c) eqn:E; [|discriminate].
    intros [= <-]. code_arith.
  - destruct (find _ zeros) as [z|] eqn:E; [|discriminate].
    intros [= <-]. apply find_some in E. destruct E as [_ E]. code_arith.
Qed.

(** Below 256 the decimal digits are the digits 0 to 9. *)
Lemma decimal_latin1 (c : ascii) :
  decimal zeros (code c) = if is_digit c then Some (digit_val c) else None.
Proof.
  unfold decimal, is_digit, between, digit_val.
  replace (code c <? 256) with true; [reflexivity|].
  symmetry. apply Z.ltb_lt. apply code_range.
Qed.

Lemma is_decimal_latin1 (c : ascii) : is_decimal zeros (code c) = is_digit c.
Proof.
  unfold is_decimal. rewrite decimal_latin1. now destruct (is_digit c).
Qed.

Lemma is_decimal_value (c : Z) :
  is_decimal zeros c = true <-> exists v, decimal zeros c = Some v.
Proof.
  unfold is_decimal. destruct (decimal zeros c) as [v|].
  - split; [intros _; now exists v | reflexivity].
  - split; [discriminate | intros [v H]; discriminate].
Qed.

Lemma fullmatch_digits_unicode_spec (n : nat) (s : text) :
  fullmatch_digits_unicode zeros n s = true <-> decimal_digits zeros n s.
Proof.
  unfold decimal_digits.
  revert s; induction n as [|n IH]; intros [|c r];
    cbn [fullmatch_digits_unicode List.length forallb].
  - tauto.
  - split; [discriminate | intros [H _]; discriminate].
  - split; [discriminate | intros [H _]; discriminate].
  - rewrite !andb_true_iff, IH. split.
    + intros [Hc [Hl Hr]]. now rewrite Hl.
    + intros [Hl Hr]. injection Hl as Hl. tauto.
Qed.

Lemma decimal_digits_dec (n : nat) (s : text) :
  decimal_digits zeros n s \/ ~ decimal_digits zeros n s.
Proof.
  destruct (fullmatch_digits_unicode zeros n s) eqn:E.
  - left. now apply fullmatch_digits_unicode_spec.
  - right. intros H. apply fullmatch_digits_unicode_spec in H. congruence.
Qed.

Lemma Phone_init_unicode_valid (p : text) :
  decimal_digits zeros 10 p -> Phone_init_unicode zeros p = Ok (mkField p).
Proof.
  intros H. unfold Phone_init_unicode.
  apply fullmatch_digits_unicode_spec in H. now rewrite H.
Qed.

Lemma Phone_init_unicode_invalid (p : text) :
  ~ decimal_digits zeros 10 p -> Phone_init_unicode zeros p = Raise phone_invalid.
Proof.
  intros H. unfold Phone_init_unicode.
  destruct (fullmatch_digits_unicode zeros 10 p) eqn:E; [|reflexivity].
  exfalso. apply H. now apply fullmatch_digits_unicode_spec.
Qed.

Lemma fullmatch_digits_latin1 (n : nat) (s : string) :
  fullmatch_digits_unicode zeros n (codes s) = fullmatch_digits n s.
Proof.
  revert s; induction n as [|n IH]; intros [|c r];
    cbn [codes fullmatch_digits_unicode fullmatch_digits]; try reflexivity.
  now rewrite is_decimal_latin1, IH.
Qed.

(** A string of ten of the digits 0 to 9 is a string of ten decimal
    digits. *)
Lemma ten_digits_decimal (p : string) :
  ten_digits p <-> decimal_digits zeros 10 (codes p).
Proof.
  rewrite <- fullmatch_digits_unicode_spec, fullmatch_digits_latin1.
  symmetry. apply fullmatch_digits_spec.
Qed.

(** On a string of code points below 256, [Phone] on all strings is the
    [Phone] of the handlers. *)
Lemma Phone_init_latin1 (s : string) :
  Phone_init_unicode zeros (codes s)
  = match Phone_init s with
    | Ok p => Ok (mkField (codes (value p)))
    | Raise e => Raise e
    end.
Proof.
  unfold Phone_init_unicode, Phone_init. rewrite fullmatch_digits_latin1.
  now destruct (fullmatch_digits 10 s).
Qed.

Hypothesis Hzeros : table_ok zeros = true.

Lemma decimal_not_space (c v : Z) :
  decimal zeros c = Some v -> is_int_space c = false.
Proof.
  intros H. destruct (is_int_space c) eqn:E; [exfalso | reflexivity].
  unfold is_int_space in E. apply existsb_exists in E.
  destruct E as (w & Hw & Ew). apply Z.eqb_eq in Ew. subst w.
  unfold decimal in H. destruct (c <? 256) eqn:E256.
  - destruct (between 48 57 c) eqn:Eb; [|discriminate].
    unfold INT_SPACE in Hw. cbn [In] in Hw. code_arith.
  - destruct (find _ zeros) as [z|] eqn:Ef; [|discriminate].
    apply find_some in Ef. destruct Ef as [Hz Hb].
    unfold table_ok in Hzeros.
    rewrite forallb_forall in Hzeros. specialize (Hzeros z Hz).
    apply andb_true_iff in Hzeros. destruct Hzeros as [_ Hs].
    rewrite forallb_forall in Hs. specialize (Hs c Hw).
    rewrite Hb in Hs. discriminate.
Qed.

Lemma rstrip_int_digits (s : text) :
  forallb (is_decimal zeros) s = true -> rstrip_int s = s.
Proof.
  induction s as [|c r IH]; cbn [forallb rstrip_int]; [reflexivity|].
  intros H. apply andb_true_iff in H. destruct H as [Hc Hr].
  rewrite (IH Hr). destruct r; [|reflexivity].
  apply is_decimal_value in Hc. destruct Hc as [v Hc].
  now rewrite (decimal_not_space c v Hc).
Qed.

Lemma strip_int_digits (s : text) :
  forallb (is_decimal zeros) s = true -> rstrip_int (lstrip_int s) = s.
Proof.
  intros H. destruct s as [|c r]; [reflexivity|].
  pose proof H as H'. cbn [forallb] in H'. apply andb_true_iff in H'.
  destruct H' as [Hc _]. apply is_decimal_value in Hc. destruct Hc as [v Hc].
  cbn [lstrip_int]. rewrite (decimal_not_space c v Hc).
  now apply rstrip_int_digits.
Qed.

Lemma int_unicode_one (a va : Z) :
  decimal zeros a = Some va -> int_unicode zeros [a] = Ok va.
Proof.
  intros Ha. unfold int_unicode. rewrite strip_int_digits.
  - cbn [int_digits_unicode]. rewrite Ha. f_equal; lia.
  - cbn [forallb]. unfold is_decimal. now rewrite Ha.
Qed.

Lemma int_unicode_two (a b va vb : Z) :
  decimal zeros a = Some va -> decimal zeros b = Some vb ->
  int_unicode zeros [a; b] = Ok (10 * va + vb).
Proof.
  intros Ha Hb. unfold int_unicode. rewrite strip_int_digits.
  - cbn [int_digits_unicode]. rewrite Ha, Hb. f_equal; lia.
  - cbn [forallb]. unfold is_decimal. now rewrite Ha, Hb.
Qed.

Lemma int_unicode_space (a va : Z) :
  decimal zeros a = Some va -> int_unicode zeros [32; a] = Ok va.
Proof.
  intros Ha. rewrite <- (int_unicode_one a va Ha). reflexivity.
Qed.

Lemma int_unicode_four (a b c d va vb vc vd : Z) :
  decimal zeros a = Some va -> decimal zeros b = Some vb ->
  decimal zeros c = Some vc -> decimal zeros d = Some vd ->
  int_unicode zeros [a; b; c; d]
  = Ok (1000 * va + 100 * vb + 10 * vc + vd).
Proof.
  intros Ha Hb Hc Hd. unfold int_unicode. rewrite strip_int_digits.
  - cbn [int_digits_unicode]. rewrite Ha, Hb, Hc, Hd. f_equal; lia.
  - cbn [forallb]. unfold is_decimal. now rewrite Ha, Hb, Hc, Hd.
Qed.

Lemma day_text_int (g : text) (v : Z) :
  day_text zeros g v -> int_unicode zeros g = Ok v.
Proof.
  intros [a b vb Ha Hb _ | a Ha | a Ha].
  - apply int_unicode_two; [now apply decimal_ascii | exact Hb].
  - apply int_unicode_one. now apply decimal_ascii.
  - apply int_unicode_space. now apply decimal_ascii.
Qed.

Lemma month_text_int (g : text) (v : Z) :
  month_text g v -> int_unicode zeros g = Ok v.
Proof.
  intros [a b Ha Hb | a Ha].
  - apply int_unicode_two; now apply decimal_ascii.
  - apply int_unicode_one. now apply decimal_ascii.
Qed.

Lemma year_digits_int (g : text) (v : Z) :
  year_digits zeros g v -> int_unicode zeros g = Ok v.
Proof. intros [a b c d va vb vc vd Ha Hb Hc Hd]. now apply int_unicode_four. Qed.

Lemma alt1_unicode_In (p : Z -> bool) (s g r : text) :
  In (g, r) (alt1_unicode p s) ->
  exists a, s = a :: r /\ g = [a] /\ p a = true.
Proof.
  unfold alt1_unicode. destruct s as [|a s]; [intros []|].
  destruct (p a) eqn:E; [|intros []].
  intros [[= <- <-] | []]. now exists a.
Qed.

Lemma alt2_unicode_In (p q : Z -> bool) (s g r : text) :
  In (g, r) (alt2_unicode p q s) ->
  exists a b, s = a :: b :: r /\ g = [a; b] /\ p a = true /\ q b = true.
Proof.
  unfold alt2_unicode. destruct s as [|a [|b s]]; try (intros []).
  destruct (p a && q b) eqn:E; [|intros []].
  apply andb_true_iff in E. destruct E.
  intros [[= <- <-] | []]. now exists a, b.
Qed.

Lemma re_dot_unicode_In (s r : text) :
  In r (re_dot_unicode s) -> s = 46 :: r.
Proof.
  unfold re_dot_unicode. destruct s as [|a s]; [intros []|].
  destruct (a =? 46) eqn:E; [|intros []].
  intros [<- | []]. apply Z.eqb_eq in E. now subst a.
Qed.

Lemma re_d_unicode_In (s g r : text) :
  In (g, r) (re_d_unicode zeros s) ->
  s = (g ++ r)%list /\ exists v, day_text zeros g v.
Proof.
  unfold re_d_unicode. rewrite !in_app_iff.
  intros [H | [H | [H | [H | H]]]].
  - apply alt2_unicode_In in H. destruct H as (a & b & -> & -> & Ha & Hb).
    split; [reflexivity|]. eexists.
    apply day_two; [code_arith | apply decimal_ascii; code_arith
                   | right; code_arith].
  - apply alt2_unicode_In in H. destruct H as (a & b & -> & -> & Ha & Hb).
    split; [reflexivity|]. apply is_decimal_value in Hb. destruct Hb as [v Hb].
    exists (10 * (a - 48) + v).
    apply day_two; [code_arith | exact Hb | now left].
  - apply alt2_unicode_In in H. destruct H as (a & b & -> & -> & Ha & Hb).
    split; [reflexivity|]. eexists.
    apply day_two; [code_arith | apply decimal_ascii; code_arith
                   | right; code_arith].
  - apply alt1_unicode_In in H. destruct H as (a & -> & -> & Ha).
    split; [reflexivity|]. eexists. apply day_one. code_arith.
  - apply alt2_unicode_In in H. destruct H as (a & b & -> & -> & Ha & Hb).
    apply Z.eqb_eq in Ha. subst a.
    split; [reflexivity|]. eexists. apply day_space. code_arith.
Qed.

Lemma re_m_unicode_In (s g r : text) :
  In (g, r) (re_m_unicode s) ->
  s = (g ++ r)%list /\ exists v, month_text g v.
Proof.
  unfold re_m_unicode. rewrite !in_app_iff.
  intros [H | [H | H]].
  - apply alt2_unicode_In in H. destruct H as (a & b & -> & -> & Ha & Hb).
    split; [reflexivity|]. eexists. apply month_two; code_arith.
  - apply alt2_unicode_In in H. destruct H as (a & b & -> & -> & Ha & Hb).
    split; [reflexivity|]. eexists. apply month_two; code_arith.
  - apply alt1_unicode_In in H. destruct H as (a & -> & -> & Ha).
    split; [reflexivity|]. eexists. apply month_one. code_arith.
Qed.

Lemma re_Y_unicode_In (s g r : text) :
  In (g, r) (re_Y_unicode zeros s) ->
  s = (g ++ r)%list /\ exists v, year_digits zeros g v.
Proof.
  unfold re_Y_unicode. destruct s as [|a [|b [|c [|d s]]]]; try (intros []).
  destruct (is_decimal zeros a && is_decimal zeros b && is_decimal zeros c
            && is_decimal zeros d) eqn:E; [|intros []].
  intros [[= <- <-] | []]. split; [reflexivity|].
  rewrite !andb_true_iff in E. destruct E as [[[Ha Hb] Hc] Hd].
  apply is_decimal_value in Ha, Hb, Hc, Hd.
  destruct Ha as [va Ha], Hb as [vb Hb], Hc as [vc Hc], Hd as [vd Hd].
  eexists. now apply (year_four zeros a b c d va vb vc vd).
Qed.

Lemma re_birthday_unicode_In (s d m y rest : text) :
  In (d, m, y, rest) (re_birthday_unicode zeros s) ->
  s = (d ++ [46] ++ m ++ [46] ++ y ++ rest)%list
  /\ exists vd vm vy,
       day_text zeros d vd /\ month_text m vm /\ year_digits zeros y vy.
Proof.
  unfold re_birthday_unicode. intros H.
  apply in_flat_map in H. destruct H as ([d' r1] & Hd & H).
  apply in_flat_map in H. destruct H as (r2 & H1 & H).
  apply in_flat_map in H. destruct H as ([m' r3] & Hm & H).
  apply in_flat_map in H. destruct H as (r4 & H2 & H).
  apply in_map_iff in H. destruct H as ([y' r5] & [= <- <- <- <-] & Hy).
  apply re_d_unicode_In in Hd. destruct Hd as [-> [vd Hd]].
  apply re_dot_unicode_In in H1. subst r1.
  apply re_m_unicode_In in Hm. destruct Hm as [-> [vm Hm]].
  apply re_dot_unicode_In in H2. subst r3.
  apply re_Y_unicode_In in Hy. destruct Hy as [-> [vy Hy]].
  split; [reflexivity|]. now exists vd, vm, vy.
Qed.

(** [strptime] succeeds only on day.month.year as it reads it, for a real
    date, and gives that date at midnight. *)
Lemma strptime_unicode_sound (s : text) (t : datetime) :
  strptime_unicode zeros s = Ok t ->
  exists y m d, lenient_format_unicode zeros s y m d /\ real_date y m d
                /\ t = mkDatetime y m d 0 0 0 0.
Proof.
  unfold strptime_unicode.
  destruct (re_birthday_unicode zeros s) as [|[[[ds ms] ys] rest] l] eqn:E;
    [discriminate|].
  assert (Hin : In (ds, ms, ys, rest) (re_birthday_unicode zeros s))
    by (rewrite E; now left).
  apply re_birthday_unicode_In in Hin.
  destruct Hin as (Hs & vd & vm & vy & Hd & Hm & Hy).
  destruct rest; [|discriminate].
  rewrite (day_text_int _ _ Hd), (month_text_int _ _ Hm),
    (year_digits_int _ _ Hy). cbn [rbind].
  destruct (check_date_fields vy vm vd) as [[]|e] eqn:Ec; cbn [rbind];
    [|discriminate].
  intros [= <-]. apply check_date_fields_real in Ec.
  exists vy, vm, vd. split; [|split; [exact Ec | reflexivity]].
  exists ds, ms, ys. rewrite Hs, app_nil_r. now repeat split.
Qed.

Lemma strptime_unicode_raises (s : text) (e : exn) :
  strptime_unicode zeros s = Raise e -> exists msg, e = ValueError msg.
Proof.
  unfold strptime_unicode.
  destruct (re_birthday_unicode zeros s) as [|[[[ds ms] ys] rest] l] eqn:E;
    [intros [= <-]; eauto|].
  assert (Hin : In (ds, ms, ys, rest) (re_birthday_unicode zeros s))
    by (rewrite E; now left).
  apply re_birthday_unicode_In in Hin.
  destruct Hin as (Hs & vd & vm & vy & Hd & Hm & Hy).
  destruct rest; [|intros [= <-]; eauto].
  rewrite (day_text_int _ _ Hd), (month_text_int _ _ Hm),
    (year_digits_int _ _ Hy). cbn [rbind].
  destruct (check_date_fields vy vm vd) as [[]|e'] eqn:Ec; cbn [rbind];
    [discriminate|].
  intros [= <-]. now apply check_date_fields_raises in Ec.
Qed.

Lemma Birthday_init_unicode_cases (s : text) :
  (exists t, strptime_unicode zeros s = Ok t
             /\ Birthday_init_unicode zeros s = Ok (mkField t))
  \/ Birthday_init_unicode zeros s = Raise birthday_invalid.
Proof.
  unfold Birthday_init_unicode.
  destruct (strptime_unicode zeros s) as [t|e] eqn:E.
  - left. now exists t.
  - right. apply strptime_unicode_raises in E. destruct E as [msg ->].
    reflexivity.
Qed.

(** The first match of the day group when a dot follows. *)
Lemma re_d_unicode_head (ds : text) (d : Z) (r : text) :
  day_text zeros ds d -> 1 <= d <= 31 ->
  exists l, re_d_unicode zeros (ds ++ 46 :: r)%list = (ds, 46 :: r) :: l.
Proof.
  intros [a b v Ha Hb Hab | a Ha | a Ha] Hd;
    unfold re_d_unicode, alt2_unicode, alt1_unicode; cbn [app].
  - pose proof (decimal_range b v Hb) as Hv.
    assert (Hb' : between 48 57 b = true -> v = b - 48).
    { intros H. rewrite (decimal_ascii b H) in Hb. now injection Hb. }
    assert (Hdec : is_decimal zeros b = true)
      by (apply is_decimal_value; now exists v).
    rewrite Hdec.
    destruct ((51 =? a) && between 48 49 b) eqn:E1; [eexists; reflexivity|].
    destruct (between 49 50 a && true) eqn:E2; [eexists; reflexivity|].
    destruct ((48 =? a) && between 49 57 b) eqn:E3; [eexists; reflexivity|].
    exfalso. rewrite andb_true_r in E2.
    destruct Hab as [Hab | Hab]; [congruence|].
    specialize (Hb' Hab). code_arith.
  - assert (E46 : is_decimal zeros 46 = false) by reflexivity.
    rewrite E46. change (between 48 49 46) with false.
    change (between 49 57 46) with false. rewrite !andb_false_r. cbn [app].
    destruct (between 49 57 a) eqn:E; [eexists; reflexivity|].
    exfalso. code_arith.
  - change (51 =? 32) with false. change (between 49 50 32) with false.
    change (48 =? 32) with false. change (between 49 57 32) with false.
    change (32 =? 32) with true. cbn [andb app].
    destruct (between 49 57 a) eqn:E; [eexists; reflexivity|].
    exfalso. code_arith.
Qed.

(** The first match of the month group when a dot follows. *)
Lemma re_m_unicode_head (ms : text) (m : Z) (r : text) :
  month_text ms m -> 1 <= m <= 12 ->
  exists l, re_m_unicode (ms ++ 46 :: r)%list = (ms, 46 :: r) :: l.
Proof.
  intros [a b Ha Hb | a Ha] Hm;
    unfold re_m_unicode, alt2_unicode, alt1_unicode; cbn [app].
  - destruct ((49 =? a) && between 48 50 b) eqn:E1; [eexists; reflexivity|].
    destruct ((48 =? a) && between 49 57 b) eqn:E2; [eexists; reflexivity|].
    exfalso. code_arith.
  - change (between 48 50 46) with false. change (between 49 57 46) with false.
    rewrite !andb_false_r. cbn [app].
    destruct (between 49 57 a) eqn:E; [eexists; reflexivity|].
    exfalso. code_arith.
Qed.

Lemma re_Y_unicode_all (ys : text) (y : Z) :
  year_digits zeros ys y -> re_Y_unicode zeros ys = [(ys, [])].
Proof.
  intros [a b c d va vb vc vd Ha Hb Hc Hd]. unfold re_Y_unicode, is_decimal.
  now rewrite Ha, Hb, Hc, Hd.
Qed.

Lemma re_birthday_unicode_head (s : text) (y m d : Z) :
  lenient_format_unicode zeros s y m d -> 1 <= d <= 31 -> 1 <= m <= 12 ->
  exists ds ms ys l,
    re_birthday_unicode zeros s = (ds, ms, ys, []) :: l
    /\ int_unicode zeros ds = Ok d /\ int_unicode zeros ms = Ok m
    /\ int_unicode zeros ys = Ok y.
Proof.
  intros (ds & ms & ys & -> & Hds & Hms & Hys) Hd Hm.
  exists ds, ms, ys.
  change ([46] ++ ms ++ [46] ++ ys)%list with (46 :: (ms ++ 46 :: ys))%list.
  destruct (re_d_unicode_head ds d (ms ++ 46 :: ys)%list Hds Hd) as [l1 E1].
  destruct (re_m_unicode_head ms m ys Hms Hm) as [l2 E2].
  unfold re_birthday_unicode. rewrite E1. cbn [flat_map].
  cbn [re_dot_unicode]. change (46 =? 46) with true. cbn [flat_map].
  rewrite E2. cbn [flat_map app].
  cbn [re_dot_unicode]. change (46 =? 46) with true. cbn [flat_map].
  rewrite (re_Y_unicode_all ys y Hys).
  cbn [map app]. eexists. split; [reflexivity|].
  repeat split;
    [ now apply day_text_int | now apply month_text_int
    | now apply year_digits_int ].
Qed.

(** [strptime] succeeds on every day.month.year, as it reads it, of a real
    date. *)
Lemma strptime_unicode_complete (s : text) (y m d : Z) :
  lenient_format_unicode zeros s y m d -> real_date y m d ->
  strptime_unicode zeros s = Ok (mkDatetime y m d 0 0 0 0).
Proof.
  intros Hs Hr. pose proof Hr as (Hy & Hm & Hd).
  pose proof (days_in_month_le y m) as Hle.
  destruct (re_birthday_unicode_head s y m d Hs ltac:(lia) Hm)
    as (ds & ms & ys & l & E & Ed & Em & Ey).
  unfold strptime_unicode. rewrite E, Ed, Em, Ey. cbn [rbind].
  apply check_date_fields_real in Hr. now rewrite Hr.
Qed.

(** The strings of code points below 256 that [strptime] reads are those
    of the embedding of the handlers. *)
Lemma lenient_format_latin1 (s : string) (y m d : Z) :
  lenient_format s y m d -> lenient_format_unicode zeros (codes s) y m d.
Proof.
  intros (ds & ms & ys & -> & Hd & Hm & Hy).
  exists (codes ds), (codes ms), (codes ys). split; [|split; [|split]].
  - now rewrite !codes_app.
  - destruct Hd as [a b Ha Hb | a Ha | a _ Ha]; cbn [codes].
    + replace (digit_val b) with (code b - 48) by reflexivity.
      unfold digit_val at 1. apply day_two.
      * unfold is_digit in Ha. exact Ha.
      * apply decimal_ascii. exact Hb.
      * right. exact Hb.
    + apply day_one. exact Ha.
    + apply day_space. exact Ha.
  - destruct Hm as [a b Ha Hb | a Ha | a Hf _]; [| |discriminate];
      cbn [codes].
    + apply month_two; [exact Ha | exact Hb].
    + apply month_one. exact Ha.
  - destruct Hy as [a b c e H]. cbn [codes].
    cbn [forallb] in H. rewrite !andb_true_iff in H.
    destruct H as (Ha & Hb & Hc & He & _).
    apply year_four; apply decimal_ascii; assumption.
Qed.

Lemma decimal_latin1_inv (c : ascii) (v : Z) :
  decimal zeros (code c) = Some v -> is_digit c = true /\ v = digit_val c.
Proof.
  rewrite decimal_latin1. destruct (is_digit c); [|discriminate].
  intros [= <-]. now split.
Qed.

Lemma lenient_format_latin1_inv (s : string) (y m d : Z) :
  lenient_format_unicode zeros (codes s) y m d -> lenient_format s y m d.
Proof.
  intros (ds & ms & ys & Hs & Hd & Hm & Hy).
  apply codes_app_inv in Hs. destruct Hs as (sd & s1 & -> & Ed & Hs).
  apply codes_app_inv in Hs. destruct Hs as (p1 & s2 & -> & E1 & Hs).
  apply codes_app_inv in Hs. destruct Hs as (sm & s3 & -> & Em & Hs).
  apply codes_app_inv in Hs. destruct Hs as (p2 & sy & -> & E2 & Ey).
  apply codes_one in E1, E2.
  destruct E1 as (c1 & -> & H1), E2 as (c2 & -> & H2).
  change 46 with (code ".") in H1, H2. apply code_inj in H1, H2. subst c1 c2.
  exists sd, sm, sy. split; [reflexivity|]. subst ds ms ys.
  split; [|split].
  - inversion Hd as [a b v Ha Hb Hab E | a Ha E | a Ha E]; subst.
    + symmetry in E. apply codes_two in E.
      destruct E as (c & e & -> & <- & <-).
      apply decimal_latin1_inv in Hb. destruct Hb as [Hb ->].
      now apply sn_two.
    + symmetry in E. apply codes_one in E. destruct E as (c & -> & <-).
      now apply sn_one.
    + symmetry in E. apply codes_two in E.
      destruct E as (c & e & -> & Hc & <-).
      change 32 with (code " ") in Hc. apply code_inj in Hc. subst c.
      now apply sn_space.
  - inversion Hm as [a b Ha Hb E | a Ha E]; subst.
    + symmetry in E. apply codes_two in E.
      destruct E as (c & e & -> & <- & <-). now apply sn_two.
    + symmetry in E. apply codes_one in E. destruct E as (c & -> & <-).
      now apply sn_one.
  - inversion Hy as [a b c e va vb vc ve Ha Hb Hc He E]; subst.
    destruct sy as [|a' [|b' [|c' [|e' [|x sy]]]]]; try discriminate.
    cbn [codes] in E. injection E as -> -> -> ->.
    apply decimal_latin1_inv in Ha, Hb, Hc, He.
    destruct Ha as [Ha ->], Hb as [Hb ->], Hc as [Hc ->], He as [He ->].
    apply fd. cbn [forallb]. now rewrite Ha, Hb, Hc, He.
Qed.

(** On a string of code points below 256, [Birthday] on all strings is the
    [Birthday] of the handlers. *)
Lemma Birthday_init_latin1 (s : string) :
  Birthday_init_unicode zeros (codes s) = Birthday_init s.
Proof.
  destruct (Birthday_init_cases s) as [(t & Ht & ->) | E].
  - apply strptime_sound in Ht. destruct Ht as (y & m & d & Hl & Hr & ->).
    unfold Birthday_init_unicode.
    now rewrite (strptime_unicode_complete (codes s) y m d
                   (lenient_format_latin1 s y m d Hl) Hr).
  - rewrite E.
    destruct (Birthday_init_unicode_cases (codes s)) as [(t & Ht & _) | E'];
      [|exact E'].
    exfalso. apply strptime_unicode_sound in Ht.
    destruct Ht as (y & m & d & Hl & Hr & _).
    apply lenient_format_latin1_inv in Hl.
    unfold Birthday_init in E.
    rewrite (strptime_complete s y m d Hl Hr) in E. discriminate.
Qed.

End Unicode_facts.

Lemma UNICODE_14_ok : table_ok UNICODE_14 = true.
Proof. reflexivity. Qed.

(** ** The dictionary *)

Lemma dict_get_set_same (k : string) (v : Record_) (d : AddressBook) :
  dict_get k (dict_set k v d) = Some v.
Proof.
  induction d as [|[k' v'] d IH]; simpl.
  - now rewrite String.eqb_refl.
  - destruct (String.eqb k' k) eqn:E; simpl; now rewrite E.
Qed.

Lemma dict_get_set_other (k k' : string) (v : Record_) (d : AddressBook) :
  k <> k' -> dict_get k' (dict_set k v d) = dict_get k' d.
Proof.
  intros Hne. induction d as [|[k0 v0] d IH]; simpl.
  - apply String.eqb_neq in Hne. now rewrite Hne.
  - destruct (String.eqb k0 k) eqn:E; simpl.
    + apply String.eqb_eq in E. subst k0.
      apply String.eqb_neq in Hne. now rewrite Hne.
    + now rewrite IH.
Qed.

Lemma dict_get_None_iff (k : string) (d : AddressBook) :
  dict_get k d = None <-> ~ In k (dict_keys d).
Proof.
  induction d as [|[k' v] d IH]; simpl.
  - tauto.
  - destruct (String.eqb k' k) eqn:E.
    + apply String.eqb_eq in E. split; [discriminate | tauto].
    + apply String.eqb_neq in E. rewrite IH. tauto.
Qed.

Lemma dict_get_In (k : string) (r : Record_) (d : AddressBook) :
  dict_get k d = Some r -> In (k, r) d.
Proof.
  induction d as [|[k' v] d IH]; simpl; [discriminate|].
  destruct (String.eqb k' k) eqn:E.
  - apply String.eqb_eq in E. intros [= ->]. left. now subst.
  - intros H. right. now apply IH.
Qed.

Lemma key_consistent_set (k : string) (v : Record_) (d : AddressBook) :
  key_consistent d -> k = value (name v) -> key_consistent (dict_set k v d).
Proof.
  unfold key_consistent. intros Hd Hk.
  induction Hd as [|[k' v'] d Hx Hd IH]; simpl.
  - constructor; [exact Hk | constructor].
  - destruct (String.eqb k' k) eqn:E.
    + apply String.eqb_eq in E. constructor; [simpl; congruence | exact Hd].
    + constructor; [exact Hx | exact IH].
Qed.

Lemma key_consistent_get (k : string) (r : Record_) (d : AddressBook) :
  key_consistent d -> dict_get k d = Some r -> k = value (name r).
Proof.
  intros Hd Hg. apply dict_get_In in Hg.
  unfold key_consistent in Hd. rewrite Forall_forall in Hd.
  exact (Hd _ Hg).
Qed.

Lemma Field_eq {A : Type} (f g : Field A) : value f = value g -> f = g.
Proof. destruct f, g; simpl; congruence. Qed.

(** ** The calendar: ordinals and the order of dates *)

Ltac month_tables :=
  cbn [DAYS_BEFORE_MONTH DAYS_IN_MONTH Z.eqb Z.ltb Z.leb Z.compare Pos.eqb
       Pos.compare Pos.compare_cont andb orb negb] in *.

Ltac cases_month m :=
  let H := fresh in
  assert (H : m = 1 \/ m = 2 \/ m = 3 \/ m = 4 \/ m = 5 \/ m = 6 \/ m = 7
              \/ m = 8 \/ m = 9 \/ m = 10 \/ m = 11 \/ m = 12) by lia;
  repeat (destruct H as [H | H]); subst m.

Lemma days_before_year_succ (y : Z) :
  days_before_year (y + 1) = days_before_year y + year_days y.
Proof.
  unfold days_before_year, year_days, is_leap.
  replace (y + 1 - 1) with y by lia.
  destruct (y mod 4 =? 0) eqn:E4; destruct (y mod 100 =? 0) eqn:E100;
    destruct (y mod 400 =? 0) eqn:E400; cbn [andb orb negb];
    bool_arith; Z.div_mod_to_equations; lia.
Qed.

Lemma days_before_year_mono (y1 y2 : Z) :
  y1 <= y2 -> days_before_year y1 + 365 * (y2 - y1) <= days_before_year y2.
Proof.
  intros H. pattern y2. apply Zlt_lower_bound_ind with (z := y1); [|exact H].
  intros x IH Hx. destruct (Z.eq_dec x y1) as [-> | Hne]; [lia|].
  specialize (IH (x - 1) ltac:(lia)).
  pose proof (days_before_year_succ (x - 1)) as Hs.
  replace (x - 1 + 1) with x in Hs by lia.
  unfold year_days in Hs. destruct (is_leap (x - 1)); lia.
Qed.

Lemma day_of_year_range (y m d : Z) :
  valid_date y m d -> 1 <= days_before_month y m + d <= year_days y.
Proof.
  intros [Hm Hd]. unfold days_before_month, year_days, days_in_month in *.
  cases_month m; destruct (is_leap y); month_tables; lia.
Qed.

Lemma month_order (y m1 d1 m2 d2 : Z) :
  valid_date y m1 d1 -> valid_date y m2 d2 -> m1 < m2 ->
  days_before_month y m1 + d1 < days_before_month y m2 + d2.
Proof.
  intros [Hm1 Hd1] [Hm2 Hd2] Hlt.
  unfold days_before_month, days_in_month in *.
  destruct (is_leap y); cases_month m1; cases_month m2; month_tables; lia.
Qed.

(** The ordinal is strictly monotone for the order of (year, month, day). *)
Lemma ymd2ord_cmp (y1 m1 d1 y2 m2 d2 : Z) :
  valid_date y1 m1 d1 -> valid_date y2 m2 d2 ->
  cmp_lex [y1; m1; d1] [y2; m2; d2] = (ymd2ord y1 m1 d1 ?= ymd2ord y2 m2 d2).
Proof.
  intros H1 H2. unfold ymd2ord. symmetry.
  pose proof (day_of_year_range _ _ _ H1) as R1.
  pose proof (day_of_year_range _ _ _ H2) as R2.
  cbn [cmp_lex].
  destruct (Z.compare_spec y1 y2) as [-> | Hy | Hy].
  - destruct (Z.compare_spec m1 m2) as [-> | Hm | Hm].
    + destruct (Z.compare_spec d1 d2) as [-> | Hd | Hd].
      * apply Z.compare_refl.
      * apply Z.compare_lt_iff. lia.
      * apply Z.compare_gt_iff. lia.
    + apply Z.compare_lt_iff. pose proof (month_order _ _ _ _ _ H1 H2 Hm). lia.
    + apply Z.compare_gt_iff. pose proof (month_order _ _ _ _ _ H2 H1 Hm). lia.
  - apply Z.compare_lt_iff.
    pose proof (days_before_year_mono (y1 + 1) y2 ltac:(lia)).
    pose proof (days_before_year_succ y1). lia.
  - apply Z.compare_gt_iff.
    pose proof (days_before_year_mono (y2 + 1) y1 ltac:(lia)).
    pose proof (days_before_year_succ y2). lia.
Qed.

Lemma month_day_table (leapyear : bool) :
  forallb (fun k => month_day_ok leapyear (Z.of_nat k)) (seq 0 365) = true.
Proof. destruct leapyear; vm_compute; reflexivity. Qed.

Lemma month_day_spec (leapyear : bool) (n : Z) :
  0 <= n < 365 -> month_day_ok leapyear n = true.
Proof.
  intros Hn. pose proof (month_day_table leapyear) as H.
  rewrite forallb_forall in H. specialize (H (Z.to_nat n)).
  rewrite Z2Nat.id in H by lia. apply H. apply in_seq. lia.
Qed.

Lemma ord2ymd_eq (n : Z) :
  ord2ymd n =
  let n0 := n - 1 in
  let n400 := n0 / 146097 in
  let r := n0 mod 146097 in
  let n100 := r / 36524 in
  let r1 := r mod 36524 in
  let n4 := r1 / 1461 in
  let r2 := r1 mod 1461 in
  let n1 := r2 / 365 in
  let r3 := r2 mod 365 in
  let yr := n400 * 400 + 1 + n100 * 100 + n4 * 4 + n1 in
  if (n1 =? 4) || (n100 =? 4) then (yr - 1, 12, 31)
  else
    let leapyear := (n1 =? 3) && (negb (n4 =? 24) || (n100 =? 3)) in
    (yr, fst (month_day leapyear r3), snd (month_day leapyear r3)).
Proof.
  unfold ord2ymd, month_day, DI400Y, DI100Y, DI4Y. cbv zeta.
  destruct ((_ =? 4) || (_ =? 4)); [reflexivity|].
  destruct (_ <? _); reflexivity.
Qed.

Lemma is_leap_true (y : Z) :
  is_leap y = true <-> y mod 4 = 0 /\ (y mod 100 <> 0 \/ y mod 400 = 0).
Proof.
  unfold is_leap.
  rewrite andb_true_iff, orb_true_iff, negb_true_iff, !Z.eqb_eq, Z.eqb_neq.
  tauto.
Qed.

Lemma is_leap_false (y : Z) :
  is_leap y = false <-> y mod 4 <> 0 \/ (y mod 100 = 0 /\ y mod 400 <> 0).
Proof.
  unfold is_leap.
  rewrite andb_false_iff, orb_false_iff, negb_false_iff, !Z.eqb_neq, Z.eqb_eq.
  tauto.
Qed.

(** [_ord2ymd] is a right inverse of [_ymd2ord] and gives a date. *)
Lemma ord2ymd_spec (n : Z) :
  1 <= n ->
  exists y m d,
    ord2ymd n = (y, m, d) /\ valid_date y m d /\ ymd2ord y m d = n
    /\ 1 <= y /\ (n <= MAXORDINAL -> y <= MAXYEAR).
Proof.
  intros Hn. rewrite ord2ymd_eq. cbv zeta.
  pose proof (Z.div_mod (n - 1) 146097 ltac:(lia)) as E400.
  pose proof (Z.mod_pos_bound (n - 1) 146097 ltac:(lia)) as B400.
  set (n400 := (n - 1) / 146097) in *. set (r := (n - 1) mod 146097) in *.
  pose proof (Z.div_mod r 36524 ltac:(lia)) as E100.
  pose proof (Z.mod_pos_bound r 36524 ltac:(lia)) as B100.
  set (n100 := r / 36524) in *. set (r1 := r mod 36524) in *.
  pose proof (Z.div_mod r1 1461 ltac:(lia)) as E4.
  pose proof (Z.mod_pos_bound r1 1461 ltac:(lia)) as B4.
  set (n4 := r1 / 1461) in *. set (r2 := r1 mod 1461) in *.
  pose proof (Z.div_mod r2 365 ltac:(lia)) as E1.
  pose proof (Z.mod_pos_bound r2 365 ltac:(lia)) as B1.
  set (n1 := r2 / 365) in *. set (r3 := r2 mod 365) in *.
  clearbody n400 r n100 r1 n4 r2 n1 r3.
  assert (H400 : 0 <= n400) by lia.
  assert (H100 : 0 <= n100 <= 4) by lia.
  assert (H4 : 0 <= n4 <= 24) by lia.
  assert (H1 : 0 <= n1 <= 4) by lia.
  unfold MAXORDINAL, MAXYEAR.
  destruct ((n1 =? 4) || (n100 =? 4)) eqn:Esp.
  - (* the last day of a leap year *)
    eexists _, 12, 31. split; [reflexivity|].
    set (y := n400 * 400 + 1 + n100 * 100 + n4 * 4 + n1 - 1).
    assert (Hleap : is_leap y = true).
    { apply is_leap_true. subst y. bool_arith; Z.div_mod_to_equations; lia. }
    unfold valid_date, ymd2ord, days_before_month, days_in_month,
      days_before_year.
    rewrite Hleap. month_tables.
    subst y. bool_arith.
    + repeat split; try lia; Z.div_mod_to_equations; lia.
    + repeat split; try lia; Z.div_mod_to_equations; lia.
  - apply orb_false_iff in Esp. destruct Esp as [N1 N100].
    apply Z.eqb_neq in N1, N100.
    set (y := n400 * 400 + 1 + n100 * 100 + n4 * 4 + n1).
    set (leapyear := (n1 =? 3) && (negb (n4 =? 24) || (n100 =? 3))).
    assert (Hleap : is_leap y = leapyear).
    { subst leapyear. destruct (is_leap y) eqn:El; symmetry.
      - apply is_leap_true in El. subst y.
        destruct (n1 =? 3) eqn:A; destruct (n4 =? 24) eqn:B;
          destruct (n100 =? 3) eqn:C; cbn [andb orb negb]; try reflexivity;
          exfalso; bool_arith; Z.div_mod_to_equations; lia.
      - apply is_leap_false in El. subst y.
        destruct (n1 =? 3) eqn:A; destruct (n4 =? 24) eqn:B;
          destruct (n100 =? 3) eqn:C; cbn [andb orb negb]; try reflexivity;
          exfalso; bool_arith; Z.div_mod_to_equations; lia. }
    pose proof (month_day_spec leapyear r3 ltac:(lia)) as Hmd.
    unfold month_day_ok in Hmd.
    destruct (month_day leapyear r3) as [m d]. cbn [fst snd].
    exists y, m, d. split; [reflexivity|].
    rewrite !andb_true_iff in Hmd. destruct Hmd as ((((M1 & M2) & D1) & D2) & S).
    apply Z.leb_le in M1, M2, D1, D2. apply Z.eqb_eq in S.
    unfold valid_date, ymd2ord, days_before_month, days_in_month,
      days_before_year.
    rewrite Hleap. subst y.
    repeat split; try lia; Z.div_mod_to_equations; lia.
Qed.

(** ** The calendar: moments *)

Lemma day_micros_range (t : datetime) :
  time_ok t -> 0 <= day_micros t < 86400000000.
Proof. unfold time_ok, day_micros, day_seconds. lia. Qed.

Lemma cmp_lex_app (xs ys xs' ys' : list Z) :
  List.length xs = List.length ys ->
  cmp_lex (xs ++ xs') (ys ++ ys')
  = match cmp_lex xs ys with Eq => cmp_lex xs' ys' | c => c end.
Proof.
  revert ys. induction xs as [|x xs IH]; intros [|y ys] H; try discriminate.
  - reflexivity.
  - cbn [app cmp_lex]. destruct (x ?= y); try reflexivity.
    apply IH. now injection H.
Qed.

Lemma time_cmp (a b : datetime) :
  time_ok a -> time_ok b ->
  cmp_lex [hour a; minute a; second a; microsecond a]
          [hour b; minute b; second b; microsecond b]
  = (day_micros a ?= day_micros b).
Proof.
  unfold time_ok, day_micros, day_seconds. intros Ha Hb. cbn [cmp_lex]. symmetry.
  destruct (Z.compare_spec (hour a) (hour b)) as [E1 | L | L];
    [ destruct (Z.compare_spec (minute a) (minute b)) as [E2 | L | L];
      [ destruct (Z.compare_spec (second a) (second b)) as [E3 | L | L];
        [ destruct (Z.compare_spec (microsecond a) (microsecond b))
            as [E4 | L | L] | | ] | | ] | | ];
    first [ apply Z.compare_eq_iff; lia
          | apply Z.compare_lt_iff; lia
          | apply Z.compare_gt_iff; lia ].
Qed.

(** The order of [datetime]s is the order of (ordinal, time of day). *)
Lemma dt_cmp_spec (a b : datetime) :
  datetime_ok a -> datetime_ok b ->
  dt_cmp a b
  = match toordinal a ?= toordinal b with
    | Eq => day_micros a ?= day_micros b
    | c => c
    end.
Proof.
  intros (_ & Da & Ta) (_ & Db & Tb). unfold dt_cmp, fields, toordinal.
  change [year a; month a; day a; hour a; minute a; second a; microsecond a]
    with ([year a; month a; day a]
          ++ [hour a; minute a; second a; microsecond a])%list.
  change [year b; month b; day b; hour b; minute b; second b; microsecond b]
    with ([year b; month b; day b]
          ++ [hour b; minute b; second b; microsecond b])%list.
  rewrite cmp_lex_app by reflexivity.
  now rewrite (ymd2ord_cmp _ _ _ _ _ _ Da Db), (time_cmp a b Ta Tb).
Qed.

Lemma dt_le_spec (a b : datetime) :
  datetime_ok a -> datetime_ok b ->
  dt_le a b = true
  <-> toordinal a < toordinal b
      \/ (toordinal a = toordinal b /\ day_micros a <= day_micros b).
Proof.
  intros Ha Hb. unfold dt_le. rewrite (dt_cmp_spec a b Ha Hb).
  destruct (Z.compare_spec (toordinal a) (toordinal b)) as [E | L | L].
  - destruct (Z.compare_spec (day_micros a) (day_micros b));
      split; try discriminate; try lia; intros _; lia.
  - split; [intros _; lia | reflexivity].
  - split; [discriminate | lia].
Qed.

Lemma dt_lt_spec (a b : datetime) :
  datetime_ok a -> datetime_ok b ->
  dt_lt a b = true
  <-> toordinal a < toordinal b
      \/ (toordinal a = toordinal b /\ day_micros a < day_micros b).
Proof.
  intros Ha Hb. unfold dt_lt. rewrite (dt_cmp_spec a b Ha Hb).
  destruct (Z.compare_spec (toordinal a) (toordinal b)) as [E | L | L].
  - destruct (Z.compare_spec (day_micros a) (day_micros b));
      split; try discriminate; try lia; intros _; lia.
  - split; [intros _; lia | reflexivity].
  - split; [discriminate | lia].
Qed.

Lemma toordinal_pos (t : datetime) : datetime_ok t -> 1 <= toordinal t.
Proof.
  intros (Hy & Hd & _). unfold toordinal, ymd2ord.
  pose proof (day_of_year_range _ _ _ Hd).
  pose proof (days_before_year_mono 1 (year t) ltac:(lia)).
  change (days_before_year 1) with 0 in *. lia.
Qed.

(** [t + timedelta(days=n)] is the same time of day [n] days later, or an
    [OverflowError] when that day is outside of the calendar. *)
Lemma dt_add_days_spec (t : datetime) (n : Z) :
  datetime_ok t ->
  (1 <= toordinal t + n <= MAXORDINAL ->
   exists t', dt_add_days t n = Ok t' /\ datetime_ok t'
              /\ toordinal t' = toordinal t + n
              /\ day_micros t' = day_micros t)
  /\ (~ 1 <= toordinal t + n <= MAXORDINAL ->
      dt_add_days t n = Raise (OverflowError "date value out of range")).
Proof.
  intros (Hy & Hd & Ht). pose proof Ht as (Hh & Hmi & Hs & Hus).
  unfold dt_add_days, new_timedelta. cbn [days seconds microseconds].
  assert (E1 : microsecond t / 1000000 = 0) by (apply Z.div_small; lia).
  assert (E2 : microsecond t mod 1000000 = microsecond t)
    by (apply Z.mod_small; lia).
  rewrite E1, E2, Z.add_0_r.
  assert (R : 0 <= day_seconds t < 86400) by (unfold day_seconds; lia).
  assert (E3 : day_seconds t / 86400 = 0) by (apply Z.div_small; lia).
  assert (E4 : day_seconds t mod 86400 = day_seconds t)
    by (apply Z.mod_small; lia).
  rewrite E3, E4, Z.add_0_r.
  assert (E5 : day_seconds t / 3600 = hour t)
    by (unfold day_seconds; Z.div_mod_to_equations; lia).
  assert (E6 : day_seconds t mod 3600 = second t + minute t * 60)
    by (unfold day_seconds; Z.div_mod_to_equations; lia).
  rewrite E5, E6.
  assert (E7 : (second t + minute t * 60) / 60 = minute t)
    by (Z.div_mod_to_equations; lia).
  assert (E8 : (second t + minute t * 60) mod 60 = second t)
    by (Z.div_mod_to_equations; lia).
  rewrite E7, E8.
  split; intros Hr.
  - replace ((0 <? toordinal t + n) && (toordinal t + n <=? MAXORDINAL))
      with true
      by (symmetry; apply andb_true_iff; split;
          [apply Z.ltb_lt | apply Z.leb_le]; lia).
    destruct (ord2ymd_spec (toordinal t + n) ltac:(lia))
      as (y & m & d & -> & Hv & Ho & Hy1 & Hy2).
    eexists. split; [reflexivity|].
    unfold datetime_ok, time_ok, toordinal, day_micros, day_seconds.
    cbn [year month day hour minute second microsecond].
    unfold MAXYEAR in Hy2. repeat split; try lia; try apply Hv.
    exact Ho.
  - replace ((0 <? toordinal t + n) && (toordinal t + n <=? MAXORDINAL))
      with false; [reflexivity|].
    symmetry. apply andb_false_iff.
    destruct (Z.ltb_spec 0 (toordinal t + n)); [right | now left].
    apply Z.leb_gt. lia.
Qed.

(** ** Invariants of the handlers *)

Lemma Birthday_init_ok (s : string) (b : Birthday) :
  Birthday_init s = Ok b -> birthday_ok b.
Proof.
  intros H. destruct (Birthday_init_cases s) as [(t & Ht & E) | E];
    rewrite E in H; [|discriminate].
  injection H as <-. apply strptime_sound in Ht.
  destruct Ht as (y & m & d & _ & (Hy & Hm & Hd) & ->).
  unfold birthday_ok, datetime_ok, valid_date, time_ok, day_micros, day_seconds.
  cbn [value year month day hour minute second microsecond].
  repeat split; lia.
Qed.

Lemma gentle_add_phone (phone : string) :
  gentle (fun r => Record_add_phone r phone).
Proof.
  intros r. unfold Record_add_phone.
  destruct (Phone_init phone); split; auto.
Qed.

Lemma gentle_add_birthday (b : string) :
  gentle (fun r => Record_add_birthday r b).
Proof.
  intros r. unfold Record_add_birthday.
  destruct (Birthday_init b) as [bd|e] eqn:E; split; auto.
  intros _ b' [= <-]. now apply Birthday_init_ok with b.
Qed.

Lemma edit_phone_loop_gentle (r : Record_) (i : nat) (todo : list Phone)
  (old new : string) :
  name (snd (edit_phone_loop r i todo old new)) = name r
  /\ birthday (snd (edit_phone_loop r i todo old new)) = birthday r.
Proof.
  revert i. induction todo as [|p todo IH]; intros i; simpl; [now split|].
  destruct (String.eqb (value p) old); [|apply IH].
  destruct (Phone_init new) as [q|e]; [|now split].
  now destruct (list_setitem (phones r) i q).
Qed.

Lemma gentle_edit_phone (old new : string) :
  gentle (fun r => Record_edit_phone r old new).
Proof.
  intros r. unfold Record_edit_phone.
  destruct (edit_phone_loop_gentle r 0 (phones r) old new) as [Hn Hb].
  split; [exact Hn|]. unfold record_ok. now rewrite Hb.
Qed.

Lemma Record_init_fresh (n : string) (r : Record_) :
  Record_init n = Ok r -> value (name r) = n /\ birthday r = None.
Proof.
  unfold Record_init, Name_init. destruct n; simpl; [discriminate|].
  now intros [= <-].
Qed.

Create HintDb tame.

(** The handlers keep every relation on books that is a preorder, holds
    when a new record is stored and holds when a gentle method runs on a
    record of the book. *)
Section Tame.

Variable R : AddressBook -> AddressBook -> Prop.

Hypothesis R_refl : forall book, R book book.
Hypothesis R_trans : forall b1 b2 b3, R b1 b2 -> R b2 b3 -> R b1 b3.
Hypothesis R_new :
  forall n r book, Record_init n = Ok r -> R book (AddressBook_add_record r book).
Hypothesis R_method :
  forall key method, gentle method -> tame R (call_method key method).

Lemma tame_ret {A : Type} (a : A) : tame R (ret a).
Proof. intros book. apply R_refl. Qed.

Lemma tame_lift {A : Type} (r : result A) : tame R (lift r).
Proof. intros book. apply R_refl. Qed.

Lemma tame_gets {A : Type} (f : AddressBook -> A) : tame R (gets f).
Proof. intros book. apply R_refl. Qed.

Lemma tame_bind {A B : Type} (m : M A) (k : A -> M B) :
  tame R m -> (forall a, tame R (k a)) -> tame R (bind m k).
Proof.
  intros Hm Hk book. unfold bind. specialize (Hm book).
  destruct (m book) as [[a | e] book']; simpl in *.
  - eapply R_trans; [exact Hm | apply Hk].
  - exact Hm.
Qed.

Lemma tame_bind_lift {A B : Type} (r : result A) (k : A -> M B) :
  (forall a, r = Ok a -> tame R (k a)) -> tame R (bind (lift r) k).
Proof.
  intros Hk book. unfold bind, lift. destruct r as [a | e]; simpl.
  - now apply Hk.
  - apply R_refl.
Qed.

Lemma tame_new (n : string) (r : Record_) :
  Record_init n = Ok r -> tame R (modify (AddressBook_add_record r)).
Proof. intros H book. simpl. now apply R_new with n. Qed.

Hint Resolve tame_ret tame_lift tame_gets tame_new R_method
  gentle_add_phone gentle_add_birthday gentle_edit_phone : tame.

Ltac tame_step :=
  match goal with
  | |- tame _ (bind (lift (Record_init _)) _) =>
      apply tame_bind_lift; intros ? ?
  | |- tame _ (bind _ _) => apply tame_bind; [|intros ?]
  | |- tame _ (match ?x with _ => _ end) => destruct x
  | |- tame _ (if ?x then _ else _) => destruct x
  | |- tame _ _ => solve [eauto with tame]
  end.

Ltac tame_auto := repeat tame_step.

Lemma tame_greet (args : list string) : tame R (greet args).
Proof. unfold greet. tame_auto. Qed.

Lemma tame_add_contact (args : list string) : tame R (add_contact args).
Proof. unfold add_contact. tame_auto. Qed.

Lemma tame_change_contact (args : list string) : tame R (change_contact args).
Proof. unfold change_contact. tame_auto. Qed.

Lemma tame_show_phone (args : list string) : tame R (show_phone args).
Proof. unfold show_phone. tame_auto. Qed.

Lemma tame_add_birthday (args : list string) : tame R (add_birthday args).
Proof. unfold add_birthday. tame_auto. Qed.

Lemma tame_show_birthday (pad_year : bool) (args : list string) :
  tame R (show_birthday pad_year args).
Proof. unfold show_birthday. tame_auto. Qed.

Lemma tame_show_all_contacts (pad_year : bool) :
  tame R (show_all_contacts pad_year).
Proof. unfold show_all_contacts. tame_auto. Qed.

Lemma tame_show_upcoming_birthdays (pad_year : bool) (today : datetime)
  (args : list string) :
  tame R (show_upcoming_birthdays pad_year today args).
Proof.
  unfold show_upcoming_birthdays. apply tame_bind.
  - intros book. apply R_refl.
  - intros upcoming. tame_auto.
Qed.

Lemma tame_input_error (f : pyfunc) :
  tame_func R f -> tame_func R (input_error f).
Proof.
  intros Hf args book. simpl. specialize (Hf args book).
  destruct (call2 f args book) as [[s | []] book']; exact Hf.
Qed.

Lemma tame_Fun2 (fname : string) (body : list string -> M string) :
  (forall args, tame R (body args)) -> tame_func R (Fun2 fname body).
Proof. intros H args. exact (H args). Qed.

Lemma tame_Fun1 (fname : string) (body : M string) :
  tame_func R (Fun1 fname body).
Proof. intros args. simpl. apply tame_lift. Qed.

Lemma tame_handlers (pad_year : bool) (ah : pyfunc) (today : datetime)
  (command : string) (h : pyfunc) :
  tame_func R ah -> handlers pad_year ah today command = Some h ->
  tame_func R h.
Proof.
  intros Hah. unfold handlers.
  repeat match goal with
         | |- context [if ?c then _ else _] => destruct c
         end; intros [= <-]; try exact Hah;
    try (apply tame_input_error); apply tame_Fun2.
  - apply tame_greet.
  - apply tame_add_contact.
  - apply tame_change_contact.
  - apply tame_show_phone.
  - apply tame_add_birthday.
  - apply tame_show_birthday.
  - apply tame_show_upcoming_birthdays.
Qed.

Lemma tame_run_call (pad_year : bool) (book : AddressBook) (c : handler_call) :
  R book (run_call pad_year book c).
Proof.
  unfold run_call.
  destruct (handlers _ _ _ _) as [h|] eqn:E; [|apply R_refl].
  eapply tame_handlers; [|exact E].
  apply tame_input_error, tame_Fun1.
Qed.

Lemma tame_fold (pad_year : bool) (cs : list handler_call)
  (book : AddressBook) :
  R book (fold_left (run_call pad_year) cs book).
Proof.
  revert book. induction cs as [|c cs IH]; intros book; simpl.
  - apply R_refl.
  - eapply R_trans; [apply tame_run_call | apply IH].
Qed.

End Tame.

Lemma keeps_refl (book : AddressBook) : keeps book book.
Proof. intros H. split; [exact H | eauto]. Qed.

Lemma keeps_trans (b1 b2 b3 : AddressBook) :
  keeps b1 b2 -> keeps b2 b3 -> keeps b1 b3.
Proof.
  intros H12 H23 H1. destruct (H12 H1) as [H2 N12].
  destruct (H23 H2) as [H3 N23]. split; [exact H3|].
  intros k r Hk. destruct (N12 _ _ Hk) as (r2 & Hk2 & E2).
  destruct (N23 _ _ Hk2) as (r3 & Hk3 & E3).
  exists r3. split; [exact Hk3 | congruence].
Qed.

Lemma keeps_set (k : string) (v : Record_) (book : AddressBook) :
  (key_consistent book -> k = value (name v)) ->
  keeps book (dict_set k v book).
Proof.
  intros Hk Hb. specialize (Hk Hb). split.
  - now apply key_consistent_set.
  - intros k0 r0 H0. destruct (string_dec k k0) as [<- | Hne].
    + exists v. rewrite dict_get_set_same. split; [reflexivity|].
      apply Field_eq. rewrite <- Hk. now apply key_consistent_get with book.
    + exists r0. now rewrite dict_get_set_other.
Qed.

Lemma keeps_new (n : string) (r : Record_) (book : AddressBook) :
  Record_init n = Ok r -> keeps book (AddressBook_add_record r book).
Proof. intros _. unfold AddressBook_add_record. now apply keeps_set. Qed.

Lemma keeps_method (key : string)
  (method : Record_ -> result unit * Record_) :
  gentle method -> tame keeps (call_method key method).
Proof.
  intros Hm book. unfold call_method.
  destruct (dict_get key book) as [record|] eqn:E; [|apply keeps_refl].
  destruct (Hm record) as [Hn _]. destruct (method record) as [o record'].
  simpl in *. apply keeps_set.
  intros Hb. rewrite Hn. now apply key_consistent_get with book.
Qed.

Lemma keeps_fold (pad_year : bool) (cs : list handler_call)
  (book : AddressBook) :
  keeps book (fold_left (run_call pad_year) cs book).
Proof.
  apply tame_fold;
    [ exact keeps_refl | exact keeps_trans | exact keeps_new
    | exact keeps_method ].
Qed.

Lemma birthdays_ok_set (k : string) (v : Record_) (book : AddressBook) :
  record_ok v -> keeps_birthdays book (dict_set k v book).
Proof.
  intros Hv Hb. unfold birthdays_ok, dict_values in *.
  induction book as [|[k' v'] book IH]; simpl in *.
  - constructor; [exact Hv | constructor].
  - inversion Hb as [|? ? Hv' Hb']; subst.
    destruct (String.eqb k' k); simpl; constructor; auto.
Qed.

Lemma birthdays_ok_get (k : string) (r : Record_) (book : AddressBook) :
  birthdays_ok book -> dict_get k book = Some r -> record_ok r.
Proof.
  intros Hb Hg. apply dict_get_In in Hg.
  unfold birthdays_ok in Hb. rewrite Forall_forall in Hb. apply Hb.
  unfold dict_values. apply in_map_iff. now exists (k, r).
Qed.

Lemma keeps_birthdays_new (n : string) (r : Record_) (book : AddressBook) :
  Record_init n = Ok r -> keeps_birthdays book (AddressBook_add_record r book).
Proof.
  intros H. apply Record_init_fresh in H. destruct H as [_ Hb].
  apply birthdays_ok_set. intros b. now rewrite Hb.
Qed.

Lemma keeps_birthdays_method (key : string)
  (method : Record_ -> result unit * Record_) :
  gentle method -> tame keeps_birthdays (call_method key method).
Proof.
  intros Hm book. unfold call_method.
  destruct (dict_get key book) as [record|] eqn:E; [|now intros H].
  destruct (Hm record) as [_ Ho]. destruct (method record) as [o record'].
  simpl in *. intros Hb.
  apply birthdays_ok_set; [|exact Hb].
  apply Ho. now apply birthdays_ok_get with key book.
Qed.

(** In every book that the handlers can build, the birthdays are dates at
    midnight. *)
Lemma reachable_birthdays_ok (pad_year : bool) (cs : list handler_call) :
  birthdays_ok (run_calls pad_year cs).
Proof.
  assert (H : keeps_birthdays [] (run_calls pad_year cs)).
  { unfold run_calls. apply tame_fold.
    - intros book Hb. exact Hb.
    - intros b1 b2 b3 H12 H23 Hb. exact (H23 (H12 Hb)).
    - exact keeps_birthdays_new.
    - exact keeps_birthdays_method. }
  apply H. constructor.
Qed.

(** ** C1: [AddressBook.upcoming_birthdays]

    First what the method computes when it returns, and when it raises; then
    the claim. *)

Lemma replace_year_ok (t : datetime) (y : Z) :
  datetime_ok t -> 1 <= y <= 9999 -> valid_date y (month t) (day t) ->
  exists c, replace_year t y = Ok c /\ datetime_ok c
            /\ toordinal c = ymd2ord y (month t) (day t)
            /\ day_micros c = day_micros t.
Proof.
  intros (_ & _ & Ht) Hy Hv. unfold replace_year.
  assert (H : check_date_fields y (month t) (day t) = Ok tt).
  { apply check_date_fields_real. destruct Hv. repeat split; lia. }
  rewrite H. cbn [rbind]. eexists. split; [reflexivity|].
  unfold datetime_ok, time_ok, toordinal, day_micros, day_seconds in *.
  cbn [year month day hour minute second microsecond].
  repeat split; try lia; apply Hv.
Qed.

Lemma replace_year_raises (t : datetime) (y : Z) :
  ~ valid_date y (month t) (day t) ->
  exists msg, replace_year t y = Raise (ValueError msg).
Proof.
  intros Hv. unfold replace_year.
  destruct (check_date_fields y (month t) (day t)) as [[]|e] eqn:E.
  - apply check_date_fields_real in E. destruct E as (_ & Hm & Hd).
    exfalso. apply Hv. now split.
  - apply check_date_fields_raises in E. destruct E as [msg ->]. now eexists.
Qed.

Lemma birthday_in_window_spec (today next_week : datetime) (r : Record_) :
  datetime_ok today -> datetime_ok next_week ->
  toordinal next_week = toordinal today + 7 ->
  day_micros next_week = day_micros today ->
  (forall b, birthday r = Some b -> birthday_ok b /\ comparable today b) ->
  birthday_in_window today next_week r = Ok (upcoming today r).
Proof.
  intros Ht Hn Ho Hmic Hb. unfold birthday_in_window, upcoming.
  destruct (birthday r) as [b|]; [|reflexivity].
  destruct (Hb b eq_refl) as [[Hbo Hbm] Hc].
  destruct (replace_year_ok (value b) (year today) Hbo ltac:(apply Ht) Hc)
    as (c & -> & Hco & Hcord & Hcm).
  cbn [rbind]. f_equal. unfold in_window, past_midnight, comparison_ordinal.
  rewrite <- Hcord. rewrite Hbm in Hcm.
  pose proof (day_micros_range today ltac:(apply Ht)) as R.
  destruct (dt_le today c) eqn:E1; destruct (dt_le c next_week) eqn:E2;
    cbn [andb]; symmetry.
  - apply (dt_le_spec today c Ht Hco) in E1.
    apply (dt_le_spec c next_week Hco Hn) in E2.
    apply andb_true_iff. split; apply Z.leb_le;
      destruct (Z.eqb_spec (day_micros today) 0); lia.
  - apply andb_false_iff. right. apply Z.leb_gt.
    destruct (Z.le_gt_cases (toordinal c) (toordinal today + 7)) as [L|L];
      [|lia].
    exfalso. assert (dt_le c next_week = true); [|congruence].
    apply (dt_le_spec c next_week Hco Hn). lia.
  - apply andb_false_iff. left. apply Z.leb_gt.
    destruct (Z.eqb_spec (day_micros today) 0) as [Z0|Z0].
    + destruct (Z.le_gt_cases (toordinal today + 0) (toordinal c)) as [L|L];
        [|lia].
      exfalso. assert (dt_le today c = true); [|congruence].
      apply (dt_le_spec today c Ht Hco). lia.
    + destruct (Z.le_gt_cases (toordinal today + 1) (toordinal c)) as [L|L];
        [|lia].
      exfalso. assert (dt_le today c = true); [|congruence].
      apply (dt_le_spec today c Ht Hco). lia.
  - apply andb_false_iff. right. apply Z.leb_gt.
    destruct (Z.le_gt_cases (toordinal c) (toordinal today + 7)) as [L|L];
      [|lia].
    exfalso. assert (dt_le c next_week = true); [|congruence].
    apply (dt_le_spec c next_week Hco Hn). lia.
Qed.

Lemma comprehension_filter (today next_week : datetime) (rs : list Record_) :
  datetime_ok today -> datetime_ok next_week ->
  toordinal next_week = toordinal today + 7 ->
  day_micros next_week = day_micros today ->
  Forall (fun r => forall b, birthday r = Some b ->
                             birthday_ok b /\ comparable today b) rs ->
  comprehension today next_week rs = Ok (filter (upcoming today) rs).
Proof.
  intros Ht Hn Ho Hmic Hrs. induction Hrs as [|r rs Hr _ IH]; [reflexivity|].
  cbn [comprehension filter].
  rewrite (birthday_in_window_spec today next_week r Ht Hn Ho Hmic Hr), IH.
  reflexivity.
Qed.

(** When every stored birthday has its month and day in the current year,
    and the seventh day from today is in the calendar, [upcoming_birthdays]
    returns, in the order of the book, the records whose comparison date is
    in the window. *)
Lemma upcoming_birthdays_filter (today : datetime) (book : AddressBook) :
  datetime_ok today -> toordinal today + 7 <= MAXORDINAL ->
  Forall (fun r => forall b, birthday r = Some b ->
                             birthday_ok b /\ comparable today b)
         (dict_values book) ->
  AddressBook_upcoming_birthdays today book
  = Ok (filter (upcoming today) (dict_values book)).
Proof.
  intros Ht Hmax Hrs. unfold AddressBook_upcoming_birthdays.
  pose proof (toordinal_pos today Ht) as H1.
  destruct (dt_add_days_spec today 7 Ht) as [Hadd _].
  destruct (Hadd ltac:(lia)) as (nw & -> & Hn & Ho & Hmic).
  cbn [rbind]. now apply comprehension_filter.
Qed.

(** A comparison date seven days after today is in the window; one eight
    days or more after today is not; the date of today is in the window at
    midnight only. *)
Lemma in_window_bounds (today : datetime) (ord : Z) :
  (ord = toordinal today + 7 -> in_window today ord = true)
  /\ (toordinal today + 8 <= ord -> in_window today ord = false)
  /\ (ord = toordinal today ->
      in_window today ord = (day_micros today =? 0)).
Proof.
  unfold in_window, past_midnight. split; [|split]; intros H.
  - apply andb_true_iff. split; apply Z.leb_le;
      destruct (day_micros today =? 0); lia.
  - apply andb_false_iff. right. apply Z.leb_gt. lia.
  - subst ord. destruct (day_micros today =? 0).
    + apply andb_true_iff. split; apply Z.leb_le; lia.
    + apply andb_false_iff. left. apply Z.leb_gt. lia.
Qed.

Lemma replace_year_value_error (t : datetime) (y : Z) (e : exn) :
  replace_year t y = Raise e -> exists msg, e = ValueError msg.
Proof.
  unfold replace_year.
  destruct (check_date_fields y (month t) (day t)) as [[]|e'] eqn:E;
    [discriminate|].
  intros [= <-]. now apply check_date_fields_raises in E.
Qed.

Lemma comprehension_raises (today next_week : datetime) (rs : list Record_)
  (r : Record_) (b : Birthday) :
  In r rs -> birthday r = Some b -> ~ comparable today b ->
  exists msg, comprehension today next_week rs = Raise (ValueError msg).
Proof.
  intros Hin Hb Hc. induction rs as [|r0 rs IH]; [destruct Hin|].
  cbn [comprehension]. unfold birthday_in_window at 1.
  destruct (birthday r0) as [b0|] eqn:E0.
  - destruct (replace_year (value b0) (year today)) as [c0|e0] eqn:R0.
    + cbn [rbind]. destruct Hin as [-> | Hin].
      * rewrite Hb in E0. injection E0 as <-.
        destruct (replace_year_raises (value b) (year today) Hc) as [msg Hm].
        congruence.
      * destruct (IH Hin) as [msg ->]. now eexists.
    + cbn [rbind]. destruct (replace_year_value_error _ _ _ R0) as [msg ->].
      now eexists.
  - cbn [rbind]. destruct Hin as [-> | Hin]; [congruence|].
    destruct (IH Hin) as [msg ->]. now eexists.
Qed.

(** One stored birthday whose month and day do not exist in the current
    year, a 29 February in a year that is not a leap year, makes the whole
    call raise [ValueError]. *)
Lemma upcoming_birthdays_raises (today : datetime) (book : AddressBook)
  (r : Record_) (b : Birthday) :
  datetime_ok today -> toordinal today + 7 <= MAXORDINAL ->
  In r (dict_values book) -> birthday r = Some b -> ~ comparable today b ->
  exists msg,
    AddressBook_upcoming_birthdays today book = Raise (ValueError msg).
Proof.
  intros Ht Hmax Hin Hb Hc. unfold AddressBook_upcoming_birthdays.
  pose proof (toordinal_pos today Ht) as H1.
  destruct (dt_add_days_spec today 7 Ht) as [Hadd _].
  destruct (Hadd ltac:(lia)) as (nw & -> & _).
  cbn [rbind]. now apply comprehension_raises with r b.
Qed.

(** On the books that the handlers can build: the call returns the records
    of the window, in the order of the book, unless a stored birthday has no
    date in the current year. *)
Lemma upcoming_birthdays_reachable (pad_year : bool) (cs : list handler_call)
  (today : datetime) :
  datetime_ok today -> toordinal today + 7 <= MAXORDINAL ->
  Forall (fun r => forall b, birthday r = Some b -> comparable today b)
         (dict_values (run_calls pad_year cs)) ->
  AddressBook_upcoming_birthdays today (run_calls pad_year cs)
  = Ok (filter (upcoming today) (dict_values (run_calls pad_year cs))).
Proof.
  intros Ht Hmax Hc. apply upcoming_birthdays_filter; [exact Ht | exact Hmax|].
  pose proof (reachable_birthdays_ok pad_year cs) as Hok.
  unfold birthdays_ok in Hok. rewrite Forall_forall in *.
  intros r Hr b Hb. split; [now apply (Hok r Hr) | now apply (Hc r Hr)].
Qed.

(** C1. With a contact born on 29 February in the book and a current year
    that is not a leap year, [upcoming_birthdays] raises [ValueError] from
    [replace] and returns no list, although another contact has a birthday
    two days ahead; at the prompt, the command [birthdays] prints the text
    of the exception. *)
Theorem upcoming_birthdays_feb29 (pad_year : bool) :
  AddressBook_upcoming_birthdays (noon 2025 3 1)
    (run_calls pad_year
       [mkCall "add" ["Alice"; "1234567890"; "03.03.1990"] (noon 2025 3 1);
        mkCall "add" ["Bob"; "0987654321"; "29.02.2000"] (noon 2025 3 1)])
  = Raise (ValueError "day is out of range for month")
  /\ main pad_year
       [(noon 2025 3 1, "add Alice 1234567890 03.03.1990");
        (noon 2025 3 1, "add Bob 0987654321 29.02.2000");
        (noon 2025 3 1, "birthdays");
        (noon 2025 3 1, "close")]
     = Exited ["Welcome to the assistant bot!";
               "Enter a command: "; "Contact added.";
               "Enter a command: "; "Contact added.";
               "Enter a command: "; "day is out of range for month";
               "Enter a command: "; "Good bye!"].
Proof. split; reflexivity. Qed.

Example upcoming_birthdays_ex :
  AddressBook_upcoming_birthdays (noon 2025 3 1)
    [("Alice", born "Alice" 1990 3 3); ("Carol", born "Carol" 1985 3 8);
     ("Dave", born "Dave" 1985 3 9); ("Eve", born "Eve" 1970 2 28)]
  = Ok [born "Alice" 1990 3 3; born "Carol" 1985 3 8].
Proof. reflexivity. Qed.

(** The clock has a time of day, the comparison date has none: a birthday
    that falls today is in the window at midnight only. *)
Example upcoming_birthdays_today :
  AddressBook_upcoming_birthdays (noon 2025 3 1)
    [("Alice", born "Alice" 1990 3 1)] = Ok []
  /\ AddressBook_upcoming_birthdays (mkDatetime 2025 3 1 0 0 0 0)
       [("Alice", born "Alice" 1990 3 1)] = Ok [born "Alice" 1990 3 1].
Proof. split; reflexivity. Qed.

(** ** C2: [Record.days_to_birthday]

    First what the method computes when it returns; then the claim. *)

(** The whole days from a moment to a later or earlier midnight. *)
Lemma dt_sub_days (a b : datetime) :
  datetime_ok a -> datetime_ok b -> day_micros a = 0 ->
  days (dt_sub a b) = toordinal a - toordinal b - past_midnight b.
Proof.
  intros (_ & _ & Ta) (_ & _ & Tb) Ha.
  unfold dt_sub, new_timedelta, past_midnight. cbn [days].
  unfold day_micros, day_seconds, time_ok in *.
  assert (Hs : second a + minute a * 60 + hour a * 3600 = 0) by lia.
  assert (Hu : microsecond a = 0) by lia.
  rewrite Hs, Hu.
  destruct (Z.eqb_spec
              ((second b + minute b * 60 + hour b * 3600) * 1000000
               + microsecond b) 0) as [E | E];
    Z.div_mod_to_equations; lia.
Qed.

Lemma days_to_birthday_spec (today : datetime) (r : Record_) :
  (birthday r = None -> Record_days_to_birthday today r = Ok None)
  /\ (forall b,
        birthday r = Some b -> birthday_ok b -> datetime_ok today ->
        comparable today b ->
        (toordinal today + past_midnight today <= comparison_ordinal today b ->
         Record_days_to_birthday today r
         = Ok (Some (comparison_ordinal today b - toordinal today
                     - past_midnight today)))
        /\ (comparison_ordinal today b < toordinal today + past_midnight today ->
            year today < 9999 ->
            valid_date (year today + 1) (month (value b)) (day (value b)) ->
            Record_days_to_birthday today r
            = Ok (Some (ymd2ord (year today + 1) (month (value b))
                          (day (value b))
                        - toordinal today - past_midnight today)))).
Proof.
  unfold Record_days_to_birthday. split.
  - intros ->. reflexivity.
  - intros b -> [Hbo Hbm] Ht Hc.
    destruct (replace_year_ok (value b) (year today) Hbo ltac:(apply Ht) Hc)
      as (c & Ec & Hco & Hcord & Hcm).
    rewrite Ec. cbn [rbind]. rewrite Hbm in Hcm.
    pose proof (day_micros_range today ltac:(apply Ht)) as R.
    unfold comparison_ordinal. rewrite <- Hcord.
    split.
    + intros Hle.
      assert (E : dt_lt c today = false).
      { destruct (dt_lt c today) eqn:E; [|reflexivity]. exfalso.
        apply (dt_lt_spec c today Hco Ht) in E. unfold past_midnight in Hle.
        destruct (Z.eqb_spec (day_micros today) 0); lia. }
      rewrite E. cbn [rbind]. now rewrite (dt_sub_days c today Hco Ht Hcm).
    + intros Hlt Hy Hv.
      assert (E : dt_lt c today = true).
      { apply (dt_lt_spec c today Hco Ht). unfold past_midnight in Hlt.
        destruct (Z.eqb_spec (day_micros today) 0); lia. }
      rewrite E.
      assert (Hmd : month c = month (value b) /\ day c = day (value b)).
      { unfold replace_year in Ec.
        destruct (check_date_fields _ _ _); [|discriminate].
        cbn [rbind] in Ec. injection Ec as <-. now split. }
      destruct Hmd as [Hm Hd].
      destruct (replace_year_ok c (year today + 1) Hco
                  ltac:(destruct Ht as [? _]; lia)
                  ltac:(now rewrite Hm, Hd))
        as (c' & -> & Hco' & Hcord' & Hcm').
      cbn [rbind]. rewrite (dt_sub_days c' today Hco' Ht) by congruence.
      now rewrite Hcord', Hm, Hd.
Qed.

(** C2. On the birthday itself, at half past ten, the candidate date (the
    midnight of today) is before the clock: it is moved to the next year and
    the method returns 364, not 0.  With a birthday on 29 February and a
    current year that is not a leap year the method raises. *)
Theorem days_to_birthday_today :
  Record_days_to_birthday (mkDatetime 2025 6 15 10 30 0 0)
    (born "Alice" 1990 6 15) = Ok (Some 364)
  /\ Record_days_to_birthday (noon 2025 3 1) (born "Bob" 2000 2 29)
     = Raise (ValueError "day is out of range for month").
Proof. split; reflexivity. Qed.

Example days_to_birthday_ex :
  Record_days_to_birthday (mkDatetime 2025 6 15 0 0 0 0)
    (born "Alice" 1990 6 15) = Ok (Some 0)
  /\ Record_days_to_birthday (noon 2025 6 15) (born "Alice" 1990 6 16)
     = Ok (Some 0)
  /\ Record_days_to_birthday (noon 2025 6 15) (born "Alice" 1990 6 14)
     = Ok (Some 363)
  /\ Record_days_to_birthday (noon 2025 6 15) (mkRecord (mkField "Al") [] None)
     = Ok None.
Proof. repeat split. Qed.

(** ** C3: the phone validator *)



Example validate_phone_ex :
  Phone_init_unicode UNICODE_14 (codes "1234567890")
  = Ok (mkField (codes "1234567890"))
  /\ Phone_init_unicode UNICODE_14 (codes "123456789") = Raise phone_invalid
  /\ Phone_init_unicode UNICODE_14 (codes "12345678901") = Raise phone_invalid
  /\ Phone_init_unicode UNICODE_14 (codes "123456789a") = Raise phone_invalid
  /\ Phone_init_unicode UNICODE_14 (codes "123456789" ++ [178])%list
     = Raise phone_invalid
  /\ Phone_init_unicode UNICODE_14 (codes "123456789" ++ [65303])%list
     = Ok (mkField (codes "123456789" ++ [65303])%list).
Proof. repeat split. Qed.

(** ** C4: the birthday validator *)

(** C4, as stated, fails three times.  ["1.1.2000"] has a 1-digit day and a
    1-digit month, and the validator accepts it.  Where [%Y] is not padded,
    ["01.01.0999"] is accepted and formats as ["01.01.999"].  And
    ["01.01."] with the four ARABIC-INDIC digits of 2000 is accepted and
    formats as ["01.01.2000"]. *)
Lemma validate_birthday_accepts_one_digit :
  ((forall y m d, ~ strict_format "1.1.2000" y m d)
   /\ Birthday_init_unicode UNICODE_14 (codes "1.1.2000")
      = Ok (mkField (mkDatetime 2000 1 1 0 0 0 0)))
  /\ (strict_format "01.01.0999" 999 1 1 /\ real_date 999 1 1
      /\ Birthday_init_unicode UNICODE_14 (codes "01.01.0999")
         = Ok (mkField (mkDatetime 999 1 1 0 0 0 0))
      /\ strftime false (mkDatetime 999 1 1 0 0 0 0) = "01.01.999")
  /\ (Birthday_init_unicode UNICODE_14
        (codes "01.01." ++ [1634; 1632; 1632; 1632])%list
      = Ok (mkField (mkDatetime 2000 1 1 0 0 0 0))
      /\ (forall pad_year,
            codes (strftime pad_year (mkDatetime 2000 1 1 0 0 0 0))
            = codes "01.01.2000")
      /\ codes "01.01.2000"
         <> (codes "01.01." ++ [1634; 1632; 1632; 1632])%list).
Proof.
  split; [split | split; [|split; [|split]]].
  - intros y m d (d1 & d2 & m1 & m2 & y1 & y2 & y3 & y4 & E & _).
    discriminate E.
  - reflexivity.
  - split; [|split; [|split]]; try reflexivity.
    + exists "0"%char, "1"%char, "0"%char, "1"%char,
        "0"%char, "9"%char, "9"%char, "9"%char.
      repeat split.
    + repeat split; try reflexivity; unfold days_in_month; simpl; lia.
  - reflexivity.
  - intros []; reflexivity.
  - discriminate.
Qed.

(** C4, amended.  On every string the validator fails with its
    [ValueError] unless the string is day.month.year as [strptime] reads
    it, for a real calendar date, and it accepts every such string; and on
    a DD.MM.YYYY string in the digits 0 to 9 of a real date it succeeds,
    and formatting the result gives the string back when the year is 1000
    or later, or on a platform that pads [%Y]. *)
Theorem validate_birthday_lenient (zeros : list Z) (pad_year : bool)
  (s : text) :
  table_ok zeros = true ->
  ((~ exists y m d, lenient_format_unicode zeros s y m d /\ real_date y m d) ->
   Birthday_init_unicode zeros s = Raise birthday_invalid)
  /\ (forall y m d, lenient_format_unicode zeros s y m d -> real_date y m d ->
        Birthday_init_unicode zeros s = Ok (mkField (mkDatetime y m d 0 0 0 0)))
  /\ (forall s' y m d, s = codes s' -> strict_format s' y m d ->
        real_date y m d ->
        exists b, Birthday_init_unicode zeros s = Ok b
                  /\ value b = mkDatetime y m d 0 0 0 0
                  /\ (1000 <= y \/ pad_year = true ->
                      strftime pad_year (value b) = s')).
Proof.
  intros Hz. split; [|split].
  - intros Hno.
    destruct (Birthday_init_unicode_cases zeros Hz s) as [(t & Ht & _) | H];
      [|exact H].
    exfalso. apply Hno. apply strptime_unicode_sound in Ht; [|exact Hz].
    destruct Ht as (y & m & d & Hl & Hr & _). now exists y, m, d.
  - intros y m d Hl Hr. unfold Birthday_init_unicode.
    now rewrite (strptime_unicode_complete zeros Hz s y m d Hl Hr).
  - intros s' y m d -> Hs Hr. eexists. split; [|split].
    + unfold Birthday_init_unicode.
      rewrite (strptime_unicode_complete zeros Hz (codes s') y m d
                 (lenient_format_latin1 zeros s' y m d
                    (strict_lenient _ _ _ _ Hs)) Hr).
      reflexivity.
    + reflexivity.
    + cbn [value]. now apply strftime_strict.
Qed.

Lemma validate_birthday_witness :
  exists b, Birthday_init_unicode UNICODE_14 (codes "03.11.2025") = Ok b
            /\ value b = mkDatetime 2025 11 3 0 0 0 0
            /\ (1000 <= 2025 \/ false = true ->
                strftime false (value b) = "03.11.2025").
Proof.
  apply (proj2 (proj2 (validate_birthday_lenient UNICODE_14 false
                         (codes "03.11.2025") UNICODE_14_ok))
           "03.11.2025" 2025 11 3).
  - reflexivity.
  - exists "0"%char, "3"%char, "1"%char, "1"%char,
      "2"%char, "0"%char, "2"%char, "5"%char.
    repeat split.
  - unfold real_date, days_in_month. simpl. lia.
Defined.

Example validate_birthday_ex :
  Birthday_init "29.02.2024" = Ok (mkField (mkDatetime 2024 2 29 0 0 0 0))
  /\ Birthday_init "29.02.2025" = Raise birthday_invalid
  /\ Birthday_init " 7.3.1999" = Ok (mkField (mkDatetime 1999 3 7 0 0 0 0))
  /\ Birthday_init "07.03.99" = Raise birthday_invalid
  /\ Birthday_init "00.01.2000" = Raise birthday_invalid
  /\ Birthday_init "01.01.0000" = Raise birthday_invalid.
Proof. repeat split. Qed.

(** The day 10 with an ARABIC-INDIC zero is read; a day, or a month, that
    begins with a digit of another script is not, and neither is the day 30
    with such a zero. *)
Example validate_birthday_unicode_ex :
  Birthday_init_unicode UNICODE_14 ([49; 1632] ++ codes ".01.2000")%list
  = Ok (mkField (mkDatetime 2000 1 10 0 0 0 0))
  /\ Birthday_init_unicode UNICODE_14 ([1632; 49] ++ codes ".01.2000")%list
     = Raise birthday_invalid
  /\ Birthday_init_unicode UNICODE_14 ([51; 1632] ++ codes ".01.2000")%list
     = Raise birthday_invalid
  /\ Birthday_init_unicode UNICODE_14 (codes "01." ++ [1632; 49]
                                        ++ codes ".2000")%list
     = Raise birthday_invalid
  /\ Birthday_init_unicode UNICODE_14 ([50; 1641] ++ codes ".02.2000")%list
     = Ok (mkField (mkDatetime 2000 2 29 0 0 0 0))
  /\ Birthday_init_unicode UNICODE_14 ([50; 1641] ++ codes ".02.2001")%list
     = Raise birthday_invalid
  /\ Birthday_init_unicode UNICODE_14
       (codes "01.01." ++ [1632; 1632; 1632; 1632])%list
     = Raise birthday_invalid.
Proof. repeat split. Qed.

(** ** C5: [Record.edit_phone] *)

Lemma list_setitem_app {A : Type} (pre : list A) (p q : A) (post : list A) :
  list_setitem (pre ++ p :: post) (List.length pre) q = Ok (pre ++ q :: post)%list.
Proof.
  induction pre as [|x pre IH]; simpl; [reflexivity|].
  now rewrite IH.
Qed.

Lemma edit_phone_loop_found (self : Record_) (done pre : list Phone)
  (p : Phone) (post : list Phone) (old new : string) :
  phones self = (done ++ pre ++ p :: post)%list ->
  value p = old ->
  Forall (fun x => value x <> old) pre ->
  edit_phone_loop self (List.length done) (pre ++ p :: post) old new
  = match Phone_init new with
    | Ok q => (Ok tt, set_phones self (done ++ pre ++ q :: post))
    | Raise e => (Raise e, self)
    end.
Proof.
  intros Hps Hp Hpre. revert done Hps.
  induction Hpre as [|x pre Hx Hpre IH]; intros done Hps; simpl.
  - apply String.eqb_eq in Hp. rewrite Hp.
    destruct (Phone_init new) as [q|e]; [|reflexivity].
    simpl in Hps. rewrite Hps, list_setitem_app. reflexivity.
  - apply String.eqb_neq in Hx. rewrite Hx.
    specialize (IH (done ++ [x])%list).
    rewrite length_app, Nat.add_1_r, <- app_assoc in IH. simpl in IH.
    rewrite (IH Hps).
    destruct (Phone_init new) as [q|e]; [|reflexivity].
    now rewrite <- app_assoc.
Qed.

Lemma edit_phone_loop_missing (self : Record_) (i : nat) (todo : list Phone)
  (old new : string) :
  Forall (fun x => value x <> old) todo ->
  edit_phone_loop self i todo old new
  = (Raise (ValueError ("Phone number " ++ old ++ " not found.")), self).
Proof.
  intros H. revert i. induction H as [|x todo Hx _ IH]; intros i; simpl.
  - reflexivity.
  - apply String.eqb_neq in Hx. rewrite Hx. apply IH.
Qed.

(** Either some phone of the list is the first equal to [old], or none is. *)
Lemma first_match_dec (ps : list Phone) (old : string) :
  (exists pre p post, first_match ps pre p post old)
  \/ Forall (fun x => value x <> old) ps.
Proof.
  induction ps as [|x ps IH].
  - right. constructor.
  - destruct (String.eqb (value x) old) eqn:E.
    + left. exists [], x, ps. apply String.eqb_eq in E.
      repeat split; [exact E | constructor].
    + apply String.eqb_neq in E. destruct IH as [(pre & p & post & H1 & H2 & H3) | H].
      * left. exists (x :: pre), p, post. repeat split.
        -- simpl. now rewrite H1.
        -- exact H2.
        -- now constructor.
      * right. now constructor.
Qed.

(** C5. [edit_phone] replaces the first phone equal to [old_str] by the
    phone built from a valid [new_str] and keeps every other phone; with no
    phone equal to [old_str] it fails with the [ValueError] "not found"; and
    with a [new_str] that is not a valid phone it fails and the record,
    its phone list included, is what it was. *)
Theorem edit_phone_first_match (self : Record_) (old_str new_str : string) :
  (forall pre p post,
      first_match (phones self) pre p post old_str ->
      ten_digits new_str ->
      Record_edit_phone self old_str new_str
      = (Ok tt, set_phones self (pre ++ mkField new_str :: post)))
  /\ (Forall (fun x => value x <> old_str) (phones self) ->
      Record_edit_phone self old_str new_str
      = (Raise (ValueError ("Phone number " ++ old_str ++ " not found.")), self))
  /\ (~ ten_digits new_str ->
      exists e, Record_edit_phone self old_str new_str = (Raise e, self)).
Proof.
  unfold Record_edit_phone. split; [|split].
  - intros pre p post (Hps & Hp & Hpre) Hnew.
    pose proof (edit_phone_loop_found self [] pre p post old_str new_str
                  Hps Hp Hpre) as H.
    simpl in H. rewrite <- Hps in H. rewrite H.
    now rewrite (Phone_init_valid _ Hnew).
  - apply edit_phone_loop_missing.
  - intros Hnew.
    destruct (first_match_dec (phones self) old_str)
      as [(pre & p & post & Hps & Hp & Hpre) | Hnone].
    + pose proof (edit_phone_loop_found self [] pre p post old_str new_str
                    Hps Hp Hpre) as H.
      simpl in H. rewrite <- Hps in H. rewrite H.
      rewrite (Phone_init_invalid _ Hnew). now eexists.
    + rewrite (edit_phone_loop_missing _ _ _ _ _ Hnone). now eexists.
Qed.

Lemma edit_phone_witness :
  Record_edit_phone
    (mkRecord (mkField "Alice") [mkField "5550000000"; mkField "1234567890"] None)
    "1234567890" "0000000000"
  = (Ok tt,
     mkRecord (mkField "Alice") [mkField "5550000000"; mkField "0000000000"] None).
Proof.
  apply (proj1 (edit_phone_first_match
                  (mkRecord (mkField "Alice")
                     [mkField "5550000000"; mkField "1234567890"] None)
                  "1234567890" "0000000000")
           [mkField "5550000000"] (mkField "1234567890") []).
  - split; [reflexivity | split; [reflexivity|]].
    constructor; [discriminate | constructor].
  - split; reflexivity.
Defined.

Example edit_phone_twice :
  let r := mkRecord (mkField "Alice") [mkField "1234567890"] None in
  Record_edit_phone r "1234567890" "0000000000"
  = (Ok tt, mkRecord (mkField "Alice") [mkField "0000000000"] None)
  /\ Record_edit_phone (snd (Record_edit_phone r "1234567890" "0000000000"))
       "1234567890" "1111111111"
     = (Raise (ValueError "Phone number 1234567890 not found."),
        mkRecord (mkField "Alice") [mkField "0000000000"] None).
Proof. split; reflexivity. Qed.

(** ** C6: a handler that fails after it has changed the book *)

(** C6. [add_contact] with a new name and an invalid phone returns the
    message of the phone validator, and the book it leaves behind holds the
    new contact, with no phone: the failed call has changed the book. *)
Theorem add_contact_not_atomic :
  call2 h_add_contact ["Bob"; "123"] []
  = (Ok "Phone number must consist of exactly 10 digits.",
     [("Bob", mkRecord (mkField "Bob") [] None)]).
Proof. reflexivity. Qed.

(** With a valid phone and an invalid birthday the failed call leaves the
    contact and the phone. *)
Example add_contact_invalid_birthday :
  call2 h_add_contact ["Bob"; "1234567890"; "31.02.2000"] []
  = (Ok "Invalid date format. Use DD.MM.YYYY.",
     [("Bob", mkRecord (mkField "Bob") [mkField "1234567890"] None)]).
Proof. reflexivity. Qed.

(** The sibling handlers assign only after validation: a call of
    [change_contact] or [add_birthday] that does not report success leaves
    the book as it was. *)
Lemma dict_set_same (k : string) (v : Record_) (d : AddressBook) :
  dict_get k d = Some v -> dict_set k v d = d.
Proof.
  induction d as [|[k' v'] d IH]; simpl; [discriminate|].
  destruct (String.eqb k' k) eqn:E.
  - now intros [= ->].
  - intros H. now rewrite (IH H).
Qed.

Lemma edit_phone_loop_raise (self : Record_) (i : nat) (todo : list Phone)
  (old new : string) (e : exn) :
  fst (edit_phone_loop self i todo old new) = Raise e ->
  snd (edit_phone_loop self i todo old new) = self.
Proof.
  revert i. induction todo as [|p todo IH]; intros i; simpl; [reflexivity|].
  destruct (String.eqb (value p) old); [|apply IH].
  destruct (Phone_init new) as [q|e']; [|reflexivity].
  destruct (list_setitem (phones self) i q); [discriminate | reflexivity].
Qed.

Lemma change_contact_atomic (args : list string) (book : AddressBook)
  (msg : string) :
  fst (call2 h_change_contact args book) = Ok msg ->
  msg <> "Phone number updated." ->
  snd (call2 h_change_contact args book) = book.
Proof.
  simpl. unfold change_contact, bind, lift, gets, ret.
  destruct (unpack_3 args) as [[[nm old] new]|e] eqn:U; simpl.
  - unfold AddressBook_find, call_method.
    destruct (dict_get nm book) as [record|] eqn:G; simpl; [|reflexivity].
    rewrite G.
    pose proof (edit_phone_loop_raise record 0 (phones record) old new) as Hr.
    unfold Record_edit_phone.
    destruct (edit_phone_loop record 0 (phones record) old new)
      as [[[]|e] record']; simpl in *.
    + intros [= <-] Hne. now contradiction Hne.
    + intros _ _. rewrite (Hr e eq_refl).
      destruct e; simpl; now apply dict_set_same.
  - destruct e; reflexivity.
Qed.

Lemma add_birthday_atomic (args : list string) (book : AddressBook)
  (msg : string) :
  fst (call2 h_add_birthday args book) = Ok msg ->
  msg <> "Birthday added." ->
  snd (call2 h_add_birthday args book) = book.
Proof.
  simpl. unfold add_birthday, bind, lift, gets, ret.
  destruct (unpack_2_star args) as [[[nm b] other]|e] eqn:U; simpl.
  - unfold AddressBook_find, call_method.
    destruct (dict_get nm book) as [record|] eqn:G; simpl; [|reflexivity].
    rewrite G. unfold Record_add_birthday.
    destruct (Birthday_init b) as [bd|e]; simpl.
    + intros [= <-] Hne. now contradiction Hne.
    + intros _ _. destruct e; simpl; now apply dict_set_same.
  - destruct e; reflexivity.
Qed.

(** ** C7: too few arguments *)

(** C7. [change_contact] with no argument or with one argument returns, on
    every book, the text of the [ValueError] of the unpacking, which is not
    the message of the [IndexError] clause of the decorator; the book is
    unchanged. *)
Theorem change_contact_too_few_args (book : AddressBook) (a : string) :
  call2 h_change_contact [] book
  = (Ok "not enough values to unpack (expected 3, got 0)", book)
  /\ call2 h_change_contact [a] book
     = (Ok "not enough values to unpack (expected 3, got 1)", book).
Proof. split; reflexivity. Qed.

Example too_few_args_others (pad_year : bool) (book : AddressBook) :
  call2 h_add_contact ["Bob"] book
  = (Ok "not enough values to unpack (expected at least 2, got 1)", book)
  /\ call2 h_show_phone [] book
     = (Ok "not enough values to unpack (expected at least 1, got 0)", book)
  /\ call2 h_add_birthday ["Bob"] book
     = (Ok "not enough values to unpack (expected at least 2, got 1)", book)
  /\ call2 (h_show_birthday pad_year) [] book
     = (Ok "not enough values to unpack (expected at least 1, got 0)", book).
Proof. repeat split. Qed.

(** ** C8: exceptions that leave the command loop *)

(** C8. On an empty input line [parse_input] raises [ValueError] outside of
    any handler, and the exception leaves [main]: no message is printed for
    it and no further line is read. *)
Theorem main_empty_line_uncaught (pad_year : bool) (today : datetime)
  (rest : list (datetime * string)) :
  main pad_year ((today, "") :: rest)
  = Uncaught
      (ValueError "not enough values to unpack (expected at least 1, got 0)")
      ["Welcome to the assistant bot!"; "Enter a command: "].
Proof. reflexivity. Qed.

(** In [address_book_v2.py] the command [all] calls the one-parameter
    [show_all_contacts] with two arguments: the [TypeError] passes the
    decorator and leaves [main]. *)
Example main_all_uncaught (pad_year : bool) (today : datetime)
  (rest : list (datetime * string)) :
  main pad_year ((today, "all") :: rest)
  = Uncaught
      (TypeError "show_all_contacts() takes 1 positional argument but 2 were given")
      ["Welcome to the assistant bot!"; "Enter a command: "].
Proof. reflexivity. Qed.

Example main_handlers_all (pad_year : bool) (today : datetime) :
  main_handlers pad_year [(today, "all"); (today, "close")]
  = Exited ["Welcome to the assistant bot!"; "Enter a command: ";
            "No contacts found."; "Enter a command: "; "Good bye!"].
Proof. reflexivity. Qed.

(** ** C9: [show_birthday] on a name that is not in the book *)

Lemma show_birthday_without (pad_year : bool) (book : AddressBook)
  (nm : string) (rest : list string) :
  match AddressBook_find nm book with
  | Some r => birthday r = None
  | None => True
  end ->
  call2 (h_show_birthday pad_year) (nm :: rest) book = (Ok no_birthday_found, book).
Proof.
  simpl. unfold show_birthday, bind, lift, gets, ret. simpl.
  destruct (AddressBook_find nm book) as [[n ps [b|]]|]; simpl;
    intros H; try discriminate; reflexivity.
Qed.

(** C9. For a name that is not a key of the book, the decorated
    [show_birthday] returns "No birthday found for this contact.", which is
    what it returns for a contact of the book that has no birthday and is
    not the message "Contact not found."; the book is unchanged. *)
Theorem show_birthday_absent (pad_year : bool) (book : AddressBook)
  (nm : string) (rest : list string) :
  ~ In nm (dict_keys book) ->
  call2 (h_show_birthday pad_year) (nm :: rest) book = (Ok no_birthday_found, book)
  /\ no_birthday_found <> "Contact not found."
  /\ forall nm' r rest',
       AddressBook_find nm' book = Some r -> birthday r = None ->
       call2 (h_show_birthday pad_year) (nm' :: rest') book
       = call2 (h_show_birthday pad_year) (nm :: rest) book.
Proof.
  intros Habsent. apply dict_get_None_iff in Habsent.
  assert (H : call2 (h_show_birthday pad_year) (nm :: rest) book
              = (Ok no_birthday_found, book)).
  { apply show_birthday_without. unfold AddressBook_find. now rewrite Habsent. }
  split; [exact H | split; [discriminate|]].
  intros nm' r rest' Hf Hb. rewrite H.
  apply show_birthday_without. now rewrite Hf.
Qed.

Lemma show_birthday_absent_witness :
  call2 (h_show_birthday true) ["Bob"]
    [("Alice", mkRecord (mkField "Alice") [mkField "1234567890"] None)]
  = (Ok no_birthday_found,
     [("Alice", mkRecord (mkField "Alice") [mkField "1234567890"] None)]).
Proof.
  apply (show_birthday_absent true
           [("Alice", mkRecord (mkField "Alice") [mkField "1234567890"] None)]
           "Bob" []).
  simpl. intros [H | []]. discriminate.
Defined.

(** ** C10: the keys of the book are the names of its records *)

Example run_calls_ex (pad_year : bool) :
  run_calls pad_year
    [mkCall "add" ["Alice"; "1234567890"; "03.11.1990"] (noon 2025 11 3);
     mkCall "change" ["Alice"; "1234567890"; "0000000000"] (noon 2025 11 3)]
  = [("Alice", mkRecord (mkField "Alice") [mkField "0000000000"]
                 (Some (mkField (mkDatetime 1990 11 3 0 0 0 0))))].
Proof. reflexivity. Qed.

(** C10. After any sequence of handler calls from the empty book, every key
    is the name of the record stored under it, and after any further handler
    calls the key still holds a record of that name. *)
Theorem key_consistency (pad_year : bool) (cs : list handler_call) :
  key_consistent (run_calls pad_year cs)
  /\ forall k r,
       dict_get k (run_calls pad_year cs) = Some r ->
       k = value (name r)
       /\ forall more, exists r',
             dict_get k (run_calls pad_year (cs ++ more)) = Some r'
             /\ name r' = name r.
Proof.
  assert (H : key_consistent (run_calls pad_year cs))
    by (apply (keeps_fold pad_year cs []); constructor).
  split; [exact H|]. intros k r Hk. split.
  - now apply key_consistent_get with (run_calls pad_year cs).
  - intros more. unfold run_calls. rewrite fold_left_app.
    destruct (keeps_fold pad_year more (fold_left (run_call pad_year) cs []) H)
      as [_ Hn].
    now apply Hn.
Qed.

Lemma key_consistency_witness :
  "Alice" = value (name (mkRecord (mkField "Alice") [mkField "1234567890"] None))
  /\ forall more, exists r',
       dict_get "Alice"
         (run_calls true
            ([mkCall "add" ["Alice"; "1234567890"] (noon 2025 11 3)] ++ more))
       = Some r'
       /\ name r' = name (mkRecord (mkField "Alice") [mkField "1234567890"] None).
Proof.
  apply (proj2 (key_consistency true
                  [mkCall "add" ["Alice"; "1234567890"] (noon 2025 11 3)])
           "Alice" (mkRecord (mkField "Alice") [mkField "1234567890"] None)).
  reflexivity.
Defined.

(* ================================================================= *)
(** * Further properties of the code *)

(** ** The dictionary: [add_record] and [find] *)

Lemma dict_keys_set (k : string) (v : Record_) (d : AddressBook) :
  dict_keys (dict_set k v d)
  = match dict_get k d with
    | Some _ => dict_keys d
    | None => (dict_keys d ++ [k])%list
    end.
Proof.
  induction d as [|[k' v'] d IH]; simpl; [reflexivity|].
  destruct (String.eqb k' k) eqn:E; simpl; [reflexivity|].
  rewrite IH. now destruct (dict_get k d).
Qed.

Lemma dict_set_absent (k : string) (v : Record_) (d : AddressBook) :
  dict_get k d = None -> dict_set k v d = (d ++ [(k, v)])%list.
Proof.
  induction d as [|[k' v'] d IH]; simpl; [reflexivity|].
  destruct (String.eqb k' k) eqn:E; [discriminate|].
  intros H. now rewrite (IH H).
Qed.

Lemma dict_get_last (k : string) (v : Record_) (d : AddressBook) :
  dict_get k d = None -> dict_get k (d ++ [(k, v)])%list = Some v.
Proof.
  intros H. rewrite <- (dict_set_absent k v d H). apply dict_get_set_same.
Qed.

Lemma dict_set_last (k : string) (v v' : Record_) (d : AddressBook) :
  dict_get k d = None ->
  dict_set k v' (d ++ [(k, v)])%list = (d ++ [(k, v')])%list.
Proof.
  induction d as [|[k0 v0] d IH]; simpl.
  - now rewrite String.eqb_refl.
  - destruct (String.eqb k0 k) eqn:E; [discriminate|].
    intros H. now rewrite (IH H).
Qed.

(** X1. A record that is added is found under its name; the other names
    are found as before; and the book keeps its keys in place when the name
    was there, or has the new name after all the others. *)
Theorem find_add_record (record : Record_) (book : AddressBook) :
  AddressBook_find (value (name record)) (AddressBook_add_record record book)
  = Some record
  /\ (forall k, k <> value (name record) ->
       AddressBook_find k (AddressBook_add_record record book)
       = AddressBook_find k book)
  /\ dict_keys (AddressBook_add_record record book)
     = match AddressBook_find (value (name record)) book with
       | Some _ => dict_keys book
       | None => (dict_keys book ++ [value (name record)])%list
       end.
Proof.
  unfold AddressBook_find, AddressBook_add_record. split; [|split].
  - apply dict_get_set_same.
  - intros k Hk. apply dict_get_set_other. congruence.
  - apply dict_keys_set.
Qed.

(** ** The handlers never delete a contact *)

Lemma grows_refl (book : AddressBook) : grows book book.
Proof.
  split; [|auto]. exists []. now rewrite app_nil_r.
Qed.

Lemma grows_trans (b1 b2 b3 : AddressBook) :
  grows b1 b2 -> grows b2 b3 -> grows b1 b3.
Proof.
  intros [[m1 E1] N1] [[m2 E2] N2]. split; [|auto].
  exists (m1 ++ m2)%list. now rewrite E2, E1, app_assoc.
Qed.

Lemma grows_set (k : string) (v : Record_) (book : AddressBook) :
  grows book (dict_set k v book).
Proof.
  unfold grows. rewrite dict_keys_set.
  destruct (dict_get k book) eqn:E.
  - apply grows_refl.
  - split; [now exists [k]|].
    intros H. apply dict_get_None_iff in E.
    apply NoDup_app; [exact H | constructor; [intros [] | constructor] |].
    intros x Hx [<- | []]. contradiction.
Qed.

Lemma grows_method (key : string)
  (method : Record_ -> result unit * Record_) :
  gentle method -> tame grows (call_method key method).
Proof.
  intros _ book. unfold call_method.
  destruct (dict_get key book) as [record|]; [|apply grows_refl].
  destruct (method record) as [o record']. simpl. apply grows_set.
Qed.

Lemma grows_fold (pad_year : bool) (cs : list handler_call)
  (book : AddressBook) :
  grows book (fold_left (run_call pad_year) cs book).
Proof.
  apply tame_fold.
  - exact grows_refl.
  - exact grows_trans.
  - intros n r b _. apply grows_set.
  - exact grows_method.
Qed.

(** X2. After any sequence of handler calls from the empty book no name is
    twice in the book, and further handler calls leave the names that are
    there in their places: a contact is never deleted and never moved. *)
Theorem contacts_only_grow (pad_year : bool) (cs more : list handler_call) :
  NoDup (dict_keys (run_calls pad_year cs))
  /\ extends (dict_keys (run_calls pad_year cs))
             (dict_keys (run_calls pad_year (cs ++ more))).
Proof.
  split.
  - apply (grows_fold pad_year cs []). constructor.
  - unfold run_calls. rewrite fold_left_app. apply grows_fold.
Qed.

(** ** Every stored record is valid *)

(** The handlers keep every preorder on books that holds when a new record
    is stored and when one of the three methods that they call runs on a
    record of the book. *)
Section Tame_methods.

Variable R : AddressBook -> AddressBook -> Prop.

Hypothesis R_refl : forall book, R book book.
Hypothesis R_trans : forall b1 b2 b3, R b1 b2 -> R b2 b3 -> R b1 b3.
Hypothesis R_new :
  forall n r book, Record_init n = Ok r -> R book (AddressBook_add_record r book).
Hypothesis R_add_phone :
  forall key phone, tame R (call_method key (fun r => Record_add_phone r phone)).
Hypothesis R_add_birthday :
  forall key b, tame R (call_method key (fun r => Record_add_birthday r b)).
Hypothesis R_edit_phone :
  forall key old new,
    tame R (call_method key (fun r => Record_edit_phone r old new)).

Ltac methods_step :=
  match goal with
  | |- tame _ (bind (lift (Record_init _)) _) =>
      apply (tame_bind_lift R R_refl); intros ? ?
  | |- tame _ (bind _ _) => apply (tame_bind R R_trans); [|intros ?]
  | |- tame _ (ret _) => apply (tame_ret R R_refl)
  | |- tame _ (lift _) => apply (tame_lift R R_refl)
  | |- tame _ (gets _) => apply (tame_gets R R_refl)
  | |- tame _ (modify _) => eapply (tame_new R R_new); eassumption
  | |- tame _ (call_method _ (fun r => Record_add_phone r _)) =>
      apply R_add_phone
  | |- tame _ (call_method _ (fun r => Record_add_birthday r _)) =>
      apply R_add_birthday
  | |- tame _ (call_method _ (fun r => Record_edit_phone r _ _)) =>
      apply R_edit_phone
  | |- tame _ (match ?x with _ => _ end) => destruct x
  | |- tame _ (if ?x then _ else _) => destruct x
  end.

Lemma methods_add_contact (args : list string) : tame R (add_contact args).
Proof. unfold add_contact. repeat methods_step. Qed.

Lemma methods_change_contact (args : list string) :
  tame R (change_contact args).
Proof. unfold change_contact. repeat methods_step. Qed.

Lemma methods_add_birthday (args : list string) : tame R (add_birthday args).
Proof. unfold add_birthday. repeat methods_step. Qed.

Lemma methods_handlers (pad_year : bool) (ah : pyfunc) (today : datetime)
  (command : string) (h : pyfunc) :
  tame_func R ah -> handlers pad_year ah today command = Some h ->
  tame_func R h.
Proof.
  intros Hah. unfold handlers.
  repeat match goal with
         | |- context [if ?c then _ else _] => destruct c
         end; intros [= <-]; try exact Hah;
    try (apply tame_input_error); apply tame_Fun2.
  - now apply tame_greet.
  - apply methods_add_contact.
  - apply methods_change_contact.
  - now apply tame_show_phone.
  - apply methods_add_birthday.
  - now apply tame_show_birthday.
  - now apply tame_show_upcoming_birthdays.
Qed.

Lemma methods_fold (pad_year : bool) (cs : list handler_call)
  (book : AddressBook) :
  R book (fold_left (run_call pad_year) cs book).
Proof.
  revert book. induction cs as [|c cs IH]; intros book; simpl.
  - apply R_refl.
  - eapply R_trans; [|apply IH]. unfold run_call.
    destruct (handlers _ _ _ _) as [h|] eqn:E; [|apply R_refl].
    eapply methods_handlers; [|exact E].
    apply tame_input_error. now apply tame_Fun1.
Qed.

End Tame_methods.

Section Valid.

Variable zeros : list Z.

Lemma book_valid_set (k : string) (v : Record_) (book : AddressBook) :
  record_valid zeros v -> keeps_valid zeros book (dict_set k v book).
Proof.
  intros Hv Hb. unfold book_valid, dict_values in *.
  induction book as [|[k' v'] book IH]; simpl in *.
  - constructor; [exact Hv | constructor].
  - inversion Hb as [|? ? Hv' Hb']; subst.
    destruct (String.eqb k' k); simpl; constructor; auto.
Qed.

Lemma book_valid_get (k : string) (r : Record_) (book : AddressBook) :
  book_valid zeros book -> dict_get k book = Some r -> record_valid zeros r.
Proof.
  intros Hb Hg. apply dict_get_In in Hg.
  unfold book_valid in Hb. rewrite Forall_forall in Hb. apply Hb.
  unfold dict_values. apply in_map_iff. now exists (k, r).
Qed.

Lemma keeps_valid_method (key : string)
  (method : Record_ -> result unit * Record_) :
  (forall r, record_valid zeros r -> record_valid zeros (snd (method r))) ->
  tame (keeps_valid zeros) (call_method key method).
Proof.
  intros Hm book. unfold call_method.
  destruct (dict_get key book) as [record|] eqn:E; [|now intros H].
  specialize (Hm record). destruct (method record) as [o record'].
  simpl in *. intros Hb.
  apply book_valid_set; [|exact Hb].
  apply Hm. now apply book_valid_get with key book.
Qed.

Lemma Phone_init_ten_digits (s : string) (p : Phone) :
  Phone_init s = Ok p -> ten_digits (value p).
Proof.
  intros H. destruct (ten_digits_dec s) as [Hd | Hd].
  - rewrite (Phone_init_valid s Hd) in H. now injection H as <-.
  - rewrite (Phone_init_invalid s Hd) in H. discriminate.
Qed.

(** The phone that [Phone] builds from a string of code points below 256
    is ten decimal digits. *)
Lemma Phone_init_phone_valid (s : string) (p : Phone) :
  Phone_init s = Ok p -> phone_valid zeros p.
Proof.
  intros H. apply ten_digits_decimal. now apply Phone_init_ten_digits with s.
Qed.

Lemma list_setitem_Forall {A : Type} (P : A -> Prop) (l l' : list A)
  (i : nat) (x : A) :
  list_setitem l i x = Ok l' -> Forall P l -> P x -> Forall P l'.
Proof.
  revert i l'. induction l as [|y l IH]; intros [|i] l' H Hl Hx;
    simpl in H; try discriminate.
  - injection H as <-. inversion Hl; subst. now constructor.
  - destruct (list_setitem l i x) as [r|e] eqn:E; [|discriminate].
    simpl in H. injection H as <-. inversion Hl; subst.
    constructor; [assumption|]. now apply (IH i).
Qed.

Lemma edit_phone_loop_valid (r : Record_) (i : nat) (todo : list Phone)
  (old new : string) :
  Forall (phone_valid zeros) (phones r) ->
  Forall (phone_valid zeros)
         (phones (snd (edit_phone_loop r i todo old new))).
Proof.
  intros Hr. revert i. induction todo as [|p todo IH]; intros i; simpl;
    [exact Hr|].
  destruct (String.eqb (value p) old); [|apply IH].
  destruct (Phone_init new) as [q|e] eqn:Eq; [|exact Hr].
  destruct (list_setitem (phones r) i q) as [ps|e] eqn:Es; [|exact Hr].
  simpl. apply (list_setitem_Forall _ _ _ _ _ Es Hr).
  now apply Phone_init_phone_valid with new.
Qed.

Lemma add_phone_valid (phone : string) (r : Record_) :
  record_valid zeros r -> record_valid zeros (snd (Record_add_phone r phone)).
Proof.
  intros (Hn & Hp & Hb). unfold Record_add_phone.
  destruct (Phone_init phone) as [p|e] eqn:E; simpl;
    [|split; [exact Hn | split; [exact Hp | exact Hb]]].
  split; [exact Hn | split; [|exact Hb]]. simpl.
  apply Forall_app. split; [exact Hp|].
  constructor; [now apply Phone_init_phone_valid with phone | constructor].
Qed.

Lemma add_birthday_valid (b : string) (r : Record_) :
  record_valid zeros r -> record_valid zeros (snd (Record_add_birthday r b)).
Proof.
  intros (Hn & Hp & Hb).
  destruct (gentle_add_birthday b r) as [En Eb].
  split; [now rewrite En | split; [|now apply Eb]].
  unfold Record_add_birthday. now destruct (Birthday_init b).
Qed.

Lemma edit_phone_valid (old new : string) (r : Record_) :
  record_valid zeros r ->
  record_valid zeros (snd (Record_edit_phone r old new)).
Proof.
  intros (Hn & Hp & Hb).
  destruct (gentle_edit_phone old new r) as [En Eb].
  split; [now rewrite En | split; [|now apply Eb]].
  now apply edit_phone_loop_valid.
Qed.

Lemma Record_init_valid (n : string) (r : Record_) :
  Record_init n = Ok r -> record_valid zeros r.
Proof.
  unfold Record_init, Name_init. destruct n; simpl; [discriminate|].
  intros [= <-]. split; [|split]; simpl; [discriminate | constructor|].
  intros b Hb. discriminate.
Qed.

End Valid.


(** ** The handlers that only read *)

(** X4. [greet], [show_phone], [show_birthday], [show_all_contacts] and
    [show_upcoming_birthdays] leave the book as it is, whatever their
    arguments are and whether they return a message or raise. *)
Theorem queries_read_only (pad_year : bool) (today : datetime)
  (args : list string) (book : AddressBook) :
  snd (call2 h_greet args book) = book
  /\ snd (call2 h_show_phone args book) = book
  /\ snd (call2 (h_show_birthday pad_year) args book) = book
  /\ snd (call2 (h_show_all_contacts pad_year) args book) = book
  /\ snd (call2 (h_show_all_contacts_2 pad_year) args book) = book
  /\ snd (call2 (h_show_upcoming_birthdays pad_year today) args book) = book.
Proof.
  repeat split.
  - simpl. unfold show_phone, bind, lift, gets, ret.
    destruct (unpack_1_star args) as [[nm rest]|[]]; simpl; try reflexivity.
    now destruct (AddressBook_find nm book).
  - simpl. unfold show_birthday, bind, lift, gets, ret.
    destruct (unpack_1_star args) as [[nm rest]|[]]; simpl; try reflexivity.
    now destruct (AddressBook_find nm book) as [[n ps [b|]]|].
  - simpl. unfold show_all_contacts_2, show_all_contacts, bind, gets, ret.
    simpl. now destruct book.
  - simpl. unfold show_upcoming_birthdays, bind, ret.
    destruct (AddressBook_upcoming_birthdays today book) as [[|r l]|[]];
      reflexivity.
Qed.

(** ** The command [add] *)

Lemma ten_digits_truthy (p : string) : ten_digits p -> truthy p = true.
Proof. intros [H _]. now destruct p. Qed.

Lemma add_contact_new_eq (book : AddressBook) (nm phone : string) :
  nm <> "" -> ~ In nm (dict_keys book) -> ten_digits phone ->
  call2 h_add_contact [nm; phone] book
  = (Ok "Contact added.",
     (book ++ [(nm, mkRecord (mkField nm) [mkField phone] None)])%list).
Proof.
  intros Hnm Habs Hph. apply dict_get_None_iff in Habs.
  simpl. unfold add_contact, bind, lift, gets, ret, modify. simpl.
  unfold AddressBook_find. rewrite Habs.
  unfold Record_init, Name_init. destruct nm as [|c nm]; [now contradiction Hnm|].
  simpl. unfold AddressBook_add_record. simpl.
  rewrite (dict_set_absent _ _ _ Habs), (ten_digits_truthy _ Hph).
  unfold call_method. rewrite (dict_get_last _ _ _ Habs).
  unfold Record_add_phone. rewrite (Phone_init_valid _ Hph). simpl.
  now rewrite (dict_set_last _ _ _ _ Habs).
Qed.

(** X5. [add_contact] with a name that is not empty and not in the book,
    and a phone of ten digits, returns "Contact added." and puts after the
    contacts of the book a record of that name with that one phone and no
    birthday. *)
Theorem add_contact_new (book : AddressBook) (nm phone : string) :
  nm <> "" -> ~ In nm (dict_keys book) -> ten_digits phone ->
  call2 h_add_contact [nm; phone] book
  = (Ok "Contact added.",
     (book ++ [(nm, mkRecord (mkField nm) [mkField phone] None)])%list).
Proof. apply add_contact_new_eq. Qed.

Lemma add_contact_new_witness :
  call2 h_add_contact ["Bob"; "0987654321"]
    [("Alice", mkRecord (mkField "Alice") [mkField "1234567890"] None)]
  = (Ok "Contact added.",
     [("Alice", mkRecord (mkField "Alice") [mkField "1234567890"] None);
      ("Bob", mkRecord (mkField "Bob") [mkField "0987654321"] None)]).
Proof.
  apply (add_contact_new
           [("Alice", mkRecord (mkField "Alice") [mkField "1234567890"] None)]
           "Bob" "0987654321").
  - discriminate.
  - simpl. intros [H | []]. discriminate.
  - split; reflexivity.
Defined.

(** X6. [add_contact] with the name of a contact of the book and a phone of
    ten digits returns "Contact updated." and puts the phone after the
    phones of that contact, also when the contact has that phone already;
    the name, the birthday and the place of the contact stay. *)
Theorem add_contact_existing (book : AddressBook) (nm phone : string)
  (r : Record_) :
  AddressBook_find nm book = Some r -> ten_digits phone ->
  call2 h_add_contact [nm; phone] book
  = (Ok "Contact updated.",
     dict_set nm (set_phones r (phones r ++ [mkField phone])) book)
  /\ dict_keys (snd (call2 h_add_contact [nm; phone] book)) = dict_keys book.
Proof.
  intros Hf Hph.
  assert (E : call2 h_add_contact [nm; phone] book
              = (Ok "Contact updated.",
                 dict_set nm (set_phones r (phones r ++ [mkField phone])) book)).
  { simpl. unfold add_contact, bind, lift, gets, ret. simpl.
    rewrite Hf. simpl. rewrite (ten_digits_truthy _ Hph).
    unfold call_method. unfold AddressBook_find in Hf. rewrite Hf.
    unfold Record_add_phone. rewrite (Phone_init_valid _ Hph). reflexivity. }
  split; [exact E|]. rewrite E. simpl. rewrite dict_keys_set.
  unfold AddressBook_find in Hf. now rewrite Hf.
Qed.

Lemma add_contact_existing_witness :
  call2 h_add_contact ["Alice"; "1234567890"]
    [("Alice", mkRecord (mkField "Alice") [mkField "1234567890"] None)]
  = (Ok "Contact updated.",
     [("Alice", mkRecord (mkField "Alice")
                  [mkField "1234567890"; mkField "1234567890"] None)]).
Proof.
  apply (proj1 (add_contact_existing
                  [("Alice", mkRecord (mkField "Alice") [mkField "1234567890"] None)]
                  "Alice" "1234567890"
                  (mkRecord (mkField "Alice") [mkField "1234567890"] None)
                  eq_refl (conj eq_refl eq_refl))).
Defined.

(** X7. After [add_contact] has added a new contact with a phone,
    [show_phone] for that name returns the name, a colon and the phone. *)
Theorem add_then_show_phone (book : AddressBook) (nm phone : string)
  (rest : list string) :
  nm <> "" -> ~ In nm (dict_keys book) -> ten_digits phone ->
  fst (call2 h_show_phone (nm :: rest)
         (snd (call2 h_add_contact [nm; phone] book)))
  = Ok (nm ++ ": " ++ phone).
Proof.
  intros Hnm Habs Hph. rewrite (add_contact_new_eq book nm phone Hnm Habs Hph).
  apply dict_get_None_iff in Habs.
  simpl. unfold show_phone, bind, lift, gets, ret. simpl.
  unfold AddressBook_find. now rewrite (dict_get_last _ _ _ Habs).
Qed.

Lemma add_then_show_phone_witness :
  fst (call2 h_show_phone ["Alice"]
         (snd (call2 h_add_contact ["Alice"; "1234567890"] [])))
  = Ok "Alice: 1234567890".
Proof.
  apply (add_then_show_phone [] "Alice" "1234567890" []).
  - discriminate.
  - intros [].
  - split; reflexivity.
Defined.

(** ** The command [change] *)

(** X8. [change_contact] for a contact of the book, an old phone that the
    contact has and a new phone of ten digits returns "Phone number
    updated." and puts the new phone in the place of the first phone equal
    to the old one; the other phones, the other contacts and the order of
    the book stay. *)
Theorem change_contact_success (book : AddressBook) (nm old new : string)
  (r : Record_) (pre : list Phone) (p : Phone) (post : list Phone) :
  AddressBook_find nm book = Some r ->
  first_match (phones r) pre p post old ->
  ten_digits new ->
  call2 h_change_contact [nm; old; new] book
  = (Ok "Phone number updated.",
     dict_set nm (set_phones r (pre ++ mkField new :: post)) book).
Proof.
  intros Hf (Hps & Hp & Hpre) Hnew.
  simpl. unfold change_contact, bind, lift, gets, ret. simpl.
  rewrite Hf. unfold call_method. unfold AddressBook_find in Hf. rewrite Hf.
  unfold Record_edit_phone.
  pose proof (edit_phone_loop_found r [] pre p post old new Hps Hp Hpre) as H.
  simpl in H. rewrite <- Hps in H. rewrite H.
  now rewrite (Phone_init_valid _ Hnew).
Qed.

Lemma change_contact_success_witness :
  call2 h_change_contact ["Alice"; "1234567890"; "0000000000"]
    [("Alice", mkRecord (mkField "Alice")
                 [mkField "5550000000"; mkField "1234567890"] None)]
  = (Ok "Phone number updated.",
     [("Alice", mkRecord (mkField "Alice")
                  [mkField "5550000000"; mkField "0000000000"] None)]).
Proof.
  apply (change_contact_success
           [("Alice", mkRecord (mkField "Alice")
                        [mkField "5550000000"; mkField "1234567890"] None)]
           "Alice" "1234567890" "0000000000"
           (mkRecord (mkField "Alice")
              [mkField "5550000000"; mkField "1234567890"] None)
           [mkField "5550000000"] (mkField "1234567890") []).
  - reflexivity.
  - split; [reflexivity | split; [reflexivity|]].
    constructor; [discriminate | constructor].
  - split; reflexivity.
Defined.

(** X9. A call of [change_contact] that returns any message but "Phone
    number updated." (too few or too many arguments, a name that is not in
    the book, an old phone that the contact has not, a new phone that is not
    valid) leaves the book as it was. *)
Theorem change_contact_failure (args : list string) (book : AddressBook)
  (msg : string) :
  fst (call2 h_change_contact args book) = Ok msg ->
  msg <> "Phone number updated." ->
  snd (call2 h_change_contact args book) = book.
Proof. apply change_contact_atomic. Qed.

Lemma change_contact_failure_witness :
  snd (call2 h_change_contact ["Alice"; "1234567890"; "123"]
         [("Alice", mkRecord (mkField "Alice") [mkField "1234567890"] None)])
  = [("Alice", mkRecord (mkField "Alice") [mkField "1234567890"] None)].
Proof.
  apply (change_contact_failure
           ["Alice"; "1234567890"; "123"]
           [("Alice", mkRecord (mkField "Alice") [mkField "1234567890"] None)]
           "Phone number must consist of exactly 10 digits.").
  - reflexivity.
  - discriminate.
Defined.

(** ** The commands [add-birthday] and [show-birthday] *)

(** X10. After [add_birthday] for a contact of the book with a DD.MM.YYYY
    string of a real date, which returns "Birthday added.",
    [show_birthday] for that name returns the name, a colon and the same
    string, when the year is 1000 or later or the platform pads [%Y]. *)
Theorem add_then_show_birthday (pad_year : bool) (book : AddressBook)
  (nm s : string) (rest rest' : list string) (r : Record_) (y m d : Z) :
  AddressBook_find nm book = Some r ->
  strict_format s y m d -> real_date y m d ->
  1000 <= y \/ pad_year = true ->
  fst (call2 h_add_birthday (nm :: s :: rest) book) = Ok "Birthday added."
  /\ fst (call2 (h_show_birthday pad_year) (nm :: rest')
            (snd (call2 h_add_birthday (nm :: s :: rest) book)))
     = Ok (nm ++ ": " ++ s).
Proof.
  intros Hf Hs Hr Hy.
  assert (E : call2 h_add_birthday (nm :: s :: rest) book
              = (Ok "Birthday added.",
                 dict_set nm
                   (set_birthday r (Some (mkField (mkDatetime y m d 0 0 0 0))))
                   book)).
  { simpl. unfold add_birthday, bind, lift, gets, ret. simpl.
    rewrite Hf. unfold call_method. unfold AddressBook_find in Hf. rewrite Hf.
    unfold Record_add_birthday, Birthday_init.
    now rewrite (strptime_complete s y m d (strict_lenient _ _ _ _ Hs) Hr). }
  rewrite E. split; [reflexivity|].
  simpl. unfold show_birthday, bind, lift, gets, ret. simpl.
  unfold AddressBook_find. rewrite dict_get_set_same. simpl.
  now rewrite (strftime_strict pad_year s y m d Hs Hy).
Qed.

Lemma add_then_show_birthday_witness :
  fst (call2 h_add_birthday ["Alice"; "03.11.1990"]
         [("Alice", mkRecord (mkField "Alice") [mkField "1234567890"] None)])
  = Ok "Birthday added."
  /\ fst (call2 (h_show_birthday false) ["Alice"]
            (snd (call2 h_add_birthday ["Alice"; "03.11.1990"]
                    [("Alice", mkRecord (mkField "Alice")
                                 [mkField "1234567890"] None)])))
     = Ok "Alice: 03.11.1990".
Proof.
  apply (add_then_show_birthday false
           [("Alice", mkRecord (mkField "Alice") [mkField "1234567890"] None)]
           "Alice" "03.11.1990" [] []
           (mkRecord (mkField "Alice") [mkField "1234567890"] None)
           1990 11 3).
  - reflexivity.
  - exists "0"%char, "3"%char, "1"%char, "1"%char,
      "1"%char, "9"%char, "9"%char, "0"%char.
    repeat split.
  - unfold real_date, days_in_month. simpl. lia.
  - left. lia.
Defined.

(** X11. A call of [add_birthday] that returns any message but "Birthday
    added." (too few arguments, a name that is not in the book, a string
    that is not a date) leaves the book as it was: the birthday that the
    contact had stays. *)
Theorem add_birthday_failure (args : list string) (book : AddressBook)
  (msg : string) :
  fst (call2 h_add_birthday args book) = Ok msg ->
  msg <> "Birthday added." ->
  snd (call2 h_add_birthday args book) = book.
Proof. apply add_birthday_atomic. Qed.

Lemma add_birthday_failure_witness :
  snd (call2 h_add_birthday ["Alice"; "31.02.2000"]
         [("Alice", born "Alice" 1990 11 3)])
  = [("Alice", born "Alice" 1990 11 3)].
Proof.
  apply (add_birthday_failure
           ["Alice"; "31.02.2000"] [("Alice", born "Alice" 1990 11 3)]
           "Invalid date format. Use DD.MM.YYYY.").
  - reflexivity.
  - discriminate.
Defined.

(** ** [parse_input] *)

Lemma all_chars_app (p : ascii -> bool) (a b : string) :
  all_chars p (a ++ b) = all_chars p a && all_chars p b.
Proof.
  induction a as [|c a IH]; simpl; [reflexivity|].
  now rewrite IH, andb_assoc.
Qed.

Lemma word_snoc (w : string) (c : ascii) :
  (w = "" \/ word w) -> is_space c = false -> word (w ++ String c "").
Proof.
  intros Hw Hc. split.
  - destruct w; discriminate.
  - rewrite all_chars_app. simpl. unfold not_space at 2. rewrite Hc. simpl.
    destruct Hw as [-> | [_ H]]; [reflexivity | now rewrite H].
Qed.

Lemma split_ws_aux_words (s : string) (cur : option string) :
  match cur with Some w => word w | None => True end ->
  Forall word (split_ws_aux s cur).
Proof.
  revert cur. induction s as [|c s IH]; intros cur Hcur; simpl.
  - destruct cur; [constructor; [exact Hcur | constructor] | constructor].
  - destruct (is_space c) eqn:E.
    + destruct cur; [constructor; [exact Hcur|] |]; now apply IH.
    + destruct cur as [w|]; apply IH.
      * apply word_snoc; [now right | exact E].
      * apply (word_snoc "" c); [now left | exact E].
Qed.

Lemma split_ws_aux_nil (s : string) (cur : option string) :
  split_ws_aux s cur = [] <-> cur = None /\ blank s.
Proof.
  unfold blank. revert cur. induction s as [|c s IH]; intros cur; simpl.
  - destruct cur; split; try discriminate; try tauto.
    intros [H _]. discriminate.
  - destruct (is_space c) eqn:E; simpl.
    + destruct cur.
      * split; [discriminate | intros [H _]; discriminate].
      * rewrite IH. tauto.
    + destruct cur; rewrite IH; split; intros [H1 H2]; discriminate.
Qed.

Lemma rstrip_word (s : string) : all_chars not_space s = true -> rstrip s = s.
Proof.
  induction s as [|c r IH]; simpl; [reflexivity|].
  intros H. apply andb_true_iff in H. destruct H as [Hc Hr].
  rewrite (IH Hr). destruct r; [|reflexivity].
  unfold not_space in Hc. apply negb_true_iff in Hc. now rewrite Hc.
Qed.

Lemma strip_word (t : string) : word t -> strip t = t.
Proof.
  intros [Hne H]. unfold strip. destruct t as [|c r]; [reflexivity|].
  pose proof H as H'. simpl in H'. apply andb_true_iff in H'.
  destruct H' as [Hc _]. unfold not_space in Hc. apply negb_true_iff in Hc.
  cbn [lstrip]. rewrite Hc. now apply rstrip_word.
Qed.

Lemma lower_char_idem (c : ascii) : lower_char (lower_char c) = lower_char c.
Proof. destruct c as [[] [] [] [] [] [] [] []]; reflexivity. Qed.

Lemma lower_char_space (c : ascii) : is_space (lower_char c) = is_space c.
Proof. destruct c as [[] [] [] [] [] [] [] []]; reflexivity. Qed.

Lemma lower_idem (s : string) : lower (lower s) = lower s.
Proof.
  induction s as [|c s IH]; simpl; [reflexivity|].
  now rewrite lower_char_idem, IH.
Qed.

Lemma lower_app (a b : string) : lower (a ++ b) = lower a ++ lower b.
Proof. induction a as [|c a IH]; simpl; [reflexivity | now rewrite IH]. Qed.

Lemma lower_word (t : string) : word t -> word (lower t).
Proof.
  intros [Hne H]. split; [now destruct t|].
  clear Hne. induction t as [|c t IH]; simpl in *; [reflexivity|].
  apply andb_true_iff in H. destruct H as [Hc Ht].
  unfold not_space in *. now rewrite lower_char_space, Hc, (IH Ht).
Qed.

Lemma split_ws_aux_lower (s : string) (cur : option string) :
  split_ws_aux (lower s) (option_map lower cur)
  = map lower (split_ws_aux s cur).
Proof.
  revert cur. induction s as [|c s IH]; intros cur; simpl.
  - now destruct cur.
  - rewrite lower_char_space. destruct (is_space c).
    + destruct cur as [w|]; simpl; [f_equal|]; apply (IH None).
    + destruct cur as [w|]; simpl.
      * rewrite <- (IH (Some (w ++ String c ""))). simpl.
        now rewrite lower_app.
      * now rewrite <- (IH (Some (String c ""))).
Qed.

Lemma parse_input_blank (line : string) :
  blank line -> parse_input line = Raise (not_enough true 1 0).
Proof.
  intros H. unfold parse_input, split_ws.
  now rewrite (proj2 (split_ws_aux_nil line None) (conj eq_refl H)).
Qed.

Lemma parse_input_words (line : string) :
  ~ blank line ->
  exists t args,
    split_ws line = t :: args /\ Forall word (t :: args)
    /\ parse_input line = Ok (lower t, args).
Proof.
  intros Hnb. unfold parse_input.
  pose proof (split_ws_aux_words line None I) as Hw. fold (split_ws line) in Hw.
  destruct (split_ws line) as [|t args] eqn:E.
  - exfalso. apply Hnb. now apply (split_ws_aux_nil line None).
  - exists t, args. split; [reflexivity | split; [exact Hw|]].
    simpl. inversion Hw; subst. now rewrite strip_word.
Qed.

(** X12. On a blank line [parse_input] raises the [ValueError] of the
    unpacking.  On any other line it returns the first word of the line in
    lower case and the other words as they are; no word is empty and none
    holds white space; and the same line in other letter case gives the
    same command. *)
Theorem parse_input_spec (line : string) :
  (blank line -> parse_input line = Raise (not_enough true 1 0))
  /\ (~ blank line ->
      exists t args,
        split_ws line = t :: args /\ Forall word (t :: args)
        /\ parse_input line = Ok (lower t, args)
        /\ parse_input (lower line) = Ok (lower t, map lower args)).
Proof.
  split; [apply parse_input_blank|].
  intros Hnb. destruct (parse_input_words line Hnb) as (t & args & Es & Hw & Ep).
  exists t, args. repeat split; try assumption.
  unfold parse_input, split_ws.
  change (@None string) with (option_map lower None).
  rewrite split_ws_aux_lower. fold (split_ws line). rewrite Es. simpl.
  inversion Hw; subst.
  now rewrite (strip_word _ (lower_word _ H1)), lower_idem.
Qed.

Lemma parse_input_spec_witness :
  exists t args,
    split_ws "  ADD Bob  123 " = t :: args /\ Forall word (t :: args)
    /\ parse_input "  ADD Bob  123 " = Ok (lower t, args)
    /\ parse_input (lower "  ADD Bob  123 ") = Ok (lower t, map lower args).
Proof.
  apply (proj2 (parse_input_spec "  ADD Bob  123 ")).
  unfold blank. simpl. discriminate.
Defined.

(** ** The command loop goes on *)

Lemma mild_ret {A : Type} (a : A) : mild (ret a).
Proof. intros book e H. discriminate. Qed.

Lemma mild_gets {A : Type} (f : AddressBook -> A) : mild (gets f).
Proof. intros book e H. discriminate. Qed.

Lemma mild_modify (f : AddressBook -> AddressBook) : mild (modify f).
Proof. intros book e H. discriminate. Qed.

Lemma mild_lift {A : Type} (r : result A) :
  (forall e, r = Raise e -> value_error e = true) -> mild (lift r).
Proof. intros Hr book e H. now apply Hr. Qed.

Lemma mild_bind {A B : Type} (m : M A) (k : A -> M B) :
  mild m -> (forall a, mild (k a)) -> mild (bind m k).
Proof.
  intros Hm Hk book e. unfold bind. specialize (Hm book).
  destruct (m book) as [[a | e'] book']; simpl in *.
  - apply Hk.
  - intros [= <-]. now apply Hm.
Qed.

Lemma mild_call_method (key : string)
  (method : Record_ -> result unit * Record_) :
  mild_method method -> mild (call_method key method).
Proof.
  intros Hm book e. unfold call_method.
  destruct (dict_get key book) as [record|]; [|discriminate].
  specialize (Hm record). destruct (method record) as [o record'].
  simpl in *. apply Hm.
Qed.

Lemma Phone_init_raises (s : string) (e : exn) :
  Phone_init s = Raise e -> value_error e = true.
Proof.
  unfold Phone_init. destruct (fullmatch_digits 10 s); simpl; [discriminate|].
  now intros [= <-].
Qed.

Lemma Birthday_init_raises (s : string) (e : exn) :
  Birthday_init s = Raise e -> value_error e = true.
Proof.
  destruct (Birthday_init_cases s) as [(t & _ & ->) | ->]; [discriminate|].
  now intros [= <-].
Qed.

Lemma mild_add_phone (phone : string) :
  mild_method (fun r => Record_add_phone r phone).
Proof.
  intros r e. unfold Record_add_phone.
  destruct (Phone_init phone) as [p|e'] eqn:E; simpl; [discriminate|].
  intros [= <-]. now apply Phone_init_raises with phone.
Qed.

Lemma mild_add_birthday (b : string) :
  mild_method (fun r => Record_add_birthday r b).
Proof.
  intros r e. unfold Record_add_birthday.
  destruct (Birthday_init b) as [bd|e'] eqn:E; simpl; [discriminate|].
  intros [= <-]. now apply Birthday_init_raises with b.
Qed.

Lemma mild_edit_phone (old new : string) :
  mild_method (fun r => Record_edit_phone r old new).
Proof.
  intros r e. unfold Record_edit_phone.
  destruct (first_match_dec (phones r) old)
    as [(pre & p & post & Hps & Hp & Hpre) | Hnone].
  - pose proof (edit_phone_loop_found r [] pre p post old new Hps Hp Hpre)
      as H.
    cbn [app List.length] in H. rewrite <- Hps in H. rewrite H.
    destruct (Phone_init new) as [q|e'] eqn:E; cbn [fst]; [discriminate|].
    intros [= <-]. now apply Phone_init_raises with new.
  - rewrite (edit_phone_loop_missing _ _ _ _ _ Hnone). now intros [= <-].
Qed.

Lemma unpack_raises (args : list string) :
  (forall e, unpack_1_star args = Raise e -> value_error e = true)
  /\ (forall e, unpack_2_star args = Raise e -> value_error e = true)
  /\ (forall e, unpack_3 args = Raise e -> value_error e = true).
Proof.
  repeat split; intros e.
  - destruct args; simpl; [now intros [= <-] | discriminate].
  - destruct args as [|a [|b args]]; simpl; try discriminate;
      now intros [= <-].
  - destruct args as [|a [|b [|c [|d args]]]]; simpl; try discriminate;
      now intros [= <-].
Qed.

Lemma Record_init_raises (n : string) (e : exn) :
  Record_init n = Raise e -> value_error e = true.
Proof.
  unfold Record_init, Name_init. destruct n; simpl; [|discriminate].
  now intros [= <-].
Qed.

Lemma comprehension_value_error (today next_week : datetime) (rs : list Record_)
  (e : exn) :
  comprehension today next_week rs = Raise e -> value_error e = true.
Proof.
  induction rs as [|r rs IH]; simpl; [discriminate|].
  unfold birthday_in_window at 1.
  destruct (birthday r) as [b|].
  - destruct (replace_year (value b) (year today)) as [c|e'] eqn:E; simpl.
    + destruct (comprehension today next_week rs); simpl; [discriminate|].
      intros [= <-]. now apply IH.
    + intros [= <-]. apply replace_year_value_error in E.
      now destruct E as [msg ->].
  - simpl. destruct (comprehension today next_week rs); simpl; [discriminate|].
    intros [= <-]. now apply IH.
Qed.

Ltac mild_step :=
  match goal with
  | |- mild (bind _ _) => apply mild_bind; [|intros ?]
  | |- mild (ret _) => apply mild_ret
  | |- mild (gets _) => apply mild_gets
  | |- mild (modify _) => apply mild_modify
  | |- mild (lift (unpack_1_star ?a)) =>
      apply mild_lift, (proj1 (unpack_raises a))
  | |- mild (lift (unpack_2_star ?a)) =>
      apply mild_lift, (proj1 (proj2 (unpack_raises a)))
  | |- mild (lift (unpack_3 ?a)) =>
      apply mild_lift, (proj2 (proj2 (unpack_raises a)))
  | |- mild (lift (Record_init _)) => apply mild_lift, Record_init_raises
  | |- mild (call_method _ (fun r => Record_add_phone r _)) =>
      apply mild_call_method, mild_add_phone
  | |- mild (call_method _ (fun r => Record_add_birthday r _)) =>
      apply mild_call_method, mild_add_birthday
  | |- mild (call_method _ (fun r => Record_edit_phone r _ _)) =>
      apply mild_call_method, mild_edit_phone
  | |- mild (match ?x with _ => _ end) => destruct x
  | |- mild (if ?x then _ else _) => destruct x
  end.

Lemma mild_add_contact (args : list string) : mild (add_contact args).
Proof. unfold add_contact. repeat mild_step. Qed.

Lemma mild_change_contact (args : list string) : mild (change_contact args).
Proof. unfold change_contact. repeat mild_step. Qed.

Lemma mild_show_phone (args : list string) : mild (show_phone args).
Proof. unfold show_phone. repeat mild_step. Qed.

Lemma mild_add_birthday_handler (args : list string) :
  mild (add_birthday args).
Proof. unfold add_birthday. repeat mild_step. Qed.

Lemma mild_show_birthday (pad_year : bool) (args : list string) :
  mild (show_birthday pad_year args).
Proof. unfold show_birthday. repeat mild_step. Qed.

Lemma mild_show_upcoming_birthdays (pad_year : bool) (today : datetime)
  (args : list string) :
  datetime_ok today -> toordinal today + 7 <= MAXORDINAL ->
  mild (show_upcoming_birthdays pad_year today args).
Proof.
  intros Ht Hmax. unfold show_upcoming_birthdays.
  apply mild_bind; [|intros l; repeat mild_step].
  intros book e. simpl. unfold AddressBook_upcoming_birthdays.
  pose proof (toordinal_pos today Ht) as H1.
  destruct (dt_add_days_spec today 7 Ht) as [Hadd _].
  destruct (Hadd ltac:(lia)) as (nw & -> & _). simpl.
  apply comprehension_value_error.
Qed.

Lemma input_error_returns (fname : string) (body : list string -> M string)
  (args : list string) (book : AddressBook) :
  mild (body args) ->
  exists s, fst (call2 (input_error (Fun2 fname body)) args book) = Ok s.
Proof.
  intros Hm. simpl. specialize (Hm book).
  destruct (body args book) as [[s | e] book']; simpl in *.
  - now exists s.
  - specialize (Hm e eq_refl). destruct e; try discriminate; now eexists.
Qed.

Lemma handlers_return (pad_year : bool) (ah : pyfunc) (today : datetime)
  (command : string) (h : pyfunc) (args : list string) (book : AddressBook) :
  datetime_ok today -> toordinal today + 7 <= MAXORDINAL ->
  command <> "all" ->
  handlers pad_year ah today command = Some h ->
  exists s, fst (call2 h args book) = Ok s.
Proof.
  intros Ht Hmax Hall. unfold handlers.
  destruct (String.eqb command "hello"); [intros [= <-]; now eexists|].
  destruct (String.eqb command "add");
    [intros [= <-]; apply input_error_returns, mild_add_contact|].
  destruct (String.eqb command "change");
    [intros [= <-]; apply input_error_returns, mild_change_contact|].
  destruct (String.eqb command "phone");
    [intros [= <-]; apply input_error_returns, mild_show_phone|].
  destruct (String.eqb command "all") eqn:E;
    [apply String.eqb_eq in E; contradiction|].
  destruct (String.eqb command "add-birthday");
    [intros [= <-]; apply input_error_returns, mild_add_birthday_handler|].
  destruct (String.eqb command "show-birthday");
    [intros [= <-]; apply input_error_returns, mild_show_birthday|].
  destruct (String.eqb command "birthdays"); [|discriminate].
  intros [= <-].
  now apply input_error_returns, mild_show_upcoming_birthdays.
Qed.

Lemma main_loop_goes_on (pad_year : bool) (ah : pyfunc)
  (inputs : list (datetime * string)) :
  Forall line_ok inputs ->
  forall book out e out',
    main_loop pad_year ah inputs book out <> Uncaught e out'.
Proof.
  intros H. induction H as [|[today line] inputs Hl _ IH];
    intros book out e out'; cbn [main_loop]; [discriminate|].
  destruct Hl as (Ht & Hmax & Hnb & Hall). cbn [fst snd] in Ht, Hmax, Hnb, Hall.
  destruct (parse_input_words line Hnb) as (t & args & _ & _ & Ep).
  rewrite Ep.
  destruct (String.eqb (lower t) "close" || String.eqb (lower t) "exit");
    [discriminate|].
  destruct (handlers pad_year ah today (lower t)) as [h|] eqn:Eh; [|apply IH].
  pose proof (Hall _ _ Ep) as Hc.
  destruct (handlers_return pad_year ah today (lower t) h args book Ht Hmax
              Hc Eh) as [s Hs].
  destruct (call2 h args book) as [[s' | e'] book']; cbn [fst] in Hs;
    [apply IH | discriminate Hs].
Qed.

(** X13. When no input line is blank, no command is [all], and the clock is
    in the calendar with seven days to spare at every line, no exception
    leaves [main]: the run ends by [close] or [exit], or waits for the next
    line. *)
Theorem main_goes_on (pad_year : bool) (inputs : list (datetime * string)) :
  Forall line_ok inputs ->
  forall e out, main pad_year inputs <> Uncaught e out.
Proof. intros H e out. unfold main. apply main_loop_goes_on, H. Qed.

Lemma main_goes_on_witness :
  Forall line_ok
    [(noon 2025 11 3, "add Alice 123"); (noon 2025 11 3, "change Alice");
     (noon 2025 11 3, "birthdays"); (noon 2025 11 3, "what?")]
  /\ forall e out,
       main true [(noon 2025 11 3, "add Alice 123");
                  (noon 2025 11 3, "change Alice");
                  (noon 2025 11 3, "birthdays");
                  (noon 2025 11 3, "what?")]
       <> Uncaught e out.
Proof.
  assert (H : Forall line_ok
                [(noon 2025 11 3, "add Alice 123");
                 (noon 2025 11 3, "change Alice");
                 (noon 2025 11 3, "birthdays"); (noon 2025 11 3, "what?")]).
  { repeat apply Forall_cons; try apply Forall_nil; unfold line_ok;
      cbn [fst snd];
      (split; [vm_compute; intuition discriminate|]);
      (split; [vm_compute; discriminate|]);
      (split; [vm_compute; discriminate|]);
      intros cmd args H; vm_compute in H; injection H as <- _; discriminate. }
  split; [exact H | exact (main_goes_on true _ H)].
Defined.

(** ** The birthdays of the week *)

Lemma upcoming_spec (today : datetime) (r : Record_) :
  upcoming today r = true
  <-> exists b, birthday r = Some b
                /\ toordinal today + past_midnight today
                   <= comparison_ordinal today b <= toordinal today + 7.
Proof.
  unfold upcoming, in_window. destruct (birthday r) as [b|].
  - rewrite andb_true_iff, !Z.leb_le. split.
    + intros H. exists b. split; [reflexivity | lia].
    + intros (b' & [= <-] & H). lia.
  - split; [discriminate | intros (b & H & _); discriminate].
Qed.

Lemma birthdays_comparable (today : datetime) (book : AddressBook) :
  birthdays_ok book ->
  Forall (fun r => forall b, birthday r = Some b -> comparable today b)
         (dict_values book) ->
  Forall (fun r => forall b, birthday r = Some b ->
                             birthday_ok b /\ comparable today b)
         (dict_values book).
Proof.
  unfold birthdays_ok. rewrite !Forall_forall. intros Hok Hc r Hr b Hb.
  split; [now apply (Hok r Hr) | now apply (Hc r Hr)].
Qed.

(** X14. When the month and day of every stored birthday exist in the
    current year, [upcoming_birthdays] returns the records of the book, in
    the order of the book, whose birthday falls in the current year between
    today (tomorrow, when the clock is past midnight) and the seventh day
    after today. *)
Theorem upcoming_birthdays_window (today : datetime) (book : AddressBook) :
  datetime_ok today -> toordinal today + 7 <= MAXORDINAL ->
  birthdays_ok book ->
  Forall (fun r => forall b, birthday r = Some b -> comparable today b)
         (dict_values book) ->
  exists l,
    AddressBook_upcoming_birthdays today book = Ok l
    /\ l = filter (upcoming today) (dict_values book)
    /\ forall r,
         In r l
         <-> In r (dict_values book)
             /\ exists b, birthday r = Some b
                          /\ toordinal today + past_midnight today
                             <= comparison_ordinal today b
                             <= toordinal today + 7.
Proof.
  intros Ht Hmax Hok Hc. eexists. split; [|split; [reflexivity|]].
  - apply upcoming_birthdays_filter; [exact Ht | exact Hmax|].
    now apply birthdays_comparable.
  - intros r. now rewrite filter_In, upcoming_spec.
Qed.

Lemma upcoming_birthdays_window_witness :
  exists l,
    AddressBook_upcoming_birthdays (noon 2025 3 1)
      [("Alice", born "Alice" 1990 3 3); ("Dave", born "Dave" 1985 3 9);
       ("Carol", born "Carol" 1985 3 8)]
    = Ok l
    /\ l = [born "Alice" 1990 3 3; born "Carol" 1985 3 8].
Proof.
  destruct (upcoming_birthdays_window (noon 2025 3 1)
              [("Alice", born "Alice" 1990 3 3); ("Dave", born "Dave" 1985 3 9);
               ("Carol", born "Carol" 1985 3 8)])
    as (l & E & -> & _).
  - vm_compute. intuition discriminate.
  - vm_compute. discriminate.
  - unfold birthdays_ok, dict_values. cbn [map snd].
    repeat apply Forall_cons; try apply Forall_nil; intros b [= <-];
      vm_compute; intuition discriminate.
  - unfold dict_values. cbn [map snd].
    repeat apply Forall_cons; try apply Forall_nil; intros b [= <-];
      vm_compute; intuition discriminate.
  - eexists. split; [exact E | reflexivity].
Defined.

Lemma comprehension_message (today next_week : datetime) (rs : list Record_)
  (e : exn) :
  1 <= year today <= 9999 -> Forall record_ok rs ->
  comprehension today next_week rs = Raise e ->
  e = ValueError "day is out of range for month".
Proof.
  intros Hy Hrs. induction Hrs as [|r rs Hr _ IH]; cbn [comprehension];
    [discriminate|].
  unfold birthday_in_window at 1.
  destruct (birthday r) as [b|] eqn:Eb.
  - destruct (Hr b Eb) as [(_ & [Hm _] & _) _].
    unfold replace_year, check_date_fields, MINYEAR, MAXYEAR.
    replace ((1 <=? year today) && (year today <=? 9999)) with true
      by (symmetry; apply andb_true_iff; split; apply Z.leb_le; lia).
    replace ((1 <=? month (value b)) && (month (value b) <=? 12)) with true
      by (symmetry; apply andb_true_iff; split; apply Z.leb_le; lia).
    cbn [negb].
    destruct (negb _); cbn [rbind]; [now intros [= <-]|].
    destruct (comprehension today next_week rs); cbn [rbind]; [discriminate|].
    exact IH.
  - cbn [rbind].
    destruct (comprehension today next_week rs); cbn [rbind]; [discriminate|].
    exact IH.
Qed.

(** X15. The command [birthdays] leaves the book as it is.  When the month
    and day of every stored birthday exist in the current year it answers
    with one line, name and birthday, for each record of the window, in the
    order of the book, or with the fixed text when the window is empty;
    when some stored birthday has no date in the current year it answers
    with the text of the exception of [replace] and names no record. *)
Theorem show_upcoming_birthdays_answer (pad_year : bool) (today : datetime)
  (args : list string) (book : AddressBook) :
  datetime_ok today -> toordinal today + 7 <= MAXORDINAL ->
  birthdays_ok book ->
  (Forall (fun r => forall b, birthday r = Some b -> comparable today b)
          (dict_values book) ->
   call2 (h_show_upcoming_birthdays pad_year today) args book
   = (Ok match filter (upcoming today) (dict_values book) with
         | [] => "No birthdays in the next 7 days."
         | l => join nl (map (birthday_line pad_year) l)
         end, book))
  /\ (forall r b,
        In r (dict_values book) -> birthday r = Some b ->
        ~ comparable today b ->
        call2 (h_show_upcoming_birthdays pad_year today) args book
        = (Ok "day is out of range for month", book)).
Proof.
  intros Ht Hmax Hok. split.
  - intros Hc.
    pose proof (upcoming_birthdays_filter today book Ht Hmax
                  (birthdays_comparable today book Hok Hc)) as E.
    cbn [call2 h_show_upcoming_birthdays input_error].
    unfold show_upcoming_birthdays, bind. rewrite E.
    now destruct (filter (upcoming today) (dict_values book)).
  - intros r b Hr Hb Hn.
    destruct (upcoming_birthdays_raises today book r b Ht Hmax Hr Hb Hn)
      as [msg E].
    assert (Hm : ValueError msg = ValueError "day is out of range for month").
    { revert E. unfold AddressBook_upcoming_birthdays.
      pose proof (toordinal_pos today Ht) as H1.
      destruct (dt_add_days_spec today 7 Ht) as [Hadd _].
      destruct (Hadd ltac:(lia)) as (nw & -> & _). cbn [rbind].
      apply comprehension_message; [apply Ht | exact Hok]. }
    cbn [call2 h_show_upcoming_birthdays input_error].
    unfold show_upcoming_birthdays, bind. rewrite E.
    now injection Hm as ->.
Qed.

Lemma show_upcoming_birthdays_answer_witness :
  call2 (h_show_upcoming_birthdays true (noon 2025 3 1)) []
    [("Alice", born "Alice" 1990 3 3); ("Dave", born "Dave" 1985 3 9);
     ("Bob", born "Bob" 2000 2 29)]
  = (Ok "day is out of range for month",
     [("Alice", born "Alice" 1990 3 3); ("Dave", born "Dave" 1985 3 9);
      ("Bob", born "Bob" 2000 2 29)]).
Proof.
  apply (proj2 (show_upcoming_birthdays_answer true (noon 2025 3 1) []
                  [("Alice", born "Alice" 1990 3 3);
                   ("Dave", born "Dave" 1985 3 9);
                   ("Bob", born "Bob" 2000 2 29)]
                  ltac:(vm_compute; intuition discriminate)
                  ltac:(vm_compute; discriminate)
                  ltac:(unfold birthdays_ok, dict_values; cbn [map snd];
                        repeat apply Forall_cons; try apply Forall_nil;
                        intros b [= <-]; vm_compute; intuition discriminate))
          (born "Bob" 2000 2 29) (mkField (mkDatetime 2000 2 29 0 0 0 0))).
  - unfold dict_values. cbn [map snd In]. tauto.
  - reflexivity.
  - vm_compute. intros [_ [_ H]]. now apply H.
Defined.

(** ** The days to the next birthday *)

Lemma year_step (y m d : Z) :
  365 <= ymd2ord (y + 1) m d - ymd2ord y m d <= 366.
Proof.
  unfold ymd2ord. rewrite days_before_year_succ.
  unfold days_before_month, year_days.
  destruct (2 <? m); destruct (is_leap y); destruct (is_leap (y + 1));
    cbn [andb]; lia.
Qed.

Lemma valid_date_any_year (y y' m d : Z) :
  valid_date y m d -> m <> 2 \/ d <> 29 -> valid_date y' m d.
Proof.
  unfold valid_date, days_in_month. intros [Hm Hd] Hn. split; [exact Hm|].
  destruct (Z.eqb_spec m 2) as [-> | Hne]; cbn [andb] in *; [|exact Hd].
  destruct (is_leap y); destruct (is_leap y'); month_tables; lia.
Qed.

(** X16. For a birthday that is not a 29 February, and before the last year
    of the calendar, [days_to_birthday] returns a number of days from 0 to
    365. *)
Theorem days_to_birthday_range (today : datetime) (r : Record_) (b : Birthday) :
  birthday r = Some b -> birthday_ok b -> datetime_ok today ->
  year today < 9999 ->
  month (value b) <> 2 \/ day (value b) <> 29 ->
  exists n, Record_days_to_birthday today r = Ok (Some n) /\ 0 <= n <= 365.
Proof.
  intros Hb Hbo Ht Hy Hn.
  assert (Hv : forall y, valid_date y (month (value b)) (day (value b))).
  { intros y. apply valid_date_any_year with (year (value b)); [|exact Hn].
    apply Hbo. }
  destruct (proj2 (days_to_birthday_spec today r) b Hb Hbo Ht (Hv _))
    as [Hsame Hnext].
  pose proof (day_of_year_range _ _ _ (Hv (year today))) as Rb.
  pose proof (day_of_year_range _ _ _ (Hv (year today + 1))) as Rb'.
  pose proof (day_of_year_range _ _ _ (proj1 (proj2 Ht))) as Rt.
  pose proof (year_step (year today) (month (value b)) (day (value b))) as Rs.
  pose proof (days_before_year_succ (year today)) as Ry.
  assert (Hp : 0 <= past_midnight today <= 1)
    by (unfold past_midnight; destruct (day_micros today =? 0); lia).
  unfold comparison_ordinal, toordinal, ymd2ord, year_days in *.
  destruct (Z.le_gt_cases
              (days_before_year (year today)
               + days_before_month (year today) (month today) + day today
               + past_midnight today)
              (days_before_year (year today)
               + days_before_month (year today) (month (value b))
               + day (value b))) as [Hle | Hgt].
  - eexists. split; [exact (Hsame Hle)|].
    destruct (is_leap (year today)); lia.
  - eexists. split; [exact (Hnext ltac:(lia) Hy (Hv _))|].
    destruct (is_leap (year today)); lia.
Qed.

Lemma days_to_birthday_range_witness :
  exists n,
    Record_days_to_birthday (noon 2025 6 15) (born "Alice" 1990 6 14)
    = Ok (Some n) /\ 0 <= n <= 365.
Proof.
  apply (days_to_birthday_range (noon 2025 6 15) (born "Alice" 1990 6 14)
           (mkField (mkDatetime 1990 6 14 0 0 0 0))).
  - reflexivity.
  - vm_compute. intuition discriminate.
  - vm_compute. intuition discriminate.
  - vm_compute. reflexivity.
  - left. vm_compute. discriminate.
Defined.

(** ** A phone taken off a record *)

(** X17. [remove_phone] never fails and touches nothing but the phones; it
    takes off every phone with the given number and keeps the others, in
    their order; a record without the number is left as it is, so that
    adding a number which the record did not have and removing it again
    gives the record back. *)
Theorem remove_phone_all (r : Record_) (p : string) :
  fst (Record_remove_phone r p) = Ok tt
  /\ name (snd (Record_remove_phone r p)) = name r
  /\ birthday (snd (Record_remove_phone r p)) = birthday r
  /\ phones (snd (Record_remove_phone r p))
     = filter (fun q => negb (String.eqb (value q) p)) (phones r)
  /\ (forall q, In q (phones (snd (Record_remove_phone r p)))
                <-> In q (phones r) /\ value q <> p)
  /\ (~ In p (map value (phones r)) ->
      snd (Record_remove_phone r p) = r
      /\ (ten_digits p ->
          snd (Record_remove_phone (snd (Record_add_phone r p)) p) = r)).
Proof.
  assert (Hkeep : forall ps, ~ In p (map value ps) ->
            filter (fun q : Phone => negb (String.eqb (value q) p)) ps = ps).
  { induction ps as [|q ps IH]; [reflexivity|]. cbn [map In filter].
    intros Hn. destruct (String.eqb_spec (value q) p) as [E | E]; [tauto|].
    cbn [negb]. f_equal. apply IH. tauto. }
  repeat (split; [reflexivity|]). split.
  - intros q. cbn [Record_remove_phone snd set_phones phones].
    rewrite filter_In, negb_true_iff, String.eqb_neq. reflexivity.
  - intros Hn. split.
    + destruct r as [n ps b]. unfold Record_remove_phone, set_phones.
      cbn [snd name phones birthday] in *. now rewrite Hkeep.
    + intros Hd. unfold Record_add_phone. rewrite (Phone_init_valid p Hd).
      destruct r as [n ps b]. unfold Record_remove_phone, set_phones.
      cbn [snd name phones birthday] in *.
      rewrite filter_app, Hkeep by exact Hn. cbn [filter value].
      rewrite String.eqb_refl. cbn [negb]. now rewrite app_nil_r.
Qed.

(** ** The two ways out of the command loop *)

Lemma main_loop_app (pad_year : bool) (ah : pyfunc)
  (pre tail : list (datetime * string)) :
  Forall line_ok pre -> Forall stays pre ->
  forall book out,
  exists book' out',
    main_loop pad_year ah (pre ++ tail) book out
    = main_loop pad_year ah tail book' out'.
Proof.
  intros H. induction H as [|[today line] pre Hl _ IH]; intros Hs book out.
  - now exists book, out.
  - apply Forall_cons_iff in Hs. destruct Hs as [Hs1 Hs].
    destruct Hl as (Ht & Hmax & Hnb & Hall).
    cbn [fst snd] in Ht, Hmax, Hnb, Hall. unfold stays in Hs1.
    cbn [snd] in Hs1.
    destruct (parse_input_words line Hnb) as (t & args & _ & _ & Ep).
    destruct (Hs1 _ _ Ep) as [Hc He].
    cbn [app main_loop]. rewrite Ep.
    apply String.eqb_neq in Hc, He. rewrite Hc, He. cbn [orb].
    destruct (handlers pad_year ah today (lower t)) as [h|] eqn:Eh;
      [|apply (IH Hs)].
    pose proof (Hall _ _ Ep) as Hca.
    destruct (handlers_return pad_year ah today (lower t) h args book Ht Hmax
                Hca Eh) as [s Hr].
    destruct (call2 h args book) as [[s' | e'] book']; cbn [fst] in Hr;
      [apply (IH Hs) | discriminate Hr].
Qed.

(** X18. After lines that keep the loop going, a blank line ends [main] with
    the [ValueError] of the unpacking in [parse_input], and the command [all]
    ends it with the [TypeError] of calling the one-parameter
    [show_all_contacts] with two arguments; no further line is read. *)
Theorem main_stops (pad_year : bool) (pre rest : list (datetime * string))
  (today : datetime) (line : string) :
  Forall line_ok pre -> Forall stays pre ->
  (blank line ->
   exists out,
     main pad_year (pre ++ (today, line) :: rest)
     = Uncaught
         (ValueError "not enough values to unpack (expected at least 1, got 0)")
         out)
  /\ (forall args,
        parse_input line = Ok ("all", args) ->
        exists out,
          main pad_year (pre ++ (today, line) :: rest)
          = Uncaught
              (TypeError
                 "show_all_contacts() takes 1 positional argument but 2 were given")
              out).
Proof.
  intros Hl Hs. unfold main.
  destruct (main_loop_app pad_year (h_show_all_contacts pad_year) pre
              ((today, line) :: rest) Hl Hs []
              ["Welcome to the assistant bot!"]) as (book & out & ->).
  split.
  - intros Hb. cbn [main_loop]. rewrite (parse_input_blank line Hb).
    eexists. reflexivity.
  - intros args Ep. cbn [main_loop]. rewrite Ep. eexists. reflexivity.
Qed.

Lemma main_stops_witness :
  exists out,
    main true [(noon 2025 11 3, "add Alice 1234567890");
               (noon 2025 11 3, "phone Alice");
               (noon 2025 11 3, "ALL");
               (noon 2025 11 3, "close")]
    = Uncaught
        (TypeError
           "show_all_contacts() takes 1 positional argument but 2 were given")
        out.
Proof.
  apply (proj2 (main_stops true
                  [(noon 2025 11 3, "add Alice 1234567890");
                   (noon 2025 11 3, "phone Alice")]
                  [(noon 2025 11 3, "close")] (noon 2025 11 3) "ALL"
                  ltac:(repeat apply Forall_cons; try apply Forall_nil;
                        unfold line_ok; cbn [fst snd];
                        (split; [vm_compute; intuition discriminate|]);
                        (split; [vm_compute; discriminate|]);
                        (split; [vm_compute; discriminate|]);
                        intros cmd args H; vm_compute in H;
                        injection H as <- _; discriminate)
                  ltac:(repeat apply Forall_cons; try apply Forall_nil;
                        intros cmd args H; vm_compute in H;
                        injection H as <- _; split; discriminate))
          []).
  reflexivity.
Defined.

(** ** The exceptions of the handlers *)

(** X19. The body of every decorated handler of the dispatch table raises
    nothing but [ValueError]: too few arguments, an invalid field and a
    missing phone all end in the branch of [input_error] that answers with
    the text of the exception, and its branches for [IndexError] and for
    [KeyError] are never taken. *)
Theorem handlers_raise_value_error (pad_year : bool) (today : datetime)
  (body : list string -> M string) (args : list string) (book : AddressBook)
  (e : exn) :
  datetime_ok today -> toordinal today + 7 <= MAXORDINAL ->
  In body [add_contact; change_contact; show_phone; add_birthday;
           show_birthday pad_year; show_upcoming_birthdays pad_year today] ->
  fst (body args book) = Raise e ->
  exists msg,
    e = ValueError msg
    /\ forall fname,
         call2 (input_error (Fun2 fname body)) args book
         = (Ok msg, snd (body args book)).
Proof.
  intros Ht Hmax Hin He.
  assert (Hm : mild (body args)).
  { cbn [In] in Hin.
    destruct Hin as [<- | [<- | [<- | [<- | [<- | [<- | []]]]]]].
    - apply mild_add_contact.
    - apply mild_change_contact.
    - apply mild_show_phone.
    - apply mild_add_birthday_handler.
    - apply mild_show_birthday.
    - now apply mild_show_upcoming_birthdays. }
  specialize (Hm book e He).
  destruct e as [msg| | | | ]; try discriminate Hm.
  exists msg. split; [reflexivity|]. intros fname.
  cbn [call2 input_error].
  destruct (body args book) as [r book']. cbn [fst snd] in *. now rewrite He.
Qed.

Lemma handlers_raise_value_error_witness :
  exists msg,
    not_enough false 3 1 = ValueError msg
    /\ forall fname,
         call2 (input_error (Fun2 fname change_contact)) ["Bob"] []
         = (Ok msg, snd (change_contact ["Bob"] [])).
Proof.
  apply (handlers_raise_value_error true (noon 2025 11 3) change_contact
           ["Bob"] [] (not_enough false 3 1)).
  - vm_compute. intuition discriminate.
  - vm_compute. discriminate.
  - right. left. reflexivity.
  - reflexivity.
Defined.
